(** * Pet face matching and session lifecycle: a shallow embedding

    The development follows the Django project [cat_dog_with_embedding],
    one module per Python class or module:

    - [Float64]: IEEE 754 binary64 values, the numbers behind Python's
      [float] and numpy's [float64], on the standard library's executable
      specification [SpecFloat]; [Float32]: the arithmetic of numpy's
      [float32], in which the detector gives its boxes;
    - [Py]: [list.sort(key=..., reverse=True)] and slices;
    - [Pet], [PetRegistrationSession], [PetImage]: [pets/models.py];
    - [FaceEmbedding], [FaceRecognitionResult], [FaceDetection]:
      [face_recognition/models.py];
    - [Services]: [face_recognition/services.py];
    - [PetsViews]: [pets/serializers.py] and [pets/views.py];
    - [QRCode], [QRSearchSession], [QRSearchImage]: [qr_search/models.py];
    - [QRViews]: [qr_search/serializers.py] and [qr_search/views.py];
    - [FaceRecognitionFacts], [PetsFacts], [QRFacts]: what is proved.

    Conventions.  A table is the list of its rows, in the order a queryset
    without [order_by] yields them; [save] rewrites the row that carries
    the primary key of the saved object.  The database enforces the
    columns' constraints: a row that lacks a column which is neither
    nullable nor has a default, or that points to a row which is not
    stored, or that repeats the value of a unique column, is refused with
    an [IntegrityError]; apart from that storage is taken to be reliable.
    A view is a function of the database, of the request and of what the
    run draws from outside (the time, random keys and tokens); it returns
    the response and the database it leaves.  A request is served
    at one instant [now], the value of [timezone.now()] while it runs, in
    microseconds.  The YOLO detector, OpenCV and the embedding model are
    opaque functions, given as section variables. *)

From Stdlib Require Import ZArith List Bool Lia Sorted Permutation.
From Stdlib Require String.
Import String.StringSyntax.
Delimit Scope string_scope with string.
From Stdlib Require Import Floats.SpecFloat.
Import ListNotations.
Local Open Scope Z_scope.

(* ===================================================================== *)
(** * Binary64 floating point *)
(* ===================================================================== *)

Module Float64.

Definition prec : Z := 53.
Definition emax : Z := 1024.

(** A Python [float].  Every theorem below that quantifies over [float]
    covers in particular all well-formed binary64 values ([valid]). *)
Definition float : Type := spec_float.

Definition valid (x : float) : bool := valid_binary prec emax x.

Definition fadd : float -> float -> float := SFadd prec emax.
Definition fsub : float -> float -> float := SFsub prec emax.
Definition fmul : float -> float -> float := SFmul prec emax.
Definition fdiv : float -> float -> float := SFdiv prec emax.
Definition fsqrt : float -> float := SFsqrt prec emax.

(** [x < y], [x <= y], [x > y], [x >= y] as Python evaluates them: every
    comparison that involves NaN is [False]. *)
Definition flt (x y : float) : bool := SFltb x y.
Definition fle (x y : float) : bool := SFleb x y.
Definition fgt (x y : float) : bool := SFltb y x.
Definition fge (x y : float) : bool := SFleb y x.

Definition is_nan (x : float) : bool :=
  match x with S754_nan => true | _ => false end.

Definition is_zero (x : float) : bool :=
  match x with S754_zero _ => true | _ => false end.

(** [float(n)] for an integer [n]. *)
Definition of_Z (n : Z) : float := binary_normalize prec emax n 0 false.

(** The float a decimal literal [p/q] denotes: the nearest binary64. *)
Definition of_ratio (p q : Z) : float := fdiv (of_Z p) (of_Z q).

Definition f0 : float := S754_zero false.
Definition f1 : float := S754_finite false 4503599627370496 (-52).
Definition f0_5 : float := S754_finite false 4503599627370496 (-53).
Definition f0_7 : float := S754_finite false 6305039478318694 (-53).
Definition f0_8 : float := S754_finite false 7205759403792794 (-53).
Definition f0_9 : float := S754_finite false 8106479329266893 (-53).

Lemma literals_correctly_rounded :
  f0 = of_Z 0 /\ f1 = of_Z 1 /\ f0_5 = of_ratio 5 10 /\
  f0_7 = of_ratio 7 10 /\ f0_8 = of_ratio 80 100 /\ f0_9 = of_ratio 90 100.
Proof. vm_compute. repeat split. Qed.

Lemma literals_valid :
  forallb valid [f0; f1; f0_5; f0_7; f0_8; f0_9] = true.
Proof. vm_compute. reflexivity. Qed.

(** ** The order on non-NaN values *)

Lemma compare_nan_l (y : float) : SFcompare S754_nan y = None.
Proof. reflexivity. Qed.

Lemma compare_nan_r (x : float) : SFcompare x S754_nan = None.
Proof. destruct x; reflexivity. Qed.

Lemma compare_some (x y : float) :
  is_nan x = false -> is_nan y = false -> exists c, SFcompare x y = Some c.
Proof.
  destruct x, y; simpl; intros Hx Hy; try discriminate; eauto.
Qed.

Lemma compare_antisym (x y : float) :
  SFcompare y x = option_map CompOpp (SFcompare x y).
Proof.
  destruct x as [sx|sx| |sx mx ex], y as [sy|sy| |sy my ey]; simpl;
    try reflexivity;
    try (destruct sx; reflexivity);
    try (destruct sy; reflexivity);
    try (destruct sx, sy; reflexivity).
  rewrite (Z.compare_antisym ex ey).
  change (Pos.compare_cont Eq my mx) with (Pos.compare my mx).
  change (Pos.compare_cont Eq mx my) with (Pos.compare mx my).
  rewrite (Pos.compare_antisym mx my).
  destruct sx, sy; simpl; try reflexivity;
    destruct (ex ?= ey); simpl; try reflexivity;
    destruct (mx ?= my)%positive; reflexivity.
Qed.

(** On non-NaN values [<] is the negation of [>=]. *)
Lemma flt_not_fge (x y : float) :
  is_nan x = false -> is_nan y = false -> flt x y = negb (fge x y).
Proof.
  intros Hx Hy. unfold flt, fge, SFltb, SFleb.
  rewrite (compare_antisym x y).
  destruct (compare_some x y Hx Hy) as [c ->]. destruct c; reflexivity.
Qed.

Lemma fgt_not_fle (x y : float) :
  is_nan x = false -> is_nan y = false -> fgt x y = negb (fle x y).
Proof.
  intros Hx Hy. unfold fgt, fle. apply (flt_not_fge y x Hy Hx).
Qed.

Lemma flt_nan_l (y : float) : flt S754_nan y = false.
Proof. reflexivity. Qed.

Lemma flt_nan_r (x : float) : flt x S754_nan = false.
Proof. unfold flt, SFltb. rewrite compare_nan_r. reflexivity. Qed.

Lemma fle_not_nan (x y : float) :
  fle x y = true -> is_nan x = false /\ is_nan y = false.
Proof.
  unfold fle, SFleb. destruct x, y; simpl; intros H; try discriminate; auto.
Qed.

Ltac cmp_cases :=
  repeat match goal with
  | H : context [Pos.compare_cont Eq ?a ?b] |- _ =>
      change (Pos.compare_cont Eq a b) with (Pos.compare a b) in H
  | |- context [Pos.compare_cont Eq ?a ?b] =>
      change (Pos.compare_cont Eq a b) with (Pos.compare a b)
  | H : context [Z.compare ?a ?b] |- _ =>
      destruct (Z.compare_spec a b); simpl in H
  | H : context [Pos.compare ?a ?b] |- _ =>
      destruct (Pos.compare_spec a b); simpl in H
  | |- context [Z.compare ?a ?b] => destruct (Z.compare_spec a b); simpl
  | |- context [Pos.compare ?a ?b] => destruct (Pos.compare_spec a b); simpl
  end.

Lemma fle_trans (x y z : float) :
  fle x y = true -> fle y z = true -> fle x z = true.
Proof.
  unfold fle, SFleb.
  destruct x as [sx|sx| |sx mx ex], y as [sy|sy| |sy my ey],
           z as [sz|sz| |sz mz ez]; simpl;
    try discriminate; try reflexivity;
    try (destruct sx; simpl; try discriminate; try reflexivity);
    try (destruct sy; simpl; try discriminate; try reflexivity);
    try (destruct sz; simpl; try discriminate; try reflexivity).
  all: intros H1 H2; cmp_cases; subst;
    try discriminate; try reflexivity; lia.
Qed.

Lemma flt_fle (x y : float) : flt x y = true -> fle x y = true.
Proof.
  unfold flt, fle, SFltb, SFleb.
  destruct (SFcompare x y) as [[ | | ]|]; intros H; try discriminate; reflexivity.
Qed.

Lemma fle_refl (x : float) : is_nan x = false -> fle x x = true.
Proof.
  unfold fle, SFleb.
  destruct x as [s|s| |s m e]; simpl; intros H; try discriminate;
    try reflexivity; try (destruct s; reflexivity).
  rewrite Z.compare_refl.
  change (Pos.compare_cont Eq m m) with (Pos.compare m m).
  rewrite Pos.compare_refl. destruct s; reflexivity.
Qed.

End Float64.

(** numpy's [float32], the type of the numbers the detector returns. *)
Module Float32.
Definition prec : Z := 24.
Definition emax : Z := 128.

Definition fsub : spec_float -> spec_float -> spec_float := SFsub prec emax.
Definition fmul : spec_float -> spec_float -> spec_float := SFmul prec emax.

(** [float(x)], and what a [FloatField] stores: the binary64 of the same
    value. *)
Definition to_float64 (x : spec_float) : Float64.float :=
  match x with
  | S754_finite s m e =>
      binary_normalize Float64.prec Float64.emax
        (if s then Z.neg m else Z.pos m) e s
  | _ => x
  end.
End Float32.

(* ===================================================================== *)
(** * Python lists *)
(* ===================================================================== *)

Module Py.

Section Sort.
Context {A : Type}.
(** [key_lt a b]: the sort key of [a] compares strictly below that of [b]. *)
Variable key_lt : A -> A -> bool.

(** [l.sort(key=..., reverse=True)]: descending and stable, elements with
    equal keys keep their order. *)
Fixpoint insert_desc (x : A) (l : list A) : list A :=
  match l with
  | [] => [x]
  | y :: l' => if key_lt x y then y :: insert_desc x l' else x :: l
  end.

Definition sort_desc (l : list A) : list A := fold_right insert_desc [] l.
End Sort.

(** The slice [l[:k]]; a negative [k] counts from the end. *)
Definition slice_to {A : Type} (l : list A) (k : Z) : list A :=
  if 0 <=? k then firstn (Z.to_nat k) l
  else firstn (length l - Z.to_nat (- k)) l.

Section SortFacts.
Context {A : Type}.
Variable key_lt : A -> A -> bool.
(** [ge a b]: [a] may stand before [b] in a descending list;
    [ok] singles out the elements whose keys are comparable. *)
Variable ge : A -> A -> Prop.
Variable ok : A -> Prop.
Hypothesis lt_ge : forall a b, ok a -> ok b -> key_lt a b = true -> ge b a.
Hypothesis nlt_ge : forall a b, ok a -> ok b -> key_lt a b = false -> ge a b.
Hypothesis ge_trans : forall a b c, ge a b -> ge b c -> ge a c.

Lemma insert_desc_perm (x : A) (l : list A) :
  Permutation (x :: l) (insert_desc key_lt x l).
Proof.
  induction l as [|y l IH]; simpl.
  - apply Permutation_refl.
  - destruct (key_lt x y).
    + eapply perm_trans; [apply perm_swap|]. now apply perm_skip.
    + apply Permutation_refl.
Qed.

Lemma sort_desc_perm (l : list A) : Permutation l (sort_desc key_lt l).
Proof.
  induction l as [|x l IH]; simpl.
  - apply perm_nil.
  - eapply perm_trans; [apply perm_skip, IH|]. apply insert_desc_perm.
Qed.

Lemma sort_desc_length (l : list A) : length (sort_desc key_lt l) = length l.
Proof. symmetry. apply Permutation_length, sort_desc_perm. Qed.

Lemma insert_desc_sorted (x : A) (l : list A) :
  ok x -> Forall ok l -> StronglySorted ge l ->
  StronglySorted ge (insert_desc key_lt x l).
Proof.
  intros Hx Hl Hs. induction Hs as [|y l Hs IH Hy]; simpl.
  - constructor; constructor.
  - inversion Hl as [|? ? Hoky Hokl]; subst.
    destruct (key_lt x y) eqn:E.
    + constructor; [auto|].
      eapply Permutation_Forall; [apply insert_desc_perm|].
      constructor; [now apply lt_ge|exact Hy].
    + assert (Hxy : ge x y) by now apply nlt_ge.
      constructor; [constructor; assumption|].
      constructor; [exact Hxy|].
      eapply Forall_impl; [|exact Hy]. intros z Hz. now apply ge_trans with y.
Qed.

Lemma sort_desc_sorted (l : list A) :
  Forall ok l -> StronglySorted ge (sort_desc key_lt l).
Proof.
  induction 1 as [|x l Hx Hl IH]; simpl.
  - constructor.
  - apply insert_desc_sorted; auto.
    eapply Permutation_Forall; [apply sort_desc_perm|exact Hl].
Qed.
End SortFacts.

Lemma slice_to_nonneg {A : Type} (l : list A) (k : Z) :
  0 <= k -> slice_to l k = firstn (Z.to_nat k) l.
Proof. intros H. unfold slice_to. now rewrite (proj2 (Z.leb_le 0 k) H). Qed.

End Py.

(* ===================================================================== *)
(** * pets/models.py *)
(* ===================================================================== *)

Definition uuid : Type := N.

(** A [datetime], in microseconds. *)
Definition datetime : Type := Z.

(** [timedelta(minutes=n)] *)
Definition minutes (n : Z) : Z := n * 60 * 1000000.

Module Pet.
Inductive registration_status_t := pending | processing | completed | failed.

Record t := {
  id : uuid;
  owner : uuid;
  name : String.string;
  registration_status : registration_status_t
}.

Definition set_registration_status (self : t) (v : registration_status_t) : t :=
  {| id := id self; owner := owner self; name := name self;
     registration_status := v |}.
End Pet.

Module PetRegistrationSession.
Inductive status_t := active | completed | expired | failed.

Record t := {
  id : uuid;
  pet : uuid;
  session_token : String.string;
  status : status_t;
  start_time : datetime;
  end_time : option datetime;
  expected_images_count : Z;
  actual_images_count : Z
}.

Definition status_eqb (a b : status_t) : bool :=
  match a, b with
  | active, active | completed, completed
  | expired, expired | failed, failed => true
  | _, _ => false
  end.

Definition set_status (self : t) (v : status_t) : t :=
  {| id := id self; pet := pet self; session_token := session_token self;
     status := v; start_time := start_time self; end_time := end_time self;
     expected_images_count := expected_images_count self;
     actual_images_count := actual_images_count self |}.

Definition set_actual_images_count (self : t) (v : Z) : t :=
  {| id := id self; pet := pet self; session_token := session_token self;
     status := status self; start_time := start_time self;
     end_time := end_time self;
     expected_images_count := expected_images_count self;
     actual_images_count := v |}.

(** [is_expired]: "Check if session is expired (after 30 minutes)". *)
Definition is_expired (now : datetime) (self : t) : bool :=
  match status self with
  | active =>
      let expiry_time := start_time self + minutes 30 in
      expiry_time <? now
  | _ => false
  end.
End PetRegistrationSession.

Module PetImage.
Inductive quality_status_t := pending | good | poor | rejected.

Record t := {
  id : uuid;
  pet : uuid;
  session : option uuid;
  image : String.string;
  quality_status : quality_status_t;
  sequence_number : Z;
  detected_pet_type : option String.string;
  detection_confidence : option Float64.float;
  bounding_box : option (list Float64.float);
  blur_score : option Float64.float;
  brightness_score : option Float64.float;
  contrast_score : option Float64.float
}.
End PetImage.

(* ===================================================================== *)
(** * face_recognition/models.py *)
(* ===================================================================== *)

Definition vector : Type := list Float64.float.

Module FaceEmbedding.
Inductive status_t := pending | processing | completed | failed.

Record t := {
  pet : option uuid;
  embedding_vector : vector;
  embedding_model : String.string;
  vector_dimension : Z;
  status : status_t;
  source_images_count : Z
}.

Definition is_completed (self : t) : bool :=
  match status self with completed => true | _ => false end.

Definition set_embedding_vector (self : t) (v : vector) : t :=
  {| pet := pet self; embedding_vector := v;
     embedding_model := embedding_model self;
     vector_dimension := Z.of_nat (length v);
     status := status self;
     source_images_count := source_images_count self |}.

Definition get_embedding_vector (self : t) : vector := embedding_vector self.
End FaceEmbedding.

Module FaceRecognitionResult.
Import Float64.

Inductive confidence_level_t := eagle_trail | lobo_trail | no_match.

Record t := {
  search_embedding : FaceEmbedding.t;
  matched_pet : option uuid;
  matched_embedding : option FaceEmbedding.t;
  similarity_score : float;
  confidence_level : confidence_level_t;
  rank : Z
}.

(** "Determine confidence level based on similarity score" *)
Definition determine_confidence_level (similarity_score : float)
  : confidence_level_t :=
  if fge similarity_score f0_9 then eagle_trail
  else if fge similarity_score f0_8 then lobo_trail
  else no_match.
End FaceRecognitionResult.

Module FaceDetection.
Record t := {
  image : uuid;
  detected_class : String.string;
  confidence : Float64.float;
  bounding_box : list Float64.float;
  model_version : String.string;
  face_area : Float64.float
}.
End FaceDetection.

(* ===================================================================== *)
(** * face_recognition/services.py *)
(* ===================================================================== *)

Module Services.
Import Float64.

(** ** numpy and the builtins it is combined with *)

(** The running sum of products that [np.dot] computes on two 1-D arrays. *)
Definition sum_products (a b : vector) : float :=
  fold_left (fun acc p => fadd acc (fmul (fst p) (snd p))) (combine a b) f0.

(** [np.dot(a, b)]; [None] stands for the [ValueError] raised when the
    shapes are not aligned. *)
Definition np_dot (a b : vector) : option float :=
  if Nat.eqb (length a) (length b) then Some (sum_products a b) else None.

(** [np.linalg.norm(v)]: the square root of [v.dot(v)]. *)
Definition np_linalg_norm (v : vector) : float := fsqrt (sum_products v v).

(** [v / n], element by element; numpy signals a division by zero with a
    warning and goes on with the IEEE result. *)
Definition np_divide (v : vector) (n : float) : vector :=
  map (fun x => fdiv x n) v.

(** Adding two rows of equal length. *)
Fixpoint vec_add (a b : vector) : vector :=
  match a, b with
  | x :: a', y :: b' => fadd x y :: vec_add a' b'
  | _, _ => []
  end.

(** [np.mean(rows, axis=0)]: the rows are added up one after the other and
    the sum is divided by their number; [None] stands for the exception
    raised on rows of different lengths (and on no row at all, where the
    caller's [len] of the result raises). *)
Definition np_mean_axis0 (rows : list vector) : option vector :=
  match rows with
  | [] => None
  | r :: rs =>
      if forallb (fun v => Nat.eqb (length v) (length r)) rs
      then Some (np_divide (fold_left vec_add rs r)
                           (of_Z (Z.of_nat (length rows))))
      else None
  end.

(** The builtins [min(a, b)] and [max(a, b)]: the first argument is kept
    unless the second compares strictly below (above) it. *)
Definition py_min (a b : float) : float := if flt b a then b else a.
Definition py_max (a b : float) : float := if fgt b a then b else a.

(** [s.endswith(suffix)] *)
Definition endswith (s suffix : String.string) : bool :=
  let n := String.length s in
  let m := String.length suffix in
  Nat.leb m n && String.eqb (String.substring (n - m) m s) suffix.

(** ** [calculate_cosine_similarity]; the [except] branch returns [0.0]. *)
Definition calculate_cosine_similarity (vec1 vec2 : vector) : float :=
  let vec1_norm := np_divide vec1 (np_linalg_norm vec1) in
  let vec2_norm := np_divide vec2 (np_linalg_norm vec2) in
  match np_dot vec1_norm vec2_norm with
  | Some similarity => py_max f0 (py_min f1 similarity)
  | None => f0
  end.

(** ** [FaceMatchingService.find_similar_pets] *)

(** The dictionaries collected in [similarities]. *)
Module Match.
Record t := {
  pet : option uuid;
  embedding : FaceEmbedding.t;
  similarity : float;
  confidence_level : FaceRecognitionResult.confidence_level_t
}.
End Match.

Definition similarity_lt (a b : Match.t) : bool :=
  flt (Match.similarity a) (Match.similarity b).

(** [face_embeddings] lists the rows of [FaceEmbedding.objects] in the
    order the queryset yields them.  No step of the loop body can raise
    ([calculate_cosine_similarity] catches what numpy raises), so no row is
    skipped. *)
Definition find_similar_pets (face_embeddings : list FaceEmbedding.t)
    (query_embedding : vector) (top_k : Z) : list Match.t :=
  let all_embeddings := filter FaceEmbedding.is_completed face_embeddings in
  let similarities :=
    fold_left
      (fun similarities face_embedding =>
         let stored_embedding :=
           FaceEmbedding.get_embedding_vector face_embedding in
         let similarity :=
           calculate_cosine_similarity query_embedding stored_embedding in
         similarities ++
           [ {| Match.pet := FaceEmbedding.pet face_embedding;
                Match.embedding := face_embedding;
                Match.similarity := similarity;
                Match.confidence_level :=
                  FaceRecognitionResult.determine_confidence_level similarity |} ])
      all_embeddings [] in
  let similarities := Py.sort_desc similarity_lt similarities in
  Py.slice_to similarities top_k.

(** ** The detector and the embedding model *)

Module Box.
(** One box of a YOLO result: [xyxy], [conf], [cls].  The coordinates and
    the confidence are [float32] values; [float(...)] turns them into
    Python floats of the same value. *)
Record t := { x1 : float; y1 : float; x2 : float; y2 : float;
              conf : float; cls : Z }.
End Box.

Module Detection.
(** The dictionaries [detect_pet_faces] returns. *)
Record t := {
  class : String.string;
  confidence : float;
  bounding_box : list float;
  area : float
}.
End Detection.

Definition class_names (class_id : Z) : String.string :=
  match class_id with
  | 0 => "cat"
  | 1 => "cat_face"
  | 2 => "dog"
  | 3 => "dog_face"
  | _ => "unknown"
  end%string.

Definition confidence_lt (a b : Detection.t) : bool :=
  flt (Detection.confidence a) (Detection.confidence b).

Definition is_face_detection (d : Detection.t) : bool :=
  endswith (Detection.class d) "_face"%string.

Section Models.
(** What the cropped face is made of is the business of OpenCV. *)
Variable crop : Type.
(** The YOLO model run on the file at a path; [None] when it raises or
    no model is loaded. *)
Variable yolo_model : String.string -> option (list Box.t).
(** [YOLODetectionService.extract_face_crop], a call into OpenCV. *)
Variable extract_face_crop : String.string -> list float -> option crop.
(** [FaceEmbeddingService.generate_embedding], a call into the model. *)
Variable generate_embedding : crop -> option vector.
(** [settings.FACE_EMBEDDING_MODEL] *)
Variable FACE_EMBEDDING_MODEL : String.string.

(** [YOLODetectionService.detect_pet_faces]; the area is the product of
    two [float32] differences and stays a [float32]. *)
Definition detect_pet_faces (image_path : String.string) : list Detection.t :=
  match yolo_model image_path with
  | None => []
  | Some boxes =>
      let detections :=
        map (fun box =>
               {| Detection.class := class_names (Box.cls box);
                  Detection.confidence := Box.conf box;
                  Detection.bounding_box :=
                    [Box.x1 box; Box.y1 box; Box.x2 box; Box.y2 box];
                  Detection.area :=
                    Float32.fmul (Float32.fsub (Box.x2 box) (Box.x1 box))
                                 (Float32.fsub (Box.y2 box) (Box.y1 box)) |})
            boxes in
      Py.sort_desc confidence_lt detections
  end.

(** The body of the loop of [generate_pet_embeddings], on the state
    [(all_embeddings, successful_images)] and the [FaceDetection] table.
    The three services report a failure by an empty or missing result;
    [continue] leaves the state as it is. *)
Definition process_pet_image
    (st : list vector * Z * list FaceDetection.t) (pet_image : PetImage.t)
  : list vector * Z * list FaceDetection.t :=
  let '(all_embeddings, successful_images, face_detection_table) := st in
  let image_path := PetImage.image pet_image in
  let detections := detect_pet_faces image_path in
  let face_detections := filter is_face_detection detections in
  match face_detections with
  | [] => st
  | best_detection :: _ =>
      let face_detection :=
        {| FaceDetection.image := PetImage.id pet_image;
           FaceDetection.detected_class := Detection.class best_detection;
           FaceDetection.confidence := Detection.confidence best_detection;
           FaceDetection.bounding_box := Detection.bounding_box best_detection;
           FaceDetection.model_version := "yolov8l"%string;
           FaceDetection.face_area :=
             Float32.to_float64 (Detection.area best_detection) |} in
      let face_detection_table := face_detection_table ++ [face_detection] in
      match extract_face_crop image_path
              (Detection.bounding_box best_detection) with
      | None => (all_embeddings, successful_images, face_detection_table)
      | Some face_crop =>
          match generate_embedding face_crop with
          | Some embedding =>
              (all_embeddings ++ [embedding], successful_images + 1,
               face_detection_table)
          | None => (all_embeddings, successful_images, face_detection_table)
          end
      end
  end.

(** The two tables [generate_pet_embeddings] writes to. *)
Record tables := {
  face_detection_table : list FaceDetection.t;
  face_embedding_table : list FaceEmbedding.t
}.

(** [FaceEmbedding.objects.create(...)]: the object with the given columns
    and the table with its row.  The column [embedding_vector] is a
    [JSONField] that is neither nullable nor has a default, so a call that
    does not give it is refused with an [IntegrityError], here [None]. *)
Definition FaceEmbedding_objects_create (table : list FaceEmbedding.t)
    (pet : option uuid) (embedding_vector : option vector)
    (embedding_model : String.string) (vector_dimension : Z)
    (status : FaceEmbedding.status_t) (source_images_count : Z)
  : option (FaceEmbedding.t * list FaceEmbedding.t) :=
  match embedding_vector with
  | None => None
  | Some v =>
      let face_embedding :=
        {| FaceEmbedding.pet := pet;
           FaceEmbedding.embedding_vector := v;
           FaceEmbedding.embedding_model := embedding_model;
           FaceEmbedding.vector_dimension := vector_dimension;
           FaceEmbedding.status := status;
           FaceEmbedding.source_images_count := source_images_count |} in
      Some (face_embedding, table ++ [face_embedding])
  end.

(** [FaceEmbeddingService.generate_pet_embeddings].  The template is
    created without its [embedding_vector], which is set and saved only
    afterwards; what the create raises is caught by the [except] of the
    function, which returns [None].  The [FaceDetection] rows written by
    then stay. *)
Definition generate_pet_embeddings (db : tables) (pet_images : list PetImage.t)
  : option FaceEmbedding.t * tables :=
  match pet_images with
  | [] => (None, db)
  | first :: _ =>
      let pet := PetImage.pet first in
      let '(all_embeddings, successful_images, detections) :=
        fold_left process_pet_image pet_images
                  ([], 0, face_detection_table db) in
      let db := {| face_detection_table := detections;
                   face_embedding_table := face_embedding_table db |} in
      match all_embeddings with
      | [] => (None, db)
      | _ :: _ =>
          match np_mean_axis0 all_embeddings with
          | None => (None, db)
          | Some final_embedding =>
              match FaceEmbedding_objects_create (face_embedding_table db)
                      (Some pet) None FACE_EMBEDDING_MODEL
                      (Z.of_nat (length final_embedding))
                      FaceEmbedding.completed successful_images with
              | None => (None, db)
              | Some (face_embedding, table) =>
                  let face_embedding :=
                    FaceEmbedding.set_embedding_vector face_embedding
                      final_embedding in
                  (* [face_embedding.save()] rewrites the row just added *)
                  (Some face_embedding,
                   {| face_detection_table := detections;
                      face_embedding_table :=
                        removelast table ++ [face_embedding] |})
              end
          end
      end
  end.

(** [process_search_image], on the temporary copy of the uploaded file. *)
Definition process_search_image (image_file : String.string) : option vector :=
  let detections := detect_pet_faces image_file in
  let face_detections := filter is_face_detection detections in
  match face_detections with
  | [] => None
  | best_detection :: _ =>
      match extract_face_crop image_file
              (Detection.bounding_box best_detection) with
      | None => None
      | Some face_crop => generate_embedding face_crop
      end
  end.
End Models.

End Services.

(* ===================================================================== *)
(** * Properties of face_recognition *)
(* ===================================================================== *)

Module FaceRecognitionFacts.
Import Float64 Services.
Import FaceRecognitionResult.

(** ** Confidence tiers *)

Lemma f0_8_le_f0_9 : fle f0_8 f0_9 = true.
Proof. reflexivity. Qed.

Lemma fge_f0_9_f0_8 (s : float) : fge s f0_9 = true -> fge s f0_8 = true.
Proof. unfold fge. intros H. exact (fle_trans _ _ _ f0_8_le_f0_9 H). Qed.

(** C1.  For a similarity score [s] (a number, so not NaN) the tier is
    [eagle_trail] iff [s >= 0.90], [lobo_trail] iff [0.80 <= s < 0.90] and
    [no_match] iff [s < 0.80]; the scores 0.90 and 0.80 themselves fall in
    [eagle_trail] and [lobo_trail]. *)
Theorem determine_confidence_level_tiers (s : float) :
  is_nan s = false ->
  (determine_confidence_level s = eagle_trail <-> fge s f0_9 = true) /\
  (determine_confidence_level s = lobo_trail <->
     fle f0_8 s = true /\ flt s f0_9 = true) /\
  (determine_confidence_level s = no_match <-> flt s f0_8 = true) /\
  determine_confidence_level f0_9 = eagle_trail /\
  determine_confidence_level f0_8 = lobo_trail.
Proof.
  intros Hs.
  assert (H9 : flt s f0_9 = negb (fge s f0_9)) by now apply flt_not_fge.
  assert (H8 : flt s f0_8 = negb (fge s f0_8)) by now apply flt_not_fge.
  pose proof (fge_f0_9_f0_8 s) as Hmono.
  change (fle f0_8 s) with (fge s f0_8).
  rewrite H9, H8. unfold determine_confidence_level.
  destruct (fge s f0_9) eqn:E9.
  - rewrite (Hmono eq_refl). simpl.
    repeat split; try reflexivity; try discriminate;
      try (intros [T _]; discriminate); try (intros [_ T]; discriminate).
  - destruct (fge s f0_8) eqn:E8; simpl;
      repeat split; try reflexivity; try discriminate;
      try (intros [T _]; discriminate); try (intros [_ T]; discriminate).
Qed.

Lemma determine_confidence_level_tiers_witness :
  let s := of_ratio 8999 10000 in
  is_nan s = false /\
  ((determine_confidence_level s = eagle_trail <-> fge s f0_9 = true) /\
   (determine_confidence_level s = lobo_trail <->
      fle f0_8 s = true /\ flt s f0_9 = true) /\
   (determine_confidence_level s = no_match <-> flt s f0_8 = true) /\
   determine_confidence_level f0_9 = eagle_trail /\
   determine_confidence_level f0_8 = lobo_trail).
Proof.
  intros s. split; [reflexivity|].
  apply (determine_confidence_level_tiers s). reflexivity.
Defined.

(** The boundary scores listed with the thresholds. *)
Example tier_boundaries :
  determine_confidence_level (of_ratio 90 100) = eagle_trail /\
  determine_confidence_level (of_ratio 8999 10000) = lobo_trail /\
  determine_confidence_level (of_ratio 80 100) = lobo_trail /\
  determine_confidence_level (of_ratio 7999 10000) = no_match.
Proof. vm_compute. repeat split. Qed.

(** A score that is not a number falls through to the last branch. *)
Example tier_of_nan : determine_confidence_level S754_nan = no_match.
Proof. reflexivity. Qed.

(** ** Cosine similarity *)

(** Whatever the vectors, the function returns a number between 0 and 1:
    nothing is raised and NaN is never returned. *)
Lemma calculate_cosine_similarity_range (vec1 vec2 : vector) :
  fle f0 (calculate_cosine_similarity vec1 vec2) = true /\
  fle (calculate_cosine_similarity vec1 vec2) f1 = true.
Proof.
  unfold calculate_cosine_similarity.
  destruct (np_dot _ _) as [similarity|]; [|split; reflexivity].
  unfold py_max, py_min.
  destruct (flt similarity f1) eqn:E1.
  - change (fgt similarity f0) with (flt f0 similarity).
    destruct (flt f0 similarity) eqn:E0.
    + split; apply flt_fle; assumption.
    + split; reflexivity.
  - split; reflexivity.
Qed.

Lemma calculate_cosine_similarity_not_nan (vec1 vec2 : vector) :
  is_nan (calculate_cosine_similarity vec1 vec2) = false.
Proof.
  destruct (calculate_cosine_similarity_range vec1 vec2) as [H _].
  now apply fle_not_nan in H.
Qed.

Lemma fmul_zero (a b : float) :
  is_zero a = true -> is_zero b = true -> is_zero (fmul a b) = true.
Proof. destruct a, b; simpl; intros; try discriminate; reflexivity. Qed.

Lemma fadd_zero (a b : float) :
  is_zero a = true -> is_zero b = true -> is_zero (fadd a b) = true.
Proof.
  destruct a as [[|]| | |], b as [[|]| | |]; simpl; intros;
    try discriminate; reflexivity.
Qed.

Lemma sum_products_zero (z : vector) :
  forallb is_zero z = true -> is_zero (sum_products z z) = true.
Proof.
  unfold sum_products. assert (H0 : is_zero f0 = true) by reflexivity.
  revert H0. generalize f0 as acc.
  induction z as [|x z IH]; simpl; intros acc Hacc Hz; [exact Hacc|].
  apply andb_prop in Hz as [Hx Hz].
  apply IH; [|exact Hz]. apply fadd_zero; [exact Hacc|now apply fmul_zero].
Qed.

(** The norm of a vector of zeros is zero ... *)
Lemma np_linalg_norm_zero (z : vector) :
  forallb is_zero z = true -> is_zero (np_linalg_norm z) = true.
Proof.
  intros Hz. unfold np_linalg_norm.
  pose proof (sum_products_zero z Hz) as H.
  destruct (sum_products z z); try discriminate. reflexivity.
Qed.

(** ... and dividing it by its norm yields NaN in every component. *)
Lemma np_divide_zero_by_zero (z : vector) (n : float) :
  forallb is_zero z = true -> is_zero n = true ->
  forallb is_nan (np_divide z n) = true.
Proof.
  intros Hz Hn. induction z as [|x z IH]; simpl in *; [reflexivity|].
  apply andb_prop in Hz as [Hx Hz]. rewrite (IH Hz), andb_true_r.
  destruct x, n; try discriminate; reflexivity.
Qed.

Lemma sum_products_from_nan (l : list (float * float)) :
  fold_left (fun acc p => fadd acc (fmul (fst p) (snd p))) l S754_nan = S754_nan.
Proof. induction l as [|p l IH]; simpl; [reflexivity|exact IH]. Qed.

Lemma sum_products_nan (a b : vector) :
  a <> [] -> length a = length b -> forallb is_nan a = true ->
  sum_products a b = S754_nan.
Proof.
  unfold sum_products.
  destruct a as [|x a], b as [|y b]; simpl; intros Ha Hlen Hnan;
    try congruence; try discriminate.
  apply andb_prop in Hnan as [Hx _].
  destruct x; try discriminate. simpl. apply sum_products_from_nan.
Qed.

(** For a vector of zeros [z] with at least one component, and any vector
    [w] of the same dimension, the function returns 1.0: the NaN produced
    by the division survives the dot product, [min(1, nan)] is [1] and
    [max(0, 1)] is [1]. *)
Lemma calculate_cosine_similarity_zero_vector (z w : vector) :
  z <> [] -> forallb is_zero z = true -> length w = length z ->
  calculate_cosine_similarity z w = f1.
Proof.
  intros Hne Hz Hlen. unfold calculate_cosine_similarity, np_dot.
  assert (Hl : length (np_divide z (np_linalg_norm z)) =
               length (np_divide w (np_linalg_norm w))).
  { unfold np_divide. now rewrite !length_map. }
  rewrite Hl, Nat.eqb_refl.
  rewrite sum_products_nan; [reflexivity| |exact Hl|].
  - destruct z; [congruence|discriminate].
  - apply np_divide_zero_by_zero; [exact Hz|now apply np_linalg_norm_zero].
Qed.

(** C2, at the vectors [0.0] and [1.0]: the first has zero magnitude and
    the function returns 1.0 where 0.0 is promised. *)
Theorem calculate_cosine_similarity_zero_magnitude :
  np_linalg_norm [f0] = f0 /\
  calculate_cosine_similarity [f0] [f1] = f1 /\
  calculate_cosine_similarity [f0] [f1] <> f0.
Proof. vm_compute. repeat split. discriminate. Qed.

(** Where the zero vector does yield 0.0: no component at all, or a
    dimension that differs from the other vector's. *)
Example calculate_cosine_similarity_zero_cases :
  calculate_cosine_similarity [] [] = f0 /\
  calculate_cosine_similarity [f0] [f0; f1] = f0.
Proof. vm_compute. split; reflexivity. Qed.

(** ** Ranking *)

(** The entry [find_similar_pets] computes for one stored template. *)
Definition match_of (query_embedding : vector) (face_embedding : FaceEmbedding.t)
  : Match.t :=
  let similarity :=
    calculate_cosine_similarity query_embedding
      (FaceEmbedding.embedding_vector face_embedding) in
  {| Match.pet := FaceEmbedding.pet face_embedding;
     Match.embedding := face_embedding;
     Match.similarity := similarity;
     Match.confidence_level := determine_confidence_level similarity |}.

(** [a] may stand before [b]: its similarity is at least that of [b]. *)
Definition similarity_ge (a b : Match.t) : Prop :=
  fge (Match.similarity a) (Match.similarity b) = true.

Lemma fold_left_append_map {A B : Type} (f : A -> B) (l : list A) (acc : list B) :
  fold_left (fun acc x => acc ++ [f x]) l acc = acc ++ map f l.
Proof.
  revert acc. induction l as [|x l IH]; intros acc; simpl.
  - now rewrite app_nil_r.
  - rewrite IH, <- app_assoc. reflexivity.
Qed.

Lemma find_similar_pets_unfold (face_embeddings : list FaceEmbedding.t)
    (query_embedding : vector) (top_k : Z) :
  find_similar_pets face_embeddings query_embedding top_k =
  Py.slice_to
    (Py.sort_desc similarity_lt
       (map (match_of query_embedding)
            (filter FaceEmbedding.is_completed face_embeddings)))
    top_k.
Proof.
  unfold find_similar_pets.
  rewrite (fold_left_append_map (match_of query_embedding)). reflexivity.
Qed.

Lemma similarities_sorted (query_embedding : vector) (l : list FaceEmbedding.t) :
  StronglySorted similarity_ge
    (Py.sort_desc similarity_lt (map (match_of query_embedding) l)).
Proof.
  apply Py.sort_desc_sorted
    with (ok := fun m => is_nan (Match.similarity m) = false).
  - intros a b _ _ H. unfold similarity_ge, fge. now apply flt_fle.
  - intros a b Ha Hb H. unfold similarity_ge.
    unfold similarity_lt in H. rewrite (flt_not_fge _ _ Ha Hb) in H.
    now apply negb_false_iff in H.
  - intros a b c Hab Hbc. unfold similarity_ge, fge in *.
    exact (fle_trans _ _ _ Hbc Hab).
  - apply Forall_forall. intros m Hm. apply in_map_iff in Hm as [e [<- _]].
    apply calculate_cosine_similarity_not_nan.
Qed.

(** C3.  With a non-negative [top_k], the result is the first [top_k]
    entries of a list [similarities] that holds one entry for each stored
    template with status [completed] and for no other, each with its
    cosine similarity to the query and the tier of that similarity, and
    that is sorted by descending similarity; so it has [top_k] entries, or
    as many as there are completed templates when these are fewer. *)
Theorem find_similar_pets_ranked (face_embeddings : list FaceEmbedding.t)
    (query_embedding : vector) (top_k : Z) :
  0 <= top_k ->
  exists similarities : list Match.t,
    Permutation similarities
      (map (match_of query_embedding)
           (filter FaceEmbedding.is_completed face_embeddings)) /\
    StronglySorted similarity_ge similarities /\
    find_similar_pets face_embeddings query_embedding top_k =
      firstn (Z.to_nat top_k) similarities /\
    length (find_similar_pets face_embeddings query_embedding top_k) =
      Nat.min (Z.to_nat top_k)
              (length (filter FaceEmbedding.is_completed face_embeddings)).
Proof.
  intros Hk.
  set (completed := filter FaceEmbedding.is_completed face_embeddings).
  exists (Py.sort_desc similarity_lt (map (match_of query_embedding) completed)).
  assert (Hperm : Permutation
            (Py.sort_desc similarity_lt (map (match_of query_embedding) completed))
            (map (match_of query_embedding) completed)).
  { apply Permutation_sym, Py.sort_desc_perm. }
  assert (Heq : find_similar_pets face_embeddings query_embedding top_k =
                firstn (Z.to_nat top_k)
                  (Py.sort_desc similarity_lt
                     (map (match_of query_embedding) completed))).
  { rewrite find_similar_pets_unfold. now apply Py.slice_to_nonneg. }
  repeat split.
  - exact Hperm.
  - apply similarities_sorted.
  - exact Heq.
  - rewrite Heq, length_firstn, (Permutation_length Hperm), length_map.
    reflexivity.
Qed.

(** Five completed templates and one that is still pending, ranked
    against the query [(1, 0)] with [top_k = 3]. *)
Definition sample_template (pet : uuid) (x y : Z) (st : FaceEmbedding.status_t)
  : FaceEmbedding.t :=
  {| FaceEmbedding.pet := Some pet;
     FaceEmbedding.embedding_vector := [of_Z x; of_Z y];
     FaceEmbedding.embedding_model := "clip-ViT-B-32"%string;
     FaceEmbedding.vector_dimension := 2;
     FaceEmbedding.status := st;
     FaceEmbedding.source_images_count := 1 |}.

Definition sample_corpus : list FaceEmbedding.t :=
  [ sample_template 1%N 1 1 FaceEmbedding.completed;
    sample_template 2%N 0 1 FaceEmbedding.completed;
    sample_template 3%N 1 0 FaceEmbedding.pending;
    sample_template 4%N 3 1 FaceEmbedding.completed;
    sample_template 5%N 1 3 FaceEmbedding.completed;
    sample_template 6%N 1 0 FaceEmbedding.completed ].

Lemma find_similar_pets_ranked_witness :
  0 <= 3 /\
  exists similarities : list Match.t,
    Permutation similarities
      (map (match_of [f1; f0])
           (filter FaceEmbedding.is_completed sample_corpus)) /\
    StronglySorted similarity_ge similarities /\
    find_similar_pets sample_corpus [f1; f0] 3 =
      firstn (Z.to_nat 3) similarities /\
    length (find_similar_pets sample_corpus [f1; f0] 3) =
      Nat.min (Z.to_nat 3)
              (length (filter FaceEmbedding.is_completed sample_corpus)).
Proof.
  split; [lia|]. apply (find_similar_pets_ranked sample_corpus [f1; f0] 3). lia.
Defined.

Example find_similar_pets_top3_of_5 :
  length (filter FaceEmbedding.is_completed sample_corpus) = 5%nat /\
  map (fun m => (Match.pet m, Match.confidence_level m))
      (find_similar_pets sample_corpus [f1; f0] 3) =
    [(Some 6%N, eagle_trail); (Some 4%N, eagle_trail); (Some 1%N, no_match)].
Proof. vm_compute. split; reflexivity. Qed.

(** ** Detections *)

(** The detections come sorted by descending confidence (confidences are
    numbers), so the first one, and the first face among them, is a best
    one. *)
Lemma detect_pet_faces_sorted
    (yolo_model : String.string -> option (list Box.t))
    (image_path : String.string) :
  (forall boxes box, yolo_model image_path = Some boxes -> In box boxes ->
                     is_nan (Box.conf box) = false) ->
  StronglySorted
    (fun a b => fge (Detection.confidence a) (Detection.confidence b) = true)
    (detect_pet_faces yolo_model image_path).
Proof.
  intros Hconf. unfold detect_pet_faces.
  destruct (yolo_model image_path) as [boxes|]; [|constructor].
  apply Py.sort_desc_sorted
    with (ok := fun d => is_nan (Detection.confidence d) = false).
  - intros a b _ _ H. unfold fge. now apply flt_fle.
  - intros a b Ha Hb H. unfold confidence_lt in H.
    rewrite (flt_not_fge _ _ Ha Hb) in H. now apply negb_false_iff in H.
  - intros a b c Hab Hbc. unfold fge in *. exact (fle_trans _ _ _ Hbc Hab).
  - apply Forall_forall. intros d Hd. apply in_map_iff in Hd as [box [<- Hb]].
    simpl. now apply (Hconf boxes).
Qed.

(** ** Template building *)

Section TemplateFacts.
Variable crop : Type.
Variable yolo_model : String.string -> option (list Box.t).
Variable extract_face_crop : String.string -> list float -> option crop.
Variable generate_embedding : crop -> option vector.
Variable FACE_EMBEDDING_MODEL : String.string.

(** The embedding model has one output dimension. *)
Variable dim : nat.
Hypothesis generate_embedding_dim :
  forall c v, generate_embedding c = Some v -> length v = dim.

(** The embedding one image yields: the best face detection, cropped and
    embedded, as [process_search_image] does it for a search image. *)
Definition image_embedding (pet_image : PetImage.t) : option vector :=
  process_search_image crop yolo_model extract_face_crop generate_embedding
    (PetImage.image pet_image).

(** The per-image vectors of the images that yield one, in order. *)
Definition successful_embeddings (pet_images : list PetImage.t) : list vector :=
  flat_map (fun i => match image_embedding i with
                     | Some v => [v]
                     | None => []
                     end) pet_images.

(** The images that contribute a vector. *)
Definition contributing (pet_images : list PetImage.t) : list PetImage.t :=
  filter (fun i => match image_embedding i with
                   | Some _ => true
                   | None => false
                   end) pet_images.

(** Component [j] of every vector. *)
Definition column (j : nat) (rows : list vector) : list float :=
  map (fun v => nth j v f0) rows.

(** The arithmetic mean of a list of floats, summed from left to right. *)
Definition arithmetic_mean (l : list float) : float :=
  match l with
  | [] => S754_nan
  | x :: xs => fdiv (fold_left fadd xs x) (of_Z (Z.of_nat (length l)))
  end.

Lemma successful_embeddings_length (pet_images : list PetImage.t) :
  length (successful_embeddings pet_images) = length (contributing pet_images).
Proof.
  unfold successful_embeddings, contributing.
  induction pet_images as [|i l IH]; simpl; [reflexivity|].
  destruct (image_embedding i); simpl; now rewrite IH.
Qed.

Lemma successful_embeddings_dim (pet_images : list PetImage.t) :
  Forall (fun v => length v = dim) (successful_embeddings pet_images).
Proof.
  unfold successful_embeddings. apply Forall_forall. intros v Hv.
  apply in_flat_map in Hv as [i [_ Hi]].
  destruct (image_embedding i) as [u|] eqn:E; [|contradiction].
  destruct Hi as [<-|[]]. unfold image_embedding, process_search_image in E.
  destruct (filter _ _) as [|d ?]; [discriminate|].
  destruct (extract_face_crop _ _) as [c|]; [|discriminate].
  now apply generate_embedding_dim in E.
Qed.

(** The loop collects exactly the successful embeddings and counts them. *)
Lemma process_pet_images_loop (pet_images : list PetImage.t)
    (all_embeddings : list vector) (successful_images : Z)
    (detections : list FaceDetection.t) :
  exists detections',
    fold_left (process_pet_image crop yolo_model extract_face_crop
                 generate_embedding)
              pet_images (all_embeddings, successful_images, detections) =
    (all_embeddings ++ successful_embeddings pet_images,
     successful_images + Z.of_nat (length (successful_embeddings pet_images)),
     detections').
Proof.
  revert all_embeddings successful_images detections.
  induction pet_images as [|i l IH]; intros acc n dets.
  - exists dets. simpl. now rewrite app_nil_r, Z.add_0_r.
  - cbn [fold_left]. unfold successful_embeddings. cbn [flat_map].
    fold (successful_embeddings l).
    unfold process_pet_image at 2, image_embedding, process_search_image.
    destruct (filter _ _) as [|d ?].
    + apply IH.
    + destruct (extract_face_crop _ _) as [c|].
      * destruct (generate_embedding c) as [v|].
        -- match goal with
           | |- context [fold_left _ l (?a, ?b, ?c)] =>
               destruct (IH a b c) as [dets' ->]
           end.
           exists dets'. rewrite <- app_assoc. cbn [app length].
           f_equal. f_equal. lia.
        -- apply IH.
      * apply IH.
Qed.

Lemma vec_add_length (a b : vector) :
  length b = length a -> length (vec_add a b) = length a.
Proof.
  revert b. induction a as [|x a IH]; intros [|y b] H; simpl in *;
    try discriminate; [reflexivity|]. f_equal. apply IH. lia.
Qed.

Lemma vec_add_nth (a b : vector) (j : nat) :
  length b = length a -> (j < length a)%nat ->
  nth j (vec_add a b) f0 = fadd (nth j a f0) (nth j b f0).
Proof.
  revert b j. induction a as [|x a IH]; intros [|y b] j H Hj; simpl in *;
    try discriminate; try lia.
  destruct j as [|j]; [reflexivity|]. apply IH; lia.
Qed.

Lemma sum_rows_nth (rs : list vector) (r : vector) (j : nat) :
  Forall (fun v => length v = length r) rs -> (j < length r)%nat ->
  length (fold_left vec_add rs r) = length r /\
  nth j (fold_left vec_add rs r) f0 =
    fold_left fadd (column j rs) (nth j r f0).
Proof.
  revert r. induction rs as [|v rs IH]; intros r Hall Hj; simpl.
  - split; reflexivity.
  - inversion Hall as [|? ? Hv Hrs]; subst.
    assert (Hl : length (vec_add r v) = length r) by now apply vec_add_length.
    destruct (IH (vec_add r v)) as [IH1 IH2].
    + eapply Forall_impl; [|exact Hrs]. simpl. intros u Hu. congruence.
    + lia.
    + split; [congruence|]. rewrite IH2. f_equal. now apply vec_add_nth.
Qed.

(** On rows of one dimension [np.mean(rows, axis=0)] is, component by
    component, the arithmetic mean. *)
Lemma np_mean_axis0_spec (rows : list vector) :
  rows <> [] -> Forall (fun v => length v = dim) rows ->
  exists m, np_mean_axis0 rows = Some m /\ length m = dim /\
    forall j, (j < dim)%nat -> nth j m f0 = arithmetic_mean (column j rows).
Proof.
  destruct rows as [|r rs]; [congruence|]. intros _ Hall.
  inversion Hall as [|? ? Hr Hrs]; subst.
  assert (Hrs' : Forall (fun v => length v = length r) rs).
  { eapply Forall_impl; [|exact Hrs]. simpl. intros; congruence. }
  unfold np_mean_axis0.
  replace (forallb _ rs) with true.
  2:{ symmetry. apply forallb_forall. intros v Hv. apply Nat.eqb_eq.
      now apply (proj1 (Forall_forall _ _) Hrs'). }
  eexists. split; [reflexivity|]. split.
  - unfold np_divide. rewrite length_map.
    assert (Hdim: forall j, (j < length r)%nat ->
              length (fold_left vec_add rs r) = length r)
      by (intros j Hj; now apply (sum_rows_nth rs r j)).
    destruct r as [|x r']; [|apply (Hdim 0%nat); simpl; lia].
    clear - Hrs'. simpl. induction rs as [|v rs IH]; [reflexivity|].
    inversion Hrs' as [|? ? Hv Hrest]; subst. destruct v; [|discriminate].
    simpl. now apply IH.
  - intros j Hj. destruct (sum_rows_nth rs r j Hrs' Hj) as [Hlen Hnth].
    unfold np_divide, arithmetic_mean. unfold column in Hnth |- *.
    cbn [map length]. rewrite <- Hnth, length_map.
    rewrite nth_indep with (d' := fdiv f0 (of_Z (Z.of_nat (S (length rs)))))
      by (rewrite length_map; lia).
    now rewrite (map_nth (fun x => fdiv x (of_Z (Z.of_nat (S (length rs)))))).
Qed.

(** C4.  The code does not build the template the claim describes.
    The vectors of the images are collected and averaged, but the row is
    created without its [embedding_vector], which the database refuses, and
    the function catches the error: it returns none for every list of
    images, also when images yield vectors, and no template is stored. *)
Theorem generate_pet_embeddings_returns_none (db : tables)
    (pet_images : list PetImage.t) :
  let r := generate_pet_embeddings crop yolo_model extract_face_crop
             generate_embedding FACE_EMBEDDING_MODEL db pet_images in
  fst r = None /\
  face_embedding_table (snd r) = face_embedding_table db.
Proof.
  intros r. subst r. unfold generate_pet_embeddings.
  destruct pet_images as [|first rest]; [split; reflexivity|].
  destruct (process_pet_images_loop (first :: rest) [] 0
              (face_detection_table db)) as [dets ->].
  cbn [app]. destruct (successful_embeddings (first :: rest)) as [|v vs];
    [split; reflexivity|].
  destruct (np_mean_axis0 (v :: vs)); split; reflexivity.
Qed.
End TemplateFacts.

(** Three images of one pet: a face in the first and in the third, nothing
    in the second.  The crop is the box and its embedding is the lower
    right corner of the box. *)
Definition sample_box (cls : Z) (conf : float) (x2 y2 : Z) : Box.t :=
  {| Box.x1 := f0; Box.y1 := f0; Box.x2 := of_Z x2; Box.y2 := of_Z y2;
     Box.conf := conf; Box.cls := cls |}.

Definition sample_yolo (image_path : String.string) : option (list Box.t) :=
  if String.eqb image_path "buddy1.jpg"%string then
    Some [sample_box 2 f0_9 8 8; sample_box 3 f0_8 2 4]
  else if String.eqb image_path "buddy2.jpg"%string then Some []
  else if String.eqb image_path "buddy3.jpg"%string then Some [sample_box 3 f0_7 4 8]
  else None.

Definition sample_extract (image_path : String.string) (bounding_box : list float)
  : option (list float) := Some bounding_box.

Definition sample_embed (face_crop : list float) : option vector :=
  match face_crop with
  | [_; _; x2; y2] => Some [x2; y2]
  | _ => None
  end.

Definition sample_image (id : uuid) (path : String.string) : PetImage.t :=
  {| PetImage.id := id; PetImage.pet := 7%N; PetImage.session := None;
     PetImage.image := path; PetImage.quality_status := PetImage.good;
     PetImage.sequence_number := Z.of_N id;
     PetImage.detected_pet_type := None;
     PetImage.detection_confidence := None;
     PetImage.bounding_box := None; PetImage.blur_score := None;
     PetImage.brightness_score := None; PetImage.contrast_score := None |}.

Definition sample_images : list PetImage.t :=
  [ sample_image 1%N "buddy1.jpg"%string; sample_image 2%N "buddy2.jpg"%string;
    sample_image 3%N "buddy3.jpg"%string ].

Definition empty_tables : tables :=
  {| face_detection_table := []; face_embedding_table := [] |}.

Lemma sample_embed_dim (c : list float) (v : vector) :
  sample_embed c = Some v -> length v = 2%nat.
Proof.
  destruct c as [|a [|b [|x [|y [|? ?]]]]]; simpl; intros H;
    try discriminate. now injection H as <-.
Qed.

(** Two of the three images yield a vector and their mean is [(3, 6)],
    the template the claim describes; yet none is returned. *)
Example generate_pet_embeddings_sample :
  successful_embeddings (list float) sample_yolo sample_extract sample_embed
    sample_images = [[of_Z 2; of_Z 4]; [of_Z 4; of_Z 8]] /\
  np_mean_axis0 [[of_Z 2; of_Z 4]; [of_Z 4; of_Z 8]] =
    Some [of_Z 3; of_Z 6] /\
  generate_pet_embeddings (list float) sample_yolo sample_extract
    sample_embed "clip-ViT-B-32"%string empty_tables sample_images =
  (None,
   {| face_detection_table :=
        [ {| FaceDetection.image := 1%N;
             FaceDetection.detected_class := "dog_face"%string;
             FaceDetection.confidence := f0_8;
             FaceDetection.bounding_box := [f0; f0; of_Z 2; of_Z 4];
             FaceDetection.model_version := "yolov8l"%string;
             FaceDetection.face_area := of_Z 8 |};
          {| FaceDetection.image := 3%N;
             FaceDetection.detected_class := "dog_face"%string;
             FaceDetection.confidence := f0_7;
             FaceDetection.bounding_box := [f0; f0; of_Z 4; of_Z 8];
             FaceDetection.model_version := "yolov8l"%string;
             FaceDetection.face_area := of_Z 32 |} ];
      face_embedding_table := [] |}).
Proof. vm_compute. repeat split. Qed.

(** No image, or no image with a face: no template either. *)
Example generate_pet_embeddings_none :
  fst (generate_pet_embeddings (list float) sample_yolo sample_extract
         sample_embed "clip-ViT-B-32"%string empty_tables []) = None /\
  fst (generate_pet_embeddings (list float) sample_yolo sample_extract
         sample_embed "clip-ViT-B-32"%string empty_tables
         [sample_image 2%N "buddy2.jpg"%string]) = None.
Proof. vm_compute. split; reflexivity. Qed.

End FaceRecognitionFacts.

(* ===================================================================== *)
(** * Tables *)
(* ===================================================================== *)

Module Table.

(** The outcome of [Model.objects.get(...)]. *)
Inductive get_result (A : Type) :=
| Found (row : A)
| DoesNotExist
| MultipleObjectsReturned.
Arguments Found {A} row.
Arguments DoesNotExist {A}.
Arguments MultipleObjectsReturned {A}.

Definition get {A : Type} (p : A -> bool) (table : list A) : get_result A :=
  match filter p table with
  | [] => DoesNotExist
  | [row] => Found row
  | _ => MultipleObjectsReturned
  end.

(** [row.save()]: the row with the primary key of [row] becomes [row]. *)
Definition save {A : Type} (pk : A -> uuid) (row : A) (table : list A) : list A :=
  map (fun r => if N.eqb (pk r) (pk row) then row else r) table.

End Table.

(* ===================================================================== *)
(** * pets/serializers.py and pets/views.py *)
(* ===================================================================== *)

Module PetsViews.
Import Float64 Services.

Record pets_db := {
  pets : list Pet.t;
  registration_sessions : list PetRegistrationSession.t;
  pet_images : list PetImage.t
}.

Definition with_sessions (db : pets_db) (l : list PetRegistrationSession.t)
  : pets_db :=
  {| pets := pets db; registration_sessions := l; pet_images := pet_images db |}.

Definition with_pets (db : pets_db) (l : list Pet.t) : pets_db :=
  {| pets := l; registration_sessions := registration_sessions db;
     pet_images := pet_images db |}.

Definition with_images (db : pets_db) (l : list PetImage.t) : pets_db :=
  {| pets := pets db; registration_sessions := registration_sessions db;
     pet_images := l |}.

(** [self.get_object()] of [PetViewSet]: the pet [pk] among the pets of the
    requesting user. *)
Definition get_object (db : pets_db) (user pk : uuid) : option Pet.t :=
  find (fun p => N.eqb (Pet.id p) pk && N.eqb (Pet.owner p) user) (pets db).

(** [Meta.ordering = ['-start_time']] *)
Definition start_time_lt (a b : PetRegistrationSession.t) : bool :=
  PetRegistrationSession.start_time a <? PetRegistrationSession.start_time b.

(** [PetRegistrationSession.objects.filter(pet=pet, status='active')] *)
Definition is_active_session_of (pk : uuid) (s : PetRegistrationSession.t) : bool :=
  N.eqb (PetRegistrationSession.pet s) pk &&
  PetRegistrationSession.status_eqb (PetRegistrationSession.status s)
    PetRegistrationSession.active.

Definition active_sessions_of (db : pets_db) (pk : uuid)
  : list PetRegistrationSession.t :=
  Py.sort_desc start_time_lt
    (filter (is_active_session_of pk) (registration_sessions db)).

Definition save_session := Table.save PetRegistrationSession.id.
Definition save_pet := Table.save Pet.id.

(** The loop of [start_face_id] over [active_sessions]: the token of the
    first session that has not expired, the sessions before it being saved
    as [expired]. *)
Fixpoint expire_stale_sessions (now : datetime)
    (active_sessions table : list PetRegistrationSession.t)
  : option String.string * list PetRegistrationSession.t :=
  match active_sessions with
  | [] => (None, table)
  | session :: rest =>
      if negb (PetRegistrationSession.is_expired now session)
      then (Some (PetRegistrationSession.session_token session), table)
      else
        expire_stale_sessions now rest
          (save_session
             (PetRegistrationSession.set_status session
                PetRegistrationSession.expired)
             table)
  end.

Inductive start_face_id_response :=
| StartNotFound
| AlreadyActive (session_token : String.string)
| SessionStarted (session : PetRegistrationSession.t)
| StartIntegrityError.

(** [PetRegistrationSession.objects.create(...)]: the primary key and the
    token are unique columns. *)
Definition create_session (table : list PetRegistrationSession.t)
    (session : PetRegistrationSession.t)
  : option (list PetRegistrationSession.t) :=
  if existsb (fun s => N.eqb (PetRegistrationSession.id s)
                         (PetRegistrationSession.id session) ||
                       String.eqb (PetRegistrationSession.session_token s)
                         (PetRegistrationSession.session_token session))
             table
  then None
  else Some (table ++ [session]).

(** [PetViewSet.start_face_id]; [uuid4] and [session_token] are the values
    drawn by [uuid.uuid4()] and [secrets.token_urlsafe(32)]. *)
Definition start_face_id (db : pets_db) (now : datetime) (user pk : uuid)
    (uuid4 : uuid) (session_token : String.string)
  : start_face_id_response * pets_db :=
  match get_object db user pk with
  | None => (StartNotFound, db)
  | Some pet =>
      let active_sessions := active_sessions_of db (Pet.id pet) in
      match expire_stale_sessions now active_sessions
              (registration_sessions db) with
      | (Some token, table) => (AlreadyActive token, with_sessions db table)
      | (None, table) =>
          let session :=
            {| PetRegistrationSession.id := uuid4;
               PetRegistrationSession.pet := Pet.id pet;
               PetRegistrationSession.session_token := session_token;
               PetRegistrationSession.status := PetRegistrationSession.active;
               PetRegistrationSession.start_time := now;
               PetRegistrationSession.end_time := None;
               PetRegistrationSession.expected_images_count := 10;
               PetRegistrationSession.actual_images_count := 0 |} in
          match create_session table session with
          | None => (StartIntegrityError, with_sessions db table)
          | Some table =>
              let pet := Pet.set_registration_status pet Pet.processing in
              (SessionStarted session,
               with_pets (with_sessions db table) (save_pet pet (pets db)))
          end
      end
  end.

(** ** Image intake *)

Inductive upload_response :=
| UploadInvalid                 (* 400, [serializer.errors] *)
| UploadExpired                 (* 400, "Session has expired" *)
| UploadNotFound                (* 404, "Invalid session token" *)
| UploadServerError             (* 500, an exception nothing catches *)
| Uploaded (total_images : Z) (processed_images : list PetImage.t).

Definition is_active_session_with_token (token : String.string)
    (s : PetRegistrationSession.t) : bool :=
  String.eqb (PetRegistrationSession.session_token s) token &&
  PetRegistrationSession.status_eqb (PetRegistrationSession.status s)
    PetRegistrationSession.active.

Section Upload.
Variable yolo_model : String.string -> option (list Box.t).
(** [YOLODetectionService.assess_image_quality]: blur, brightness and
    contrast, or the empty dictionary. *)
Variable assess_image_quality :
  String.string -> option (float * float * float).
(** What [ImageField] accepts. *)
Variable valid_image : String.string -> bool.
(** The primary key [uuid.uuid4()] draws for the image at each index. *)
Variable uuid4 : nat -> uuid.

(** [PetImageUploadSerializer.is_valid()]; [None] when looking up the
    session raises. *)
Definition PetImageUploadSerializer_is_valid (db : pets_db) (now : datetime)
    (session_token : String.string) (images : list String.string)
  : option bool :=
  let images_ok :=
    negb (Nat.eqb (length images) 0) && Nat.leb (length images) 20 &&
    forallb valid_image images in
  let token_length_ok := Nat.leb (String.length session_token) 100 in
  match Table.get (is_active_session_with_token session_token)
          (registration_sessions db) with
  | Table.MultipleObjectsReturned =>
      if token_length_ok then None else Some false
  | Table.DoesNotExist => Some false
  | Table.Found session =>
      Some (images_ok && token_length_ok &&
            negb (PetRegistrationSession.is_expired now session))
  end.

(** The quality status the view derives from the detections. *)
Definition quality_status_of (detections : list Detection.t)
  : PetImage.quality_status_t :=
  match detections with
  | best_detection :: _ =>
      if fgt (Detection.confidence best_detection) f0_7 then PetImage.good
      else if fgt (Detection.confidence best_detection) f0_5 then PetImage.poor
      else PetImage.rejected
  | [] => PetImage.rejected
  end.

(** One turn of the loop over [enumerate(images)]: the [PetImage] as it
    is saved at the end of the turn.  The two service calls catch their own
    exceptions, so the [except] branch of the turn is not entered. *)
Definition process_uploaded_image (session : PetRegistrationSession.t)
    (i : nat) (image : String.string) : PetImage.t :=
  let detections := detect_pet_faces yolo_model image in
  let quality_metrics := assess_image_quality image in
  let best_detection := hd_error detections in
  {| PetImage.id := uuid4 i;
     PetImage.pet := PetRegistrationSession.pet session;
     PetImage.session := Some (PetRegistrationSession.id session);
     PetImage.image := image;
     PetImage.quality_status := quality_status_of detections;
     PetImage.sequence_number :=
       PetRegistrationSession.actual_images_count session + Z.of_nat i + 1;
     PetImage.detected_pet_type := option_map Detection.class best_detection;
     PetImage.detection_confidence :=
       option_map Detection.confidence best_detection;
     PetImage.bounding_box := option_map Detection.bounding_box best_detection;
     PetImage.blur_score :=
       option_map (fun m => fst (fst m)) quality_metrics;
     PetImage.brightness_score :=
       option_map (fun m => snd (fst m)) quality_metrics;
     PetImage.contrast_score := option_map snd quality_metrics |}.

Fixpoint process_uploaded_images (session : PetRegistrationSession.t)
    (i : nat) (images : list String.string) : list PetImage.t :=
  match images with
  | [] => []
  | image :: rest =>
      process_uploaded_image session i image ::
      process_uploaded_images session (S i) rest
  end.

(** [PetImageUploadView.post] *)
Definition PetImageUploadView_post (db : pets_db) (now : datetime)
    (session_token : String.string) (images : list String.string)
  : upload_response * pets_db :=
  match PetImageUploadSerializer_is_valid db now session_token images with
  | None => (UploadServerError, db)
  | Some false => (UploadInvalid, db)
  | Some true =>
      match Table.get (is_active_session_with_token session_token)
              (registration_sessions db) with
      | Table.DoesNotExist => (UploadNotFound, db)
      | Table.MultipleObjectsReturned => (UploadServerError, db)
      | Table.Found session =>
          if PetRegistrationSession.is_expired now session then
            (UploadExpired,
             with_sessions db
               (save_session
                  (PetRegistrationSession.set_status session
                     PetRegistrationSession.expired)
                  (registration_sessions db)))
          else
            let processed_images :=
              process_uploaded_images session 0 images in
            let session :=
              PetRegistrationSession.set_actual_images_count session
                (PetRegistrationSession.actual_images_count session +
                 Z.of_nat (length images)) in
            (Uploaded (PetRegistrationSession.actual_images_count session)
                      processed_images,
             with_sessions
               (with_images db (pet_images db ++ processed_images))
               (save_session session (registration_sessions db)))
      end
  end.
End Upload.

End PetsViews.

(* ===================================================================== *)
(** * Properties of pets *)
(* ===================================================================== *)

Module PetsFacts.
Import Float64 Services PetsViews.

(** ** Expiry of a registration session *)

(** C10.  [is_expired] answers true only for an [active] session whose
    start lies more than 30 minutes back; for a [completed], [failed] or
    [expired] session the answer is false. *)
Theorem is_expired_only_active (now : datetime) (s : PetRegistrationSession.t) :
  (PetRegistrationSession.is_expired now s = true <->
     PetRegistrationSession.status s = PetRegistrationSession.active /\
     PetRegistrationSession.start_time s + minutes 30 < now) /\
  (PetRegistrationSession.status s = PetRegistrationSession.completed \/
   PetRegistrationSession.status s = PetRegistrationSession.failed \/
   PetRegistrationSession.status s = PetRegistrationSession.expired ->
     PetRegistrationSession.is_expired now s = false) /\
  minutes 30 = 30 * 60 * 1000000.
Proof.
  unfold PetRegistrationSession.is_expired.
  destruct (PetRegistrationSession.status s) eqn:E.
  - split; [rewrite Z.ltb_lt; tauto|].
    split; [intros [H|[H|H]]; discriminate|reflexivity].
  - split; [split; [discriminate|intros [H _]; discriminate]|].
    split; reflexivity.
  - split; [split; [discriminate|intros [H _]; discriminate]|].
    split; reflexivity.
  - split; [split; [discriminate|intros [H _]; discriminate]|].
    split; reflexivity.
Qed.

(** ** Starting a registration session *)

Lemma unique_by_key {A K : Type} (key : A -> K) (l : list A) (x y : A) :
  NoDup (map key l) -> In x l -> In y l -> key x = key y -> x = y.
Proof.
  induction l as [|a l IH]; simpl; intros Hnd Hx Hy Hk; [contradiction|].
  inversion Hnd as [|? ? Hnotin Hnd']; subst.
  destruct Hx as [->|Hx], Hy as [->|Hy]; auto.
  - exfalso. apply Hnotin. rewrite Hk. now apply in_map.
  - exfalso. apply Hnotin. rewrite <- Hk. now apply in_map.
Qed.

(** The sessions a run of the loop has saved as [expired]. *)
Definition mark_expired (done : list PetRegistrationSession.t)
    (s : PetRegistrationSession.t) : PetRegistrationSession.t :=
  if existsb (fun q => N.eqb (PetRegistrationSession.id s)
                         (PetRegistrationSession.id q)) done
  then PetRegistrationSession.set_status s PetRegistrationSession.expired
  else s.

Lemma mark_expired_id (done : list PetRegistrationSession.t)
    (s : PetRegistrationSession.t) :
  PetRegistrationSession.id (mark_expired done s) = PetRegistrationSession.id s.
Proof. unfold mark_expired. now destruct (existsb _ done). Qed.

Lemma expire_stale_sessions_all (now : datetime)
    (table0 : list PetRegistrationSession.t) :
  NoDup (map PetRegistrationSession.id table0) ->
  forall qs done,
    (forall q, In q qs -> In q table0 /\
               PetRegistrationSession.is_expired now q = true) ->
    expire_stale_sessions now qs (map (mark_expired done) table0) =
    (None, map (mark_expired (done ++ qs)) table0).
Proof.
  intros Hnd qs. induction qs as [|q qs IH]; intros done Hqs; simpl.
  - now rewrite app_nil_r.
  - destruct (Hqs q (or_introl eq_refl)) as [Hin Hexp]. rewrite Hexp. simpl.
    replace (save_session _ (map (mark_expired done) table0))
      with (map (mark_expired (done ++ [q])) table0).
    + rewrite IH, <- app_assoc; [reflexivity|].
      intros q' Hq'. apply Hqs. now right.
    + unfold save_session, Table.save. rewrite map_map.
      apply map_ext_in. intros x Hx. rewrite mark_expired_id. simpl.
      unfold mark_expired at 1. rewrite existsb_app. simpl.
      rewrite orb_false_r.
      destruct (N.eqb_spec (PetRegistrationSession.id x)
                           (PetRegistrationSession.id q)) as [E|E].
      * rewrite orb_true_r.
        now rewrite (unique_by_key _ _ _ _ Hnd Hx Hin E).
      * now rewrite orb_false_r.
Qed.

Lemma mark_expired_nil (table : list PetRegistrationSession.t) :
  map (mark_expired []) table = table.
Proof. unfold mark_expired. simpl. apply map_id. Qed.

Lemma start_time_sorted (l : list PetRegistrationSession.t) :
  StronglySorted
    (fun a b => PetRegistrationSession.start_time b <=
                PetRegistrationSession.start_time a)
    (Py.sort_desc start_time_lt l).
Proof.
  apply Py.sort_desc_sorted with (ok := fun _ => True).
  - intros a b _ _ H. apply Z.ltb_lt in H. lia.
  - intros a b _ _ H. apply Z.ltb_ge in H. exact H.
  - intros a b c Hab Hbc. lia.
  - apply Forall_forall. trivial.
Qed.

Lemma active_sessions_of_in (db : pets_db) (pk : uuid)
    (s : PetRegistrationSession.t) :
  In s (active_sessions_of db pk) <->
  In s (registration_sessions db) /\ is_active_session_of pk s = true.
Proof.
  unfold active_sessions_of. rewrite <- filter_In. split; intros H.
  - eapply Permutation_in; [apply Permutation_sym, Py.sort_desc_perm|exact H].
  - eapply Permutation_in; [apply Py.sort_desc_perm|exact H].
Qed.

Lemma is_active_session_of_spec (pk : uuid) (s : PetRegistrationSession.t) :
  is_active_session_of pk s = true <->
  PetRegistrationSession.pet s = pk /\
  PetRegistrationSession.status s = PetRegistrationSession.active.
Proof.
  unfold is_active_session_of. rewrite andb_true_iff, N.eqb_eq.
  destruct (PetRegistrationSession.status s); simpl; split; intros [H1 H2];
    split; auto; discriminate.
Qed.

Lemma get_object_id (db : pets_db) (user pk : uuid) (pet : Pet.t) :
  get_object db user pk = Some pet -> Pet.id pet = pk.
Proof.
  unfold get_object. intros H. apply find_some in H as [_ H].
  apply andb_prop in H as [H _]. now apply N.eqb_eq.
Qed.

Lemma with_sessions_same (db : pets_db) :
  with_sessions db (registration_sessions db) = db.
Proof. now destruct db. Qed.

(** The session a successful start creates. *)
Definition new_session (now : datetime) (pk uuid4 : uuid)
    (session_token : String.string) : PetRegistrationSession.t :=
  {| PetRegistrationSession.id := uuid4;
     PetRegistrationSession.pet := pk;
     PetRegistrationSession.session_token := session_token;
     PetRegistrationSession.status := PetRegistrationSession.active;
     PetRegistrationSession.start_time := now;
     PetRegistrationSession.end_time := None;
     PetRegistrationSession.expected_images_count := 10;
     PetRegistrationSession.actual_images_count := 0 |}.

(** Every active session of the pet turned to [expired]. *)
Definition expire_active_of (pk : uuid) (s : PetRegistrationSession.t)
  : PetRegistrationSession.t :=
  if is_active_session_of pk s
  then PetRegistrationSession.set_status s PetRegistrationSession.expired
  else s.

Lemma expire_stale_sessions_none (now : datetime)
    (qs : list PetRegistrationSession.t) :
  forall table table',
    expire_stale_sessions now qs table = (None, table') ->
    forall q, In q qs -> PetRegistrationSession.is_expired now q = true.
Proof.
  induction qs as [|q0 qs IH]; intros table table' H q Hq; [destruct Hq|].
  simpl in H.
  destruct (PetRegistrationSession.is_expired now q0) eqn:E; simpl in H;
    [|discriminate].
  destruct Hq as [<-|Hq]; [exact E|]. eapply IH; eauto.
Qed.

Lemma mark_expired_not_active (pk : uuid)
    (qs : list PetRegistrationSession.t) (x : PetRegistrationSession.t) :
  (is_active_session_of pk x = true -> In x qs) ->
  is_active_session_of pk (mark_expired qs x) = false.
Proof.
  intros H. unfold mark_expired.
  destruct (existsb _ qs) eqn:E.
  - unfold is_active_session_of. simpl. apply andb_false_r.
  - destruct (is_active_session_of pk x) eqn:A; [|reflexivity].
    exfalso. apply not_true_iff_false in E. apply E.
    apply existsb_exists. exists x. split; [now apply H|apply N.eqb_refl].
Qed.

Lemma create_session_some (table table' : list PetRegistrationSession.t)
    (session : PetRegistrationSession.t) :
  create_session table session = Some table' ->
  table' = table ++ [session] /\
  forall s, In s table ->
    PetRegistrationSession.id s <> PetRegistrationSession.id session /\
    PetRegistrationSession.session_token s <>
    PetRegistrationSession.session_token session.
Proof.
  unfold create_session. destruct (existsb _ table) eqn:E; [discriminate|].
  intros [= <-]. split; [reflexivity|]. intros s Hs.
  apply not_true_iff_false in E.
  split; intros Heq; apply E; apply existsb_exists; exists s;
    (split; [exact Hs|]); rewrite Heq.
  - now rewrite N.eqb_refl.
  - rewrite String.eqb_refl. apply orb_true_r.
Qed.

Lemma mark_expired_active (db : pets_db) (pk : uuid) :
  NoDup (map PetRegistrationSession.id (registration_sessions db)) ->
  map (mark_expired (active_sessions_of db pk)) (registration_sessions db) =
  map (expire_active_of pk) (registration_sessions db).
Proof.
  intros Hnd. apply map_ext_in. intros x Hx.
  unfold mark_expired, expire_active_of.
  destruct (is_active_session_of pk x) eqn:Ex.
  - replace (existsb _ _) with true; [reflexivity|].
    symmetry. apply existsb_exists. exists x. split.
    + now apply active_sessions_of_in.
    + apply N.eqb_refl.
  - replace (existsb _ _) with false; [reflexivity|].
    symmetry. apply not_true_is_false. intros Hex.
    apply existsb_exists in Hex as [q [Hq Heq]].
    apply active_sessions_of_in in Hq as [Hq1 Hq2].
    apply N.eqb_eq in Heq.
    rewrite (unique_by_key _ _ _ _ Hnd Hx Hq1 Heq) in Ex. congruence.
Qed.

Lemma expire_active_of_columns (pk : uuid) (s : PetRegistrationSession.t) :
  PetRegistrationSession.id (expire_active_of pk s) =
    PetRegistrationSession.id s /\
  PetRegistrationSession.session_token (expire_active_of pk s) =
    PetRegistrationSession.session_token s /\
  PetRegistrationSession.pet (expire_active_of pk s) =
    PetRegistrationSession.pet s.
Proof.
  unfold expire_active_of. now destruct (is_active_session_of pk s).
Qed.

Lemma filter_all_false {A : Type} (p : A -> bool) (l : list A) :
  (forall y, In y l -> p y = false) -> filter p l = [].
Proof.
  induction l as [|a l IH]; simpl; intros H; [reflexivity|].
  rewrite (H a (or_introl eq_refl)). apply IH. intros y Hy. apply H. now right.
Qed.

(** When every active session of the pet has passed the 30 minutes, the
    loop saves each of them as [expired] and rejects nothing. *)
Lemma expire_stale_sessions_stale (db : pets_db) (now : datetime) (pk : uuid) :
  NoDup (map PetRegistrationSession.id (registration_sessions db)) ->
  (forall s, In s (registration_sessions db) ->
             is_active_session_of pk s = true ->
             PetRegistrationSession.is_expired now s = true) ->
  expire_stale_sessions now (active_sessions_of db pk)
    (registration_sessions db) =
  (None, map (expire_active_of pk) (registration_sessions db)).
Proof.
  intros Hnd Hall.
  rewrite <- (mark_expired_nil (registration_sessions db)) at 1.
  rewrite (expire_stale_sessions_all now _ Hnd).
  2:{ intros q Hq. apply active_sessions_of_in in Hq as [Hq1 Hq2]. auto. }
  simpl app. now rewrite mark_expired_active.
Qed.

(** C5.  For a pet of the requesting user.  If one of its active sessions
    has not passed the 30 minutes, the request is answered with the
    already-active error carrying the token of such a session, and nothing
    is written.  If every active session of the pet has passed them, each
    of these sessions is saved as [expired]; then a drawn key or token
    that is in use makes the create fail, and otherwise a session with the
    drawn key and token, status [active] and start time [now] is added and
    the pet is saved.  Whenever a session is started, its token is the
    token of no other session, it is the only active session of the pet,
    every session of the pet that was active has the status [expired], and
    the stored pet has the registration status [processing], with its
    owner and name as before. *)
Theorem start_face_id_session (db : pets_db) (now : datetime) (user pk : uuid)
    (uuid4 : uuid) (session_token : String.string) (pet : Pet.t) :
  get_object db user pk = Some pet ->
  NoDup (map PetRegistrationSession.id (registration_sessions db)) ->
  ((exists s, In s (registration_sessions db) /\
              is_active_session_of pk s = true /\
              PetRegistrationSession.is_expired now s = false) ->
   exists s, In s (registration_sessions db) /\
             is_active_session_of pk s = true /\
             PetRegistrationSession.is_expired now s = false /\
             start_face_id db now user pk uuid4 session_token =
               (AlreadyActive (PetRegistrationSession.session_token s), db)) /\
  ((forall s, In s (registration_sessions db) ->
              is_active_session_of pk s = true ->
              PetRegistrationSession.is_expired now s = true) ->
   ((exists s, In s (registration_sessions db) /\
               (PetRegistrationSession.id s = uuid4 \/
                PetRegistrationSession.session_token s = session_token)) ->
    start_face_id db now user pk uuid4 session_token =
      (StartIntegrityError,
       with_sessions db
         (map (expire_active_of pk) (registration_sessions db)))) /\
   ((forall s, In s (registration_sessions db) ->
               PetRegistrationSession.id s <> uuid4 /\
               PetRegistrationSession.session_token s <> session_token) ->
    start_face_id db now user pk uuid4 session_token =
      (SessionStarted (new_session now pk uuid4 session_token),
       {| pets := save_pet (Pet.set_registration_status pet Pet.processing)
                           (pets db);
          registration_sessions :=
            map (expire_active_of pk) (registration_sessions db) ++
            [new_session now pk uuid4 session_token];
          pet_images := pet_images db |}))) /\
  (forall session db',
     start_face_id db now user pk uuid4 session_token =
       (SessionStarted session, db') ->
     (PetRegistrationSession.id session = uuid4 /\
      PetRegistrationSession.pet session = pk /\
      PetRegistrationSession.session_token session = session_token /\
      PetRegistrationSession.status session = PetRegistrationSession.active /\
      PetRegistrationSession.start_time session = now /\
      PetRegistrationSession.end_time session = None /\
      PetRegistrationSession.actual_images_count session = 0) /\
     (forall s, In s (registration_sessions db) ->
                PetRegistrationSession.session_token s <> session_token) /\
     filter (fun s => String.eqb (PetRegistrationSession.session_token s)
                        session_token)
            (registration_sessions db') = [session] /\
     (forall s, In s (registration_sessions db') ->
                PetRegistrationSession.pet s = pk ->
                PetRegistrationSession.status s =
                  PetRegistrationSession.active ->
                s = session) /\
     (forall s, In s (registration_sessions db) ->
                is_active_session_of pk s = true ->
                PetRegistrationSession.start_time s + minutes 30 < now /\
                exists s', In s' (registration_sessions db') /\
                  PetRegistrationSession.id s' = PetRegistrationSession.id s /\
                  PetRegistrationSession.session_token s' =
                    PetRegistrationSession.session_token s /\
                  PetRegistrationSession.status s' =
                    PetRegistrationSession.expired) /\
     (exists p, In p (pets db') /\ Pet.id p = pk /\ Pet.owner p = user /\
                Pet.name p = Pet.name pet /\
                Pet.registration_status p = Pet.processing) /\
     (forall p, In p (pets db') -> Pet.id p = pk ->
                Pet.registration_status p = Pet.processing) /\
     pet_images db' = pet_images db).
Proof.
  intros Hpet Hnd. pose proof (get_object_id _ _ _ _ Hpet) as Hid.
  split; [|split].
  - (* an active session that has not expired *)
    unfold start_face_id. rewrite Hpet, Hid.
    intros [s [Hin [Hact Hexp]]].
    assert (Hs : In s (active_sessions_of db pk))
      by now apply active_sessions_of_in.
    pose proof (start_time_sorted
                  (filter (is_active_session_of pk) (registration_sessions db)))
      as Hsorted.
    fold (active_sessions_of db pk) in Hsorted.
    destruct (active_sessions_of db pk) as [|h t] eqn:E; [contradiction|].
    assert (Hh : In h (registration_sessions db) /\
                 is_active_session_of pk h = true).
    { apply active_sessions_of_in. rewrite E. now left. }
    destruct Hh as [Hhin Hhact].
    assert (Hle : PetRegistrationSession.start_time s <=
                  PetRegistrationSession.start_time h).
    { destruct Hs as [->|Hs]; [lia|].
      inversion Hsorted as [|? ? _ Hall]; subst.
      now apply (proj1 (Forall_forall _ _) Hall). }
    assert (Hhexp : PetRegistrationSession.is_expired now h = false).
    { apply is_active_session_of_spec in Hact as [_ Hsa].
      apply is_active_session_of_spec in Hhact as [_ Hha].
      unfold PetRegistrationSession.is_expired in *.
      rewrite Hsa in Hexp. rewrite Hha.
      apply Z.ltb_ge in Hexp. apply Z.ltb_ge. lia. }
    exists h. repeat split; try assumption.
    simpl. rewrite Hhexp. simpl. now rewrite with_sessions_same.
  - (* every active session has expired *)
    intros Hall. unfold start_face_id. rewrite Hpet, Hid.
    rewrite (expire_stale_sessions_stale db now pk Hnd Hall).
    unfold create_session. split.
    + intros [s [Hs Hclash]].
      replace (existsb _ _) with true; [reflexivity|].
      symmetry. apply existsb_exists. exists (expire_active_of pk s).
      split; [now apply in_map|].
      destruct (expire_active_of_columns pk s) as [Hi [Ht _]].
      rewrite Hi, Ht. cbn. destruct Hclash as [<-|<-].
      * now rewrite N.eqb_refl.
      * rewrite String.eqb_refl. apply orb_true_r.
    + intros Hfresh.
      replace (existsb _ _) with false; [reflexivity|].
      symmetry. apply not_true_is_false. intros Hex.
      apply existsb_exists in Hex as [x [Hx Heq]].
      apply in_map_iff in Hx as [y [<- Hy]].
      destruct (Hfresh y Hy) as [Hi Ht].
      destruct (expire_active_of_columns pk y) as [Hi' [Ht' _]].
      rewrite Hi', Ht' in Heq. cbn in Heq.
      apply orb_prop in Heq as [Heq|Heq].
      * apply N.eqb_eq in Heq. contradiction.
      * apply String.eqb_eq in Heq. contradiction.
  - (* what a started session leaves *)
    intros session db' H. unfold start_face_id in H. rewrite Hpet, Hid in H.
    destruct (expire_stale_sessions now (active_sessions_of db pk)
                (registration_sessions db)) as [[tok|] table] eqn:Ex;
      [discriminate|].
    assert (Hstale : forall s, In s (registration_sessions db) ->
              is_active_session_of pk s = true ->
              PetRegistrationSession.is_expired now s = true).
    { intros s Hs Ha. eapply expire_stale_sessions_none; [exact Ex|].
      now apply active_sessions_of_in. }
    rewrite (expire_stale_sessions_stale db now pk Hnd Hstale) in Ex.
    injection Ex as <-.
    destruct (create_session _ _) as [table1|] eqn:Ec; [|discriminate].
    apply create_session_some in Ec as [-> Hfresh].
    injection H as <- <-.
    cbn [PetRegistrationSession.id PetRegistrationSession.session_token]
      in Hfresh.
    cbn [registration_sessions pets pet_images with_pets with_sessions].
    assert (Hold : forall s, In s (registration_sessions db) ->
              PetRegistrationSession.session_token s <> session_token).
    { intros s Hs. destruct (expire_active_of_columns pk s) as [_ [Ht _]].
      rewrite <- Ht. apply Hfresh. now apply in_map. }
    split; [repeat split|]. split; [exact Hold|]. split; [|split; [|split]].
    + rewrite filter_app.
      rewrite filter_all_false.
      * cbn. now rewrite String.eqb_refl.
      * intros y Hy. apply not_true_is_false. intros Heq.
        apply String.eqb_eq in Heq. now apply (Hfresh y Hy).
    + intros s Hs Hp Hst. apply in_app_or in Hs as [Hs|[<-|[]]];
        [|reflexivity]. exfalso.
      apply in_map_iff in Hs as [x [<- Hx]].
      unfold expire_active_of in Hp, Hst.
      destruct (is_active_session_of pk x) eqn:Ea; [discriminate|].
      apply not_true_iff_false in Ea. apply Ea.
      now apply is_active_session_of_spec.
    + intros s Hs Ha. split.
      * specialize (Hstale s Hs Ha).
        apply is_active_session_of_spec in Ha as [_ Hact].
        unfold PetRegistrationSession.is_expired in Hstale.
        rewrite Hact in Hstale. now apply Z.ltb_lt in Hstale.
      * exists (expire_active_of pk s). split.
        -- apply in_or_app. left. now apply in_map.
        -- unfold expire_active_of. rewrite Ha. repeat split.
    + split; [|split; [|reflexivity]].
      * exists (Pet.set_registration_status pet Pet.processing).
        apply find_some in Hpet as [Hin Hp].
        apply andb_prop in Hp as [_ Howner]. apply N.eqb_eq in Howner.
        split; [|repeat split; assumption].
        unfold save_pet, Table.save. apply in_map_iff. exists pet.
        split; [|exact Hin]. cbn. now rewrite N.eqb_refl.
      * intros p Hp Hpk. unfold save_pet, Table.save in Hp.
        apply in_map_iff in Hp as [x [<- Hx]]. cbn in *.
        destruct (N.eqb_spec (Pet.id x) (Pet.id pet)) as [E|E];
          [reflexivity|]. cbn in Hpk. congruence.
Qed.

(** Buddy has a stale active session and a finished one; another pet has
    an active session of its own. *)
Definition buddy : Pet.t :=
  {| Pet.id := 7%N; Pet.owner := 1%N; Pet.name := "Buddy"%string;
     Pet.registration_status := Pet.pending |}.

Definition sample_session (id pet : uuid) (token : String.string)
    (status : PetRegistrationSession.status_t) (start : datetime)
  : PetRegistrationSession.t :=
  {| PetRegistrationSession.id := id;
     PetRegistrationSession.pet := pet;
     PetRegistrationSession.session_token := token;
     PetRegistrationSession.status := status;
     PetRegistrationSession.start_time := start;
     PetRegistrationSession.end_time := None;
     PetRegistrationSession.expected_images_count := 10;
     PetRegistrationSession.actual_images_count := 0 |}.

Definition sample_pets_db : pets_db :=
  {| pets := [buddy];
     registration_sessions :=
       [ sample_session 10%N 7%N "tok-old"%string
           PetRegistrationSession.active 0;
         sample_session 11%N 7%N "tok-done"%string
           PetRegistrationSession.completed (minutes 5);
         sample_session 12%N 8%N "tok-other"%string
           PetRegistrationSession.active 0 ];
     pet_images := [] |}.

Lemma start_face_id_session_witness :
  get_object sample_pets_db 1%N 7%N = Some buddy /\
  let started :=
    {| PetRegistrationSession.id := 13%N;
       PetRegistrationSession.pet := 7%N;
       PetRegistrationSession.session_token := "tok-new"%string;
       PetRegistrationSession.status := PetRegistrationSession.active;
       PetRegistrationSession.start_time := minutes 31;
       PetRegistrationSession.end_time := None;
       PetRegistrationSession.expected_images_count := 10;
       PetRegistrationSession.actual_images_count := 0 |} in
  let db' :=
    {| pets := [ {| Pet.id := 7%N; Pet.owner := 1%N;
                    Pet.name := "Buddy"%string;
                    Pet.registration_status := Pet.processing |} ];
       registration_sessions :=
         [ sample_session 10%N 7%N "tok-old"%string
             PetRegistrationSession.expired 0;
           sample_session 11%N 7%N "tok-done"%string
             PetRegistrationSession.completed (minutes 5);
           sample_session 12%N 8%N "tok-other"%string
             PetRegistrationSession.active 0;
           started ];
       pet_images := [] |} in
  start_face_id sample_pets_db (minutes 31) 1%N 7%N 13%N "tok-new"%string =
    (SessionStarted started, db') /\
  filter (fun s => String.eqb (PetRegistrationSession.session_token s)
                     "tok-new"%string)
         (registration_sessions db') = [started] /\
  (forall p, In p (pets db') -> Pet.id p = 7%N ->
             Pet.registration_status p = Pet.processing).
Proof.
  split; [reflexivity|]. intros started db'.
  assert (Hnd : NoDup (map PetRegistrationSession.id
                         (registration_sessions sample_pets_db))).
  { simpl. repeat constructor; simpl; intuition discriminate. }
  destruct (start_face_id_session sample_pets_db (minutes 31) 1%N 7%N 13%N
              "tok-new"%string buddy eq_refl Hnd) as (_ & Hstale & Hstarted).
  assert (Hall : forall s, In s (registration_sessions sample_pets_db) ->
             is_active_session_of 7%N s = true ->
             PetRegistrationSession.is_expired (minutes 31) s = true).
  { intros s [<-|[<-|[<-|[]]]]; vm_compute; intros; congruence. }
  destruct (Hstale Hall) as [_ Hnew].
  assert (E : start_face_id sample_pets_db (minutes 31) 1%N 7%N 13%N
                "tok-new"%string = (SessionStarted started, db')).
  { apply Hnew. intros s [<-|[<-|[<-|[]]]]; vm_compute; split; discriminate. }
  split; [exact E|].
  destruct (Hstarted started db' E)
    as (_ & _ & Htoken & _ & _ & _ & Hpets & _).
  split; [exact Htoken|exact Hpets].
Defined.

(** Ten minutes after the start of the session the same request is
    turned down with the token of that session, and nothing changes. *)
Example start_face_id_already_active :
  start_face_id sample_pets_db (minutes 10) 1%N 7%N 13%N "tok-new"%string =
    (AlreadyActive "tok-old"%string, sample_pets_db).
Proof. vm_compute. reflexivity. Qed.

(** ** Image intake *)

Section UploadFacts.
Variable yolo_model : String.string -> option (list Box.t).
Variable assess_image_quality :
  String.string -> option (float * float * float).
Variable valid_image : String.string -> bool.
Variable uuid4 : nat -> uuid.

Lemma process_uploaded_images_nth (session : PetRegistrationSession.t)
    (images : list String.string) (k i : nat) :
  nth_error (process_uploaded_images yolo_model assess_image_quality uuid4
               session k images) i =
  option_map (process_uploaded_image yolo_model assess_image_quality uuid4
                session (k + i))
             (nth_error images i).
Proof.
  revert k i. induction images as [|image rest IH]; intros k [|i]; simpl;
    try reflexivity.
  - now rewrite Nat.add_0_r.
  - rewrite IH. now rewrite Nat.add_succ_r.
Qed.

Lemma process_uploaded_images_length (session : PetRegistrationSession.t)
    (images : list String.string) (k : nat) :
  length (process_uploaded_images yolo_model assess_image_quality uuid4
            session k images) = length images.
Proof.
  revert k. induction images as [|image rest IH]; intros k; simpl;
    [reflexivity|]. now rewrite IH.
Qed.

(** The three statuses in terms of the confidence [c] of the best
    detection: [good] iff [c > 0.7], [poor] iff [0.5 < c <= 0.7],
    [rejected] iff [c <= 0.5]. *)
Lemma quality_status_of_confidence (best : Detection.t)
    (others : list Detection.t) :
  let c := Detection.confidence best in
  let q := quality_status_of (best :: others) in
  is_nan c = false ->
  (q = PetImage.good <-> fgt c f0_7 = true) /\
  (q = PetImage.poor <-> fgt c f0_5 = true /\ fle c f0_7 = true) /\
  (q = PetImage.rejected <-> fle c f0_5 = true).
Proof.
  intros c q Hc. subst q. unfold quality_status_of. fold c.
  assert (H7 : fgt c f0_7 = negb (fle c f0_7)) by now apply fgt_not_fle.
  assert (H5 : fgt c f0_5 = negb (fle c f0_5)) by now apply fgt_not_fle.
  assert (Hmono : fle c f0_5 = true -> fle c f0_7 = true).
  { intros H. apply (fle_trans _ _ _ H). reflexivity. }
  rewrite H7, H5.
  destruct (fle c f0_7) eqn:E7; destruct (fle c f0_5) eqn:E5; simpl;
    try (specialize (Hmono eq_refl); discriminate);
    repeat split; try reflexivity; try discriminate;
    try (intros [T _]; discriminate); try (intros [_ T]; discriminate).
Qed.

(** C9, amended.  After a successful intake every uploaded image has a
    [PetImage] row of its own, in order.  Its quality status is
    [rejected] when nothing was detected; otherwise, with [c] the
    confidence of the best detection, it is [good] iff [c > 0.7], [poor]
    iff [0.5 < c <= 0.7] and [rejected] iff [c <= 0.5]. *)
Theorem PetImageUploadView_post_quality_status (db db' : pets_db) (now : datetime)
    (session_token : String.string) (images : list String.string)
    (total_images : Z) (processed_images : list PetImage.t) :
  PetImageUploadView_post yolo_model assess_image_quality valid_image uuid4
    db now session_token images =
    (Uploaded total_images processed_images, db') ->
  pet_images db' = pet_images db ++ processed_images /\
  length processed_images = length images /\
  forall i image, nth_error images i = Some image ->
    exists pet_image,
      nth_error processed_images i = Some pet_image /\
      PetImage.image pet_image = image /\
      match detect_pet_faces yolo_model image with
      | [] => PetImage.quality_status pet_image = PetImage.rejected
      | best :: _ =>
          let c := Detection.confidence best in
          let q := PetImage.quality_status pet_image in
          is_nan c = false ->
          (q = PetImage.good <-> fgt c f0_7 = true) /\
          (q = PetImage.poor <-> fgt c f0_5 = true /\ fle c f0_7 = true) /\
          (q = PetImage.rejected <-> fle c f0_5 = true)
      end.
Proof.
  unfold PetImageUploadView_post.
  destruct (PetImageUploadSerializer_is_valid _ _ _ _ _) as [[|]|]; try discriminate.
  destruct (Table.get _ _) as [session| |]; try discriminate.
  destruct (PetRegistrationSession.is_expired now session); try discriminate.
  intros [= _ <- <-]. cbn [pet_images with_sessions with_images].
  split; [reflexivity|]. split; [apply process_uploaded_images_length|].
  intros i image Hi. rewrite process_uploaded_images_nth, Hi.
  eexists. split; [reflexivity|]. split; [reflexivity|].
  cbn [PetImage.quality_status process_uploaded_image].
  destruct (detect_pet_faces yolo_model image) as [|best others];
    [reflexivity|].
  apply quality_status_of_confidence.
Qed.
End UploadFacts.

(** One image whose best detection has confidence exactly 0.5, sent to a
    session that started a minute ago. *)
Definition half_yolo (image_path : String.string) : option (list Box.t) :=
  Some [ {| Box.x1 := f0; Box.y1 := f0; Box.x2 := f1; Box.y2 := f1;
            Box.conf := f0_5; Box.cls := 3 |} ].

Definition no_quality (image_path : String.string)
  : option (float * float * float) := None.

Definition intake_db : pets_db :=
  {| pets := [buddy];
     registration_sessions :=
       [ sample_session 10%N 7%N "tok"%string PetRegistrationSession.active 0 ];
     pet_images := [] |}.

Definition half_image : PetImage.t :=
  {| PetImage.id := 100%N; PetImage.pet := 7%N; PetImage.session := Some 10%N;
     PetImage.image := "half.jpg"%string;
     PetImage.quality_status := PetImage.rejected;
     PetImage.sequence_number := 1;
     PetImage.detected_pet_type := Some "dog_face"%string;
     PetImage.detection_confidence := Some f0_5;
     PetImage.bounding_box := Some [f0; f0; f1; f1];
     PetImage.blur_score := None; PetImage.brightness_score := None;
     PetImage.contrast_score := None |}.

(** C9 as stated fails at a confidence of exactly 0.5: it lies in the
    range 0.5-0.7 and is not below 0.5, yet the image is [rejected], not
    [poor]. *)
Lemma PetImageUploadView_post_confidence_half_rejected :
  fst (PetImageUploadView_post half_yolo no_quality (fun _ => true) (fun _ => 100%N)
         intake_db (minutes 1) "tok"%string ["half.jpg"%string]) =
    Uploaded 1 [half_image] /\
  PetImage.detection_confidence half_image = Some f0_5 /\
  fle f0_5 f0_5 = true /\ fle f0_5 f0_7 = true /\ flt f0_5 f0_5 = false /\
  PetImage.quality_status half_image = PetImage.rejected /\
  PetImage.quality_status half_image <> PetImage.poor.
Proof. vm_compute. repeat split. discriminate. Qed.

Lemma PetImageUploadView_post_quality_status_witness :
  let db' := snd (PetImageUploadView_post half_yolo no_quality (fun _ => true)
                    (fun _ => 100%N) intake_db (minutes 1) "tok"%string
                    ["half.jpg"%string]) in
  PetImageUploadView_post half_yolo no_quality (fun _ => true) (fun _ => 100%N)
    intake_db (minutes 1) "tok"%string ["half.jpg"%string] =
    (Uploaded 1 [half_image], db') /\
  pet_images db' = pet_images intake_db ++ [half_image] /\
  length [half_image] = length ["half.jpg"%string].
Proof.
  intros db'. split; [reflexivity|].
  assert (H : PetImageUploadView_post half_yolo no_quality (fun _ => true)
                (fun _ => 100%N) intake_db (minutes 1) "tok"%string
                ["half.jpg"%string] = (Uploaded 1 [half_image], db'))
    by reflexivity.
  destruct (PetImageUploadView_post_quality_status half_yolo no_quality (fun _ => true)
              (fun _ => 100%N) intake_db db' (minutes 1) "tok"%string
              ["half.jpg"%string] 1 [half_image] H) as [H1 [H2 _]].
  split; assumption.
Defined.

End PetsFacts.

(* ===================================================================== *)
(** * qr_search/models.py *)
(* ===================================================================== *)

Module QRCode.
Inductive status_t := active | used | expired | disabled.

Record t := {
  id : uuid;
  code : String.string;
  status : status_t;
  created_by : uuid;
  expires_at : datetime;
  used_at : option datetime;
  usage_count : Z;
  max_usage : Z
}.

Definition status_eqb (a b : status_t) : bool :=
  match a, b with
  | active, active | used, used | expired, expired
  | disabled, disabled => true
  | _, _ => false
  end.

(** "Check if QR code is expired" *)
Definition is_expired (now : datetime) (self : t) : bool :=
  expires_at self <? now.

(** "Check if QR code can still be used" *)
Definition is_usable (now : datetime) (self : t) : bool :=
  status_eqb (status self) active &&
  negb (is_expired now self) &&
  (usage_count self <? max_usage self).

(** "Mark QR code as used": the object as [self.save()] writes it. *)
Definition mark_as_used (now : datetime) (self : t) : t :=
  let usage_count' := usage_count self + 1 in
  {| id := id self; code := code self;
     status := if max_usage self <=? usage_count' then used else status self;
     created_by := created_by self;
     expires_at := expires_at self;
     used_at := Some now;
     usage_count := usage_count';
     max_usage := max_usage self |}.
End QRCode.

Module QRSearchSession.
Inductive status_t :=
  initiated | image_uploaded | processing | completed | failed | expired.

Record t := {
  id : uuid;
  qr_code : uuid;
  session_token : String.string;
  status : status_t;
  created_at : datetime;
  completed_at : option datetime;
  expires_at : datetime;
  search_result : option FaceRecognitionResult.t
}.

Definition set_status (self : t) (v : status_t) : t :=
  {| id := id self; qr_code := qr_code self;
     session_token := session_token self; status := v;
     created_at := created_at self; completed_at := completed_at self;
     expires_at := expires_at self; search_result := search_result self |}.

Definition set_search_result (self : t) (v : option FaceRecognitionResult.t)
  : t :=
  {| id := id self; qr_code := qr_code self;
     session_token := session_token self; status := status self;
     created_at := created_at self; completed_at := completed_at self;
     expires_at := expires_at self; search_result := v |}.

Definition set_completed_at (self : t) (v : option datetime) : t :=
  {| id := id self; qr_code := qr_code self;
     session_token := session_token self; status := status self;
     created_at := created_at self; completed_at := v;
     expires_at := expires_at self; search_result := search_result self |}.

(** "Check if session is expired" *)
Definition is_expired (now : datetime) (self : t) : bool :=
  expires_at self <? now.

(** [generate_session_token]: tokens are drawn until one is not in use;
    [draws] are the tokens [secrets.token_urlsafe(32)] returns, in order,
    and [None] means that all of them are taken. *)
Definition generate_session_token (draws : list String.string)
    (table : list t) : option String.string :=
  find (fun token =>
          negb (existsb (fun s => String.eqb (session_token s) token) table))
       draws.
End QRSearchSession.

Module QRSearchImage.
Inductive status_t := pending | processing | completed | failed.

Record t := {
  session : uuid;
  image : String.string;
  status : status_t;
  face_detected : bool;
  processing_time : option Float64.float;
  error_message : option String.string
}.
End QRSearchImage.

(* ===================================================================== *)
(** * qr_search/serializers.py and qr_search/views.py *)
(* ===================================================================== *)

Module QRViews.
Import Float64 Services.

Record qr_db := {
  qr_codes : list QRCode.t;
  search_sessions : list QRSearchSession.t;
  search_images : list QRSearchImage.t;
  recognition_results : list FaceRecognitionResult.t;
  face_embeddings : list FaceEmbedding.t
}.

Definition with_search_sessions (db : qr_db) (l : list QRSearchSession.t)
  : qr_db :=
  {| qr_codes := qr_codes db; search_sessions := l;
     search_images := search_images db;
     recognition_results := recognition_results db;
     face_embeddings := face_embeddings db |}.

Definition with_qr_codes (db : qr_db) (l : list QRCode.t) : qr_db :=
  {| qr_codes := l; search_sessions := search_sessions db;
     search_images := search_images db;
     recognition_results := recognition_results db;
     face_embeddings := face_embeddings db |}.

Definition with_search_images (db : qr_db) (l : list QRSearchImage.t) : qr_db :=
  {| qr_codes := qr_codes db; search_sessions := search_sessions db;
     search_images := l;
     recognition_results := recognition_results db;
     face_embeddings := face_embeddings db |}.

Definition with_recognition_results (db : qr_db)
    (l : list FaceRecognitionResult.t) : qr_db :=
  {| qr_codes := qr_codes db; search_sessions := search_sessions db;
     search_images := search_images db;
     recognition_results := l;
     face_embeddings := face_embeddings db |}.

Definition save_search_session := Table.save QRSearchSession.id.
Definition save_qr_code := Table.save QRCode.id.

(** ** Scanning a code *)

Inductive scan_response :=
| ScanInvalid                    (* 400, [serializer.errors] *)
| ScanNotUsable                  (* 400, from the view's own check *)
| ScanNotFound                   (* 404 *)
| ScanServerError                (* 500 *)
| ScanTokensExhausted            (* every drawn token was taken *)
| Scanned (session : QRSearchSession.t).

Definition has_code (code : String.string) (c : QRCode.t) : bool :=
  String.eqb (QRCode.code c) code.

(** [ScanQRCodeSerializer.is_valid()]; [None] when the lookup raises. *)
Definition ScanQRCodeSerializer_is_valid (db : qr_db) (now : datetime)
    (qr_code_text : String.string) : option bool :=
  if negb (Nat.leb (String.length qr_code_text) 50) then Some false
  else
    match Table.get (has_code qr_code_text) (qr_codes db) with
    | Table.MultipleObjectsReturned => None
    | Table.DoesNotExist => Some false
    | Table.Found qr_code => Some (QRCode.is_usable now qr_code)
    end.

(** [QRSearchSession.objects.create(...)]: primary key and token are
    unique columns. *)
Definition create_search_session (table : list QRSearchSession.t)
    (session : QRSearchSession.t) : option (list QRSearchSession.t) :=
  if existsb (fun s => N.eqb (QRSearchSession.id s) (QRSearchSession.id session) ||
                       String.eqb (QRSearchSession.session_token s)
                         (QRSearchSession.session_token session))
             table
  then None
  else Some (table ++ [session]).

(** [QRScanView.post]; [uuid4] and [draws] are the values drawn by
    [uuid.uuid4()] and by [secrets.token_urlsafe(32)]. *)
Definition QRScanView_post (db : qr_db) (now : datetime)
    (qr_code_text : String.string) (uuid4 : uuid) (draws : list String.string)
  : scan_response * qr_db :=
  match ScanQRCodeSerializer_is_valid db now qr_code_text with
  | None => (ScanServerError, db)
  | Some false => (ScanInvalid, db)
  | Some true =>
      match Table.get (has_code qr_code_text) (qr_codes db) with
      | Table.DoesNotExist => (ScanNotFound, db)
      | Table.MultipleObjectsReturned => (ScanServerError, db)
      | Table.Found qr_code =>
          if negb (QRCode.is_usable now qr_code) then (ScanNotUsable, db)
          else
            match QRSearchSession.generate_session_token draws
                    (search_sessions db) with
            | None => (ScanTokensExhausted, db)
            | Some session_token =>
                let expires_at := now + minutes 30 in
                let session :=
                  {| QRSearchSession.id := uuid4;
                     QRSearchSession.qr_code := QRCode.id qr_code;
                     QRSearchSession.session_token := session_token;
                     QRSearchSession.status := QRSearchSession.initiated;
                     QRSearchSession.created_at := now;
                     QRSearchSession.completed_at := None;
                     QRSearchSession.expires_at := expires_at;
                     QRSearchSession.search_result := None |} in
                match create_search_session (search_sessions db) session with
                | None => (ScanServerError, db)
                | Some table => (Scanned session, with_search_sessions db table)
                end
            end
      end
  end.

(** ** Uploading the image and searching *)

Module UploadedFile.
Record t := { name : String.string; size : Z }.
End UploadedFile.

Inductive search_response :=
| SearchInvalid                          (* 400, [serializer.errors] *)
| SearchNotFound                         (* 404 *)
| SearchExpired                          (* 400 *)
| SearchServerError                      (* 500, nothing caught it *)
| NoFaceDetected (session_id : uuid)     (* 400 *)
| SearchFailed (session_id : uuid)       (* 500, from the [except] branch *)
| SearchCompleted (session_id : uuid)
    (search_result : option FaceRecognitionResult.t).

Definition has_token (token : String.string) (s : QRSearchSession.t) : bool :=
  String.eqb (QRSearchSession.session_token s) token.

(** [status__in=['initiated', 'image_uploaded']] *)
Definition accepts_upload (s : QRSearchSession.t) : bool :=
  match QRSearchSession.status s with
  | QRSearchSession.initiated | QRSearchSession.image_uploaded => true
  | _ => false
  end.

(** [s.lower()], on ASCII letters. *)
Definition lower_ascii (c : Ascii.ascii) : Ascii.ascii :=
  let n := Ascii.nat_of_ascii c in
  if Nat.leb 65 n && Nat.leb n 90 then Ascii.ascii_of_nat (n + 32) else c.

Fixpoint lower (s : String.string) : String.string :=
  match s with
  | String.EmptyString => String.EmptyString
  | String.String c s' => String.String (lower_ascii c) (lower s')
  end.

(** [validate_image]: at most 10 MB and a JPEG or PNG file name. *)
Definition validate_image (value : UploadedFile.t) : bool :=
  negb (10 * 1024 * 1024 <? UploadedFile.size value) &&
  existsb (fun fmt => endswith (lower (UploadedFile.name value)) fmt)
          [".jpeg"; ".jpg"; ".png"]%string.

(** [FaceRecognitionResult.objects.create(...)]: [search_embedding] is a
    foreign key to [FaceEmbedding], so the INSERT is refused with an
    [IntegrityError], here [None], unless the embedding it names has been
    saved. *)
Definition FaceRecognitionResult_objects_create
    (table : list FaceRecognitionResult.t) (search_embedding_saved : bool)
    (row : FaceRecognitionResult.t) : option (list FaceRecognitionResult.t) :=
  if search_embedding_saved then Some (table ++ [row]) else None.

Section Search.
Variable crop : Type.
Variable yolo_model : String.string -> option (list Box.t).
Variable extract_face_crop : String.string -> list float -> option crop.
Variable generate_embedding : crop -> option vector.
(** What [ImageField] accepts. *)
Variable valid_image : UploadedFile.t -> bool.
(** [str(e)] of the [IntegrityError] the database raises. *)
Variable integrity_error_message : String.string.

(** [QRSearchRequestSerializer.is_valid()]; [None] when the lookup
    raises. *)
Definition QRSearchRequestSerializer_is_valid (db : qr_db) (now : datetime)
    (session_token : String.string) (image : UploadedFile.t) : option bool :=
  let image_ok := valid_image image && validate_image image in
  if negb (Nat.leb (String.length session_token) 100) then Some false
  else
    match Table.get (fun s => has_token session_token s && accepts_upload s)
            (search_sessions db) with
    | Table.MultipleObjectsReturned => None
    | Table.DoesNotExist => Some false
    | Table.Found session =>
        Some (negb (QRSearchSession.is_expired now session) && image_ok)
    end.

(** [QRSearchView.post]; [processing_time] is the time the clock
    measures between the two calls of [time.time()]. *)
Definition QRSearchView_post (db : qr_db) (now : datetime)
    (session_token : String.string) (image_file : UploadedFile.t)
    (processing_time : float)
  : search_response * qr_db :=
  match QRSearchRequestSerializer_is_valid db now session_token image_file with
  | None => (SearchServerError, db)
  | Some false => (SearchInvalid, db)
  | Some true =>
      match Table.get (has_token session_token) (search_sessions db) with
      | Table.DoesNotExist => (SearchNotFound, db)
      | Table.MultipleObjectsReturned => (SearchServerError, db)
      | Table.Found session =>
          if QRSearchSession.is_expired now session then
            let session :=
              QRSearchSession.set_status session QRSearchSession.expired in
            (SearchExpired,
             with_search_sessions db
               (save_search_session session (search_sessions db)))
          else
            (* Update session status *)
            let session :=
              QRSearchSession.set_status session QRSearchSession.processing in
            let db :=
              with_search_sessions db
                (save_search_session session (search_sessions db)) in
            (* The search image record, as it is last saved *)
            let search_image (st : QRSearchImage.status_t) (face : bool)
                  (time : option float) (err : option String.string) :=
              {| QRSearchImage.session := QRSearchSession.id session;
                 QRSearchImage.image := UploadedFile.name image_file;
                 QRSearchImage.status := st;
                 QRSearchImage.face_detected := face;
                 QRSearchImage.processing_time := time;
                 QRSearchImage.error_message := err |} in
            match process_search_image crop yolo_model extract_face_crop
                    generate_embedding (UploadedFile.name image_file) with
            | None =>
                let db :=
                  with_search_images db
                    (search_images db ++
                     [search_image QRSearchImage.failed false None
                        (Some "No pet face detected"%string)]) in
                let session :=
                  QRSearchSession.set_status session QRSearchSession.failed in
                (NoFaceDetected (QRSearchSession.id session),
                 with_search_sessions db
                   (save_search_session session (search_sessions db)))
            | Some query_embedding =>
                (* Find similar pets *)
                let matches :=
                  find_similar_pets (face_embeddings db) query_embedding 5 in
                (* Create recognition result if match found; [None] when
                   the create raises *)
                let created :=
                  match matches with
                  | [] => Some (None, recognition_results db)
                  | best_match :: _ =>
                      (* built here and never saved *)
                      let temp_embedding :=
                        FaceEmbedding.set_embedding_vector
                          {| FaceEmbedding.pet := None;
                             FaceEmbedding.embedding_vector := [];
                             FaceEmbedding.embedding_model := "qr_search"%string;
                             FaceEmbedding.vector_dimension :=
                               Z.of_nat (length query_embedding);
                             FaceEmbedding.status := FaceEmbedding.completed;
                             FaceEmbedding.source_images_count := 0 |}
                          query_embedding in
                      let search_result :=
                        {| FaceRecognitionResult.search_embedding :=
                             temp_embedding;
                           FaceRecognitionResult.matched_pet :=
                             Match.pet best_match;
                           FaceRecognitionResult.matched_embedding :=
                             Some (Match.embedding best_match);
                           FaceRecognitionResult.similarity_score :=
                             Match.similarity best_match;
                           FaceRecognitionResult.confidence_level :=
                             Match.confidence_level best_match;
                           FaceRecognitionResult.rank := 1 |} in
                      match FaceRecognitionResult_objects_create
                              (recognition_results db) false search_result with
                      | None => None
                      | Some table => Some (Some search_result, table)
                      end
                  end in
                match created with
                | None =>
                    (* the [except] branch: the image was saved as
                       [completed] before the create, and is saved again *)
                    let db :=
                      with_search_images db
                        (search_images db ++
                         [search_image QRSearchImage.failed true
                            (Some processing_time)
                            (Some integrity_error_message)]) in
                    let session :=
                      QRSearchSession.set_status session
                        QRSearchSession.failed in
                    (SearchFailed (QRSearchSession.id session),
                     with_search_sessions db
                       (save_search_session session (search_sessions db)))
                | Some (search_result, table) =>
                let db :=
                  match search_result with
                  | Some _ => with_recognition_results db table
                  | None => db
                  end in
                let session :=
                  match search_result with
                  | Some _ =>
                      QRSearchSession.set_search_result session search_result
                  | None => session
                  end in
                (* Mark QR code as used *)
                match find (fun c => N.eqb (QRCode.id c)
                                       (QRSearchSession.qr_code session))
                           (qr_codes db) with
                | None =>
                    (* the [except] branch *)
                    let db :=
                      with_search_images db
                        (search_images db ++
                         [search_image QRSearchImage.failed true
                            (Some processing_time)
                            (Some "QRCode matching query does not exist."%string)]) in
                    let session :=
                      QRSearchSession.set_status session
                        QRSearchSession.failed in
                    (SearchFailed (QRSearchSession.id session),
                     with_search_sessions db
                       (save_search_session session (search_sessions db)))
                | Some qr_code =>
                    let db :=
                      with_search_images db
                        (search_images db ++
                         [search_image QRSearchImage.completed true
                            (Some processing_time) None]) in
                    let db :=
                      with_qr_codes db
                        (save_qr_code (QRCode.mark_as_used now qr_code)
                           (qr_codes db)) in
                    (* Complete session *)
                    let session :=
                      QRSearchSession.set_completed_at
                        (QRSearchSession.set_status session
                           QRSearchSession.completed)
                        (Some now) in
                    (SearchCompleted (QRSearchSession.id session) search_result,
                     with_search_sessions db
                       (save_search_session session (search_sessions db)))
                end
                end
            end
      end
  end.
End Search.

End QRViews.

(* ===================================================================== *)
(** * Properties of qr_search *)
(* ===================================================================== *)

Module QRFacts.
Import Float64 Services QRViews.

(** ** Tables *)

Lemma filter_andb {A : Type} (p q : A -> bool) (l : list A) :
  filter (fun x => p x && q x) l = filter q (filter p l).
Proof.
  induction l as [|a l IH]; simpl; [reflexivity|].
  destruct (p a); simpl; [|exact IH]. destruct (q a); now rewrite IH.
Qed.

Lemma filter_none {A : Type} (p : A -> bool) (l : list A) :
  (forall y, In y l -> p y = false) -> filter p l = [].
Proof.
  induction l as [|a l IH]; simpl; intros H; [reflexivity|].
  rewrite (H a (or_introl eq_refl)). apply IH. intros y Hy. apply H. now right.
Qed.

Lemma get_found {A : Type} (p : A -> bool) (l : list A) (x : A) :
  Table.get p l = Table.Found x ->
  In x l /\ p x = true /\ forall y, In y l -> p y = true -> y = x.
Proof.
  unfold Table.get. destruct (filter p l) as [|a [|b r]] eqn:E;
    try discriminate.
  intros [= ->].
  assert (Hx : In x (filter p l)) by (rewrite E; now left).
  apply filter_In in Hx as [Hin Hp]. repeat split; try assumption.
  intros y Hy Hpy.
  assert (Hy' : In y (filter p l)) by now apply filter_In.
  rewrite E in Hy'. destruct Hy' as [<-|[]]. reflexivity.
Qed.

Lemma get_refine {A : Type} (p q : A -> bool) (l : list A) (x y : A) :
  Table.get p l = Table.Found x ->
  Table.get (fun s => p s && q s) l = Table.Found y ->
  y = x /\ q x = true.
Proof.
  unfold Table.get. rewrite filter_andb.
  destruct (filter p l) as [|a [|b r]]; try discriminate.
  intros [= ->]. simpl. destruct (q x); [|discriminate].
  intros [= ->]. split; reflexivity.
Qed.

Lemma get_does_not_exist {A : Type} (p : A -> bool) (l : list A) :
  (forall y, In y l -> p y = false) -> Table.get p l = Table.DoesNotExist.
Proof.
  intros H. unfold Table.get. now rewrite filter_none.
Qed.

(** With a unique key, looking a row up by its key finds it. *)
Lemma get_by_unique_key {A K : Type} (key : A -> K) (eqb : K -> K -> bool)
    (l : list A) (x : A) :
  (forall a b, eqb a b = true <-> a = b) ->
  NoDup (map key l) -> In x l ->
  Table.get (fun r => eqb (key r) (key x)) l = Table.Found x.
Proof.
  intros Heqb Hnd Hin. unfold Table.get.
  induction l as [|a l IH]; [contradiction|]. simpl in *.
  inversion Hnd as [|? ? Hnotin Hnd']; subst.
  destruct Hin as [->|Hin].
  - rewrite (proj2 (Heqb _ _) eq_refl).
    rewrite filter_none; [reflexivity|].
    intros y Hy. apply not_true_is_false. intros E. apply Heqb in E.
    apply Hnotin. rewrite <- E. now apply in_map.
  - destruct (eqb (key a) (key x)) eqn:E.
    + apply Heqb in E. exfalso. apply Hnotin. rewrite E. now apply in_map.
    + now apply IH.
Qed.

Lemma save_map_key {A : Type} (pk : A -> uuid) (row : A) (l : list A) :
  map pk (Table.save pk row l) = map pk l.
Proof.
  unfold Table.save. rewrite map_map. apply map_ext. intros r.
  destruct (N.eqb_spec (pk r) (pk row)); congruence.
Qed.

Lemma save_save {A : Type} (pk : A -> uuid) (r1 r2 : A) (l : list A) :
  pk r1 = pk r2 ->
  Table.save pk r2 (Table.save pk r1 l) = Table.save pk r2 l.
Proof.
  intros H. unfold Table.save. rewrite map_map. apply map_ext. intros r.
  destruct (N.eqb_spec (pk r) (pk r1)) as [E|E].
  - rewrite H, N.eqb_refl. rewrite E, H, N.eqb_refl. reflexivity.
  - reflexivity.
Qed.

Lemma save_in_other {A : Type} (pk : A -> uuid) (row s : A) (l : list A) :
  In s l -> pk s <> pk row -> In s (Table.save pk row l).
Proof.
  intros Hin Hne. unfold Table.save. apply in_map_iff. exists s.
  split; [|exact Hin]. destruct (N.eqb_spec (pk s) (pk row)); congruence.
Qed.

Lemma save_in_row {A : Type} (pk : A -> uuid) (row x : A) (l : list A) :
  In x l -> pk x = pk row -> In row (Table.save pk row l).
Proof.
  intros Hin He. unfold Table.save. apply in_map_iff. exists x.
  split; [|exact Hin]. now rewrite He, N.eqb_refl.
Qed.

(** Saving a row that agrees with the stored one on a column leaves the
    column as it is. *)
Lemma save_map_column {A B : Type} (pk : A -> uuid) (col : A -> B)
    (row x : A) (l : list A) :
  NoDup (map pk l) -> In x l -> pk row = pk x -> col row = col x ->
  map col (Table.save pk row l) = map col l.
Proof.
  intros Hnd Hin Hpk Hcol. unfold Table.save. rewrite map_map.
  apply map_ext_in. intros r Hr.
  destruct (N.eqb_spec (pk r) (pk row)) as [E|E]; [|reflexivity].
  rewrite Hcol. f_equal. symmetry.
  apply (PetsFacts.unique_by_key pk l r x Hnd Hr Hin). congruence.
Qed.

(** ** QR search sessions *)

(** The statuses a session ends in. *)
Definition terminal (st : QRSearchSession.status_t) : bool :=
  match st with
  | QRSearchSession.completed | QRSearchSession.failed
  | QRSearchSession.expired => true
  | _ => false
  end.

(** Primary keys and tokens of the sessions are unique. *)
Definition sessions_unique (db : qr_db) : Prop :=
  NoDup (map QRSearchSession.id (search_sessions db)) /\
  NoDup (map QRSearchSession.session_token (search_sessions db)).

Section SearchFacts.
Variable crop : Type.
Variable yolo_model : String.string -> option (list Box.t).
Variable extract_face_crop : String.string -> list float -> option crop.
Variable generate_embedding : crop -> option vector.
Variable valid_image : UploadedFile.t -> bool.
Variable integrity_error_message : String.string.

Local Abbreviation QRSearchRequestSerializer_is_valid := (QRSearchRequestSerializer_is_valid valid_image).
Local Abbreviation QRSearchView_post :=
  (QRSearchView_post crop yolo_model extract_face_crop generate_embedding
     valid_image integrity_error_message).
Local Abbreviation process_search_image :=
  (process_search_image crop yolo_model extract_face_crop generate_embedding).

(** The session the view loads has passed the serializer's checks. *)
Lemma search_valid_found (db : qr_db) (now : datetime)
    (session_token : String.string) (image : UploadedFile.t)
    (x : QRSearchSession.t) :
  QRSearchRequestSerializer_is_valid db now session_token image = Some true ->
  Table.get (has_token session_token) (search_sessions db) = Table.Found x ->
  accepts_upload x = true /\ QRSearchSession.is_expired now x = false.
Proof.
  unfold QRViews.QRSearchRequestSerializer_is_valid. intros V G.
  destruct (negb (Nat.leb _ 100)); [discriminate|].
  destruct (Table.get (fun s => _ && _) _) as [y| |] eqn:G';
    try discriminate.
  destruct (get_refine _ _ _ _ _ G G') as [-> Hacc].
  split; [exact Hacc|]. injection V as V.
  apply andb_prop in V as [V _]. now apply negb_true_iff in V.
Qed.

(** A request either leaves the session table alone or saves one session,
    which accepted uploads before and is in a final status after. *)
Lemma QRSearchView_post_sessions (db : qr_db) (now : datetime)
    (session_token : String.string) (image : UploadedFile.t)
    (processing_time : float) :
  let db' := snd (QRSearchView_post db now session_token image processing_time) in
  search_sessions db' = search_sessions db \/
  exists x x',
    Table.get (has_token session_token) (search_sessions db) = Table.Found x /\
    accepts_upload x = true /\
    QRSearchSession.id x' = QRSearchSession.id x /\
    QRSearchSession.session_token x' = QRSearchSession.session_token x /\
    terminal (QRSearchSession.status x') = true /\
    search_sessions db' = save_search_session x' (search_sessions db).
Proof.
  unfold QRViews.QRSearchView_post.
  destruct (QRSearchRequestSerializer_is_valid db now session_token image) as [[|]|] eqn:V;
    [|now left|now left].
  destruct (Table.get (has_token session_token) (search_sessions db))
    as [x| |] eqn:G; [|now left|now left].
  destruct (search_valid_found _ _ _ _ _ V G) as [Hacc Hexp].
  rewrite Hexp. right. exists x.
  destruct (process_search_image (UploadedFile.name image)) as [q|];
    [cbn zeta; destruct (find_similar_pets _ _ _) as [|best ?];
     cbn [qr_codes with_search_sessions with_search_images
          with_recognition_results search_sessions
          FaceRecognitionResult_objects_create];
     [destruct (find _ (qr_codes db)) as [c|]|]|];
    cbn [snd search_sessions with_search_sessions with_search_images
         with_recognition_results with_qr_codes];
    match goal with
    | |- context [save_search_session ?r (save_search_session _ _)] =>
        exists r
    end;
    (split; [reflexivity|]); (split; [exact Hacc|]);
    (split; [reflexivity|]); (split; [reflexivity|]);
    (split; [reflexivity|]);
    unfold save_search_session; now rewrite save_save.
Qed.
(** The serializer turns down every upload for a session in a final
    status. *)
Lemma QRSearchView_post_terminal (db : qr_db) (s : QRSearchSession.t)
    (now : datetime) (image : UploadedFile.t) (processing_time : float) :
  sessions_unique db -> In s (search_sessions db) ->
  terminal (QRSearchSession.status s) = true ->
  QRSearchView_post db now (QRSearchSession.session_token s) image
    processing_time = (SearchInvalid, db).
Proof.
  intros [_ Htok] Hin Hterm. unfold QRViews.QRSearchView_post.
  replace (QRSearchRequestSerializer_is_valid db now (QRSearchSession.session_token s) image)
    with (Some false); [reflexivity|].
  unfold QRViews.QRSearchRequestSerializer_is_valid.
  destruct (negb (Nat.leb _ 100)); [reflexivity|].
  rewrite get_does_not_exist; [reflexivity|].
  intros y Hy. destruct (has_token _ y) eqn:E; [|reflexivity].
  apply String.eqb_eq in E.
  rewrite (PetsFacts.unique_by_key _ _ _ _ Htok Hy Hin E).
  unfold accepts_upload. simpl.
  now destruct (QRSearchSession.status s).
Qed.

Lemma QRSearchView_post_unique (db : qr_db) (now : datetime)
    (session_token : String.string) (image : UploadedFile.t)
    (processing_time : float) :
  sessions_unique db ->
  sessions_unique
    (snd (QRSearchView_post db now session_token image processing_time)).
Proof.
  intros [Hid Htok].
  destruct (QRSearchView_post_sessions db now session_token image
              processing_time) as [E|[x [x' [G [_ [Ei [Et [_ E]]]]]]]];
    unfold sessions_unique; rewrite E; [now split|].
  apply get_found in G as [Hin _]. unfold save_search_session. split.
  - now rewrite save_map_key.
  - now rewrite (save_map_column _ _ x' x).
Qed.

Lemma QRSearchView_post_keeps (db : qr_db) (s : QRSearchSession.t)
    (now : datetime) (session_token : String.string)
    (image : UploadedFile.t) (processing_time : float) :
  sessions_unique db -> In s (search_sessions db) ->
  accepts_upload s = false ->
  In s (search_sessions
          (snd (QRSearchView_post db now session_token image processing_time))).
Proof.
  intros [Hid _] Hin Hs.
  destruct (QRSearchView_post_sessions db now session_token image
              processing_time) as [E|[x [x' [G [Hacc [Ei [_ [_ E]]]]]]]];
    rewrite E; [exact Hin|].
  apply get_found in G as [Hx _].
  apply save_in_other; [exact Hin|]. rewrite Ei. intros Heq.
  rewrite (PetsFacts.unique_by_key _ _ _ _ Hid Hin Hx Heq) in Hs. congruence.
Qed.

(** A session that a request saves accepted uploads before and is in a
    final status after: the status only moves forward. *)
Lemma QRSearchView_post_forward (db : qr_db) (now : datetime)
    (session_token : String.string) (image : UploadedFile.t)
    (processing_time : float) (s' : QRSearchSession.t) :
  In s' (search_sessions
           (snd (QRSearchView_post db now session_token image processing_time))) ->
  In s' (search_sessions db) \/
  (terminal (QRSearchSession.status s') = true /\
   exists x, In x (search_sessions db) /\
             QRSearchSession.id x = QRSearchSession.id s' /\
             accepts_upload x = true).
Proof.
  destruct (QRSearchView_post_sessions db now session_token image
              processing_time) as [E|[x [x' [G [Hacc [Ei [_ [Ht E]]]]]]]];
    rewrite E; [now left|].
  apply get_found in G as [Hx _].
  unfold save_search_session, Table.save. intros H.
  apply in_map_iff in H as [r [Hr Hin]].
  destruct (N.eqb (QRSearchSession.id r) (QRSearchSession.id x')).
  - subst s'. right. split; [exact Ht|]. exists x. now repeat split.
  - subst s'. now left.
Qed.
End SearchFacts.

(** A scan adds at most one session, with a key and a token of its own. *)
Lemma QRScanView_post_sessions (db : qr_db) (now : datetime)
    (qr_code_text : String.string) (uuid4 : uuid) (draws : list String.string) :
  let db' := snd (QRScanView_post db now qr_code_text uuid4 draws) in
  search_sessions db' = search_sessions db \/
  exists s,
    search_sessions db' = search_sessions db ++ [s] /\
    ~ In (QRSearchSession.id s) (map QRSearchSession.id (search_sessions db)) /\
    ~ In (QRSearchSession.session_token s)
         (map QRSearchSession.session_token (search_sessions db)).
Proof.
  unfold QRScanView_post.
  destruct (ScanQRCodeSerializer_is_valid db now qr_code_text) as [[|]|]; try now left.
  destruct (Table.get _ (qr_codes db)) as [c| |]; try now left.
  destruct (negb (QRCode.is_usable now c)); [now left|].
  destruct (QRSearchSession.generate_session_token _ _) as [token|];
    [|now left].
  unfold create_search_session.
  destruct (existsb _ (search_sessions db)) eqn:E; [now left|].
  right. eexists. split; [reflexivity|]. cbn.
  apply not_true_iff_false in E.
  split; intros Hin; apply in_map_iff in Hin as [y [Hy Hin]]; apply E;
    apply existsb_exists; exists y; (split; [exact Hin|]); cbn; rewrite Hy.
  - now rewrite N.eqb_refl.
  - rewrite String.eqb_refl. apply orb_true_r.
Qed.

Lemma NoDup_snoc {K : Type} (l : list K) (k : K) :
  NoDup l -> ~ In k l -> NoDup (l ++ [k]).
Proof.
  intros Hl Hk. apply NoDup_app; [exact Hl|repeat constructor; auto|].
  intros x Hx [<-|[]]. contradiction.
Qed.

Lemma QRScanView_post_unique (db : qr_db) (now : datetime)
    (qr_code_text : String.string) (uuid4 : uuid) (draws : list String.string) :
  sessions_unique db ->
  sessions_unique (snd (QRScanView_post db now qr_code_text uuid4 draws)).
Proof.
  intros [Hid Htok].
  destruct (QRScanView_post_sessions db now qr_code_text uuid4 draws)
    as [E|[s [E [Hi Ht]]]]; unfold sessions_unique; rewrite E;
    [now split|].
  rewrite !map_app. simpl. split; now apply NoDup_snoc.
Qed.

(** The requests of the QR flow, with what each run draws and measures. *)
Inductive request :=
| ScanRequest (now : datetime) (qr_code_text : String.string) (uuid4 : uuid)
    (draws : list String.string)
| SearchRequest (now : datetime) (session_token : String.string)
    (image : UploadedFile.t) (processing_time : float).

Section Traces.
Variable crop : Type.
Variable yolo_model : String.string -> option (list Box.t).
Variable extract_face_crop : String.string -> list float -> option crop.
Variable generate_embedding : crop -> option vector.
Variable valid_image : UploadedFile.t -> bool.
Variable integrity_error_message : String.string.

Local Abbreviation QRSearchView_post :=
  (QRSearchView_post crop yolo_model extract_face_crop generate_embedding
     valid_image integrity_error_message).

(** The database after a request, and after a list of them. *)
Definition handle (db : qr_db) (r : request) : qr_db :=
  match r with
  | ScanRequest now qr_code_text uuid4 draws =>
      snd (QRScanView_post db now qr_code_text uuid4 draws)
  | SearchRequest now session_token image processing_time =>
      snd (QRSearchView_post db now session_token image processing_time)
  end.

Definition run (requests : list request) (db : qr_db) : qr_db :=
  fold_left handle requests db.

Lemma accepts_upload_terminal (s : QRSearchSession.t) :
  terminal (QRSearchSession.status s) = true -> accepts_upload s = false.
Proof.
  unfold accepts_upload. now destruct (QRSearchSession.status s).
Qed.

Lemma handle_keeps (db : qr_db) (r : request) (s : QRSearchSession.t) :
  sessions_unique db -> In s (search_sessions db) ->
  terminal (QRSearchSession.status s) = true ->
  sessions_unique (handle db r) /\ In s (search_sessions (handle db r)).
Proof.
  intros Hu Hin Ht. destruct r as [now code uuid4 draws|now token image pt];
    simpl.
  - split; [now apply QRScanView_post_unique|].
    destruct (QRScanView_post_sessions db now code uuid4 draws)
      as [E|[s' [E _]]]; rewrite E; [exact Hin|].
    apply in_or_app. now left.
  - split; [now apply QRSearchView_post_unique|].
    apply QRSearchView_post_keeps; try assumption.
    now apply accepts_upload_terminal.
Qed.

(** C6.  Once a session is [completed], [failed] or [expired], it stays in
    the table as it is through any later scans and uploads, and every
    upload that names its token is turned down without a write.  Overall a
    session that an upload request saves accepted uploads before the
    request and is in one of the three final statuses after it. *)
Theorem terminal_session_accepts_no_upload (db : qr_db)
    (s : QRSearchSession.t) (requests : list request) :
  sessions_unique db -> In s (search_sessions db) ->
  terminal (QRSearchSession.status s) = true ->
  let db' := run requests db in
  In s (search_sessions db') /\
  (forall now image processing_time,
     QRSearchView_post db' now (QRSearchSession.session_token s) image
       processing_time = (SearchInvalid, db')) /\
  (forall db0 now session_token image processing_time s',
     In s' (search_sessions
              (snd (QRSearchView_post db0 now session_token image
                      processing_time))) ->
     In s' (search_sessions db0) \/
     (terminal (QRSearchSession.status s') = true /\
      exists x, In x (search_sessions db0) /\
                QRSearchSession.id x = QRSearchSession.id s' /\
                accepts_upload x = true)).
Proof.
  intros Hu Hin Ht db'. subst db'.
  assert (H : sessions_unique (run requests db) /\
              In s (search_sessions (run requests db))).
  { revert db Hu Hin. unfold run.
    induction requests as [|r rest IH]; intros db Hu Hin; simpl.
    - now split.
    - destruct (handle_keeps db r s Hu Hin Ht) as [Hu' Hin'].
      now apply IH. }
  destruct H as [Hu' Hin']. split; [exact Hin'|]. split.
  - intros now image pt. now apply QRSearchView_post_terminal.
  - intros db0 now token image pt s'. apply QRSearchView_post_forward.
Qed.
End Traces.

(** ** QR codes *)

Lemma string_eqb_eq (a b : String.string) : String.eqb a b = true <-> a = b.
Proof. apply String.eqb_eq. Qed.

Lemma is_usable_spec (now : datetime) (c : QRCode.t) :
  QRCode.is_usable now c = true <->
  QRCode.status c = QRCode.active /\ now <= QRCode.expires_at c /\
  QRCode.usage_count c < QRCode.max_usage c.
Proof.
  unfold QRCode.is_usable, QRCode.is_expired.
  rewrite !andb_true_iff, negb_true_iff, Z.ltb_ge, Z.ltb_lt.
  destruct (QRCode.status c); simpl; intuition discriminate.
Qed.

Lemma mark_as_used_spec (now : datetime) (c : QRCode.t) :
  QRCode.usage_count (QRCode.mark_as_used now c) = QRCode.usage_count c + 1 /\
  (QRCode.max_usage c <= QRCode.usage_count c + 1 ->
   QRCode.status (QRCode.mark_as_used now c) = QRCode.used) /\
  (QRCode.usage_count c + 1 < QRCode.max_usage c ->
   QRCode.status (QRCode.mark_as_used now c) = QRCode.status c).
Proof.
  unfold QRCode.mark_as_used. simpl. split; [reflexivity|]. split; intros H.
  - now rewrite (proj2 (Z.leb_le _ _) H).
  - now rewrite (proj2 (Z.leb_gt _ _) H).
Qed.

(** A code that is not usable is turned down at the scan. *)
Lemma QRScanView_post_not_usable (db : qr_db) (c : QRCode.t) (now : datetime)
    (uuid4 : uuid) (draws : list String.string) :
  NoDup (map QRCode.code (qr_codes db)) -> In c (qr_codes db) ->
  QRCode.is_usable now c = false ->
  QRScanView_post db now (QRCode.code c) uuid4 draws = (ScanInvalid, db).
Proof.
  intros Hnd Hin Hu. unfold QRScanView_post, ScanQRCodeSerializer_is_valid.
  destruct (negb (Nat.leb _ 50)); [reflexivity|].
  unfold has_code.
  rewrite (get_by_unique_key QRCode.code String.eqb _ c string_eqb_eq Hnd Hin).
  now rewrite Hu.
Qed.

Section CodeFacts.
Variable crop : Type.
Variable yolo_model : String.string -> option (list Box.t).
Variable extract_face_crop : String.string -> list float -> option crop.
Variable generate_embedding : crop -> option vector.
Variable valid_image : UploadedFile.t -> bool.
Variable integrity_error_message : String.string.

Local Abbreviation QRSearchRequestSerializer_is_valid := (QRSearchRequestSerializer_is_valid valid_image).
Local Abbreviation QRSearchView_post :=
  (QRSearchView_post crop yolo_model extract_face_crop generate_embedding
     valid_image integrity_error_message).
Local Abbreviation process_search_image :=
  (process_search_image crop yolo_model extract_face_crop generate_embedding).

(** An upload for a session that accepts uploads and has not expired, with
    an image the serializer accepts. *)
Definition acceptable_upload (db : qr_db) (now : datetime)
    (x : QRSearchSession.t) (image : UploadedFile.t) : Prop :=
  sessions_unique db /\ In x (search_sessions db) /\
  accepts_upload x = true /\ QRSearchSession.is_expired now x = false /\
  Nat.leb (String.length (QRSearchSession.session_token x)) 100 = true /\
  valid_image image && validate_image image = true.

Lemma acceptable_upload_valid (db : qr_db) (now : datetime)
    (x : QRSearchSession.t) (image : UploadedFile.t) :
  acceptable_upload db now x image ->
  QRSearchRequestSerializer_is_valid db now (QRSearchSession.session_token x) image = Some true /\
  Table.get (has_token (QRSearchSession.session_token x)) (search_sessions db) =
    Table.Found x.
Proof.
  intros [[_ Htok] [Hin [Hacc [Hexp [Hlen Himg]]]]].
  assert (G : Table.get (has_token (QRSearchSession.session_token x))
                (search_sessions db) = Table.Found x).
  { unfold has_token.
    apply (get_by_unique_key QRSearchSession.session_token String.eqb _ x
             string_eqb_eq Htok Hin). }
  split; [|exact G]. unfold QRViews.QRSearchRequestSerializer_is_valid.
  rewrite Hlen. simpl negb. cbv iota.
  unfold Table.get in *. rewrite filter_andb.
  destruct (filter (has_token _) (search_sessions db)) as [|a [|b r]];
    try discriminate.
  injection G as ->. simpl. rewrite Hacc, Hexp, Himg. reflexivity.
Qed.

(** No face among the detections: no query embedding. *)
Lemma process_search_image_no_face (image_file : String.string) :
  filter is_face_detection (detect_pet_faces yolo_model image_file) = [] ->
  process_search_image image_file = None.
Proof. intros H. unfold Services.process_search_image. now rewrite H. Qed.

(** When no query embedding comes out of the image, the session is saved
    as [failed] and the table of QR codes is not written. *)
Lemma QRSearchView_post_no_embedding (db : qr_db) (now : datetime)
    (x : QRSearchSession.t) (image : UploadedFile.t) (processing_time : float) :
  acceptable_upload db now x image ->
  process_search_image (UploadedFile.name image) = None ->
  let r := QRSearchView_post db now (QRSearchSession.session_token x) image
             processing_time in
  fst r = NoFaceDetected (QRSearchSession.id x) /\
  qr_codes (snd r) = qr_codes db /\
  search_sessions (snd r) =
    save_search_session (QRSearchSession.set_status x QRSearchSession.failed)
      (search_sessions db) /\
  In (QRSearchSession.set_status x QRSearchSession.failed)
     (search_sessions (snd r)).
Proof.
  intros Hok Hnone.
  destruct (acceptable_upload_valid _ _ _ _ Hok) as [V G].
  destruct Hok as [_ [Hin [_ [Hexp _]]]].
  unfold QRViews.QRSearchView_post. rewrite V, G, Hexp, Hnone.
  cbn [fst snd qr_codes search_sessions with_search_sessions
       with_search_images].
  unfold save_search_session. rewrite save_save by reflexivity.
  repeat split. now apply save_in_row with (x := x).
Qed.

(** C8.  An accepted upload in whose image no pet face is detected: the
    request is answered with the no-face error, the session is saved as
    [failed], and the table of QR codes is left as it is, so the code of
    the session keeps its usage counter and its status. *)
Theorem no_face_fails_session_keeps_code (db : qr_db) (now : datetime)
    (x : QRSearchSession.t) (image : UploadedFile.t) (processing_time : float) :
  acceptable_upload db now x image ->
  filter is_face_detection
    (detect_pet_faces yolo_model (UploadedFile.name image)) = [] ->
  let r := QRSearchView_post db now (QRSearchSession.session_token x) image
             processing_time in
  fst r = NoFaceDetected (QRSearchSession.id x) /\
  In (QRSearchSession.set_status x QRSearchSession.failed)
     (search_sessions (snd r)) /\
  qr_codes (snd r) = qr_codes db /\
  forall c, In c (qr_codes db) ->
            QRCode.id c = QRSearchSession.qr_code x ->
            In c (qr_codes (snd r)).
Proof.
  intros Hok Hface r.
  destruct (QRSearchView_post_no_embedding db now x image processing_time Hok
              (process_search_image_no_face _ Hface)) as [H1 [H2 [_ H4]]].
  fold r in H1, H2, H4. repeat split; try assumption.
  intros c Hc _. now rewrite H2.
Qed.

(** The code a session points to, found by its key. *)
Lemma find_session_code (codes : list QRCode.t) (c : QRCode.t) (pk : uuid) :
  NoDup (map QRCode.id codes) -> In c codes -> QRCode.id c = pk ->
  find (fun c0 => N.eqb (QRCode.id c0) pk) codes = Some c.
Proof.
  intros Hids Hc Hfk.
  destruct (find _ codes) as [c0|] eqn:F.
  - apply find_some in F as [Hc0 E]. apply N.eqb_eq in E. f_equal.
    apply (PetsFacts.unique_by_key QRCode.id _ _ _ Hids Hc0 Hc). congruence.
  - exfalso. pose proof (find_none _ _ F c Hc) as E. cbv beta in E.
    rewrite Hfk, N.eqb_refl in E. discriminate.
Qed.

(** An accepted upload whose image gives a query embedding.  When no stored
    template matches, the code of the session is marked as used and the
    session is completed without a result.  When some template matches,
    the create of the recognition result raises: the search image and the
    session are saved as [failed], and neither the codes nor the results
    are written. *)
Lemma QRSearchView_post_embedding (db : qr_db) (now : datetime)
    (x : QRSearchSession.t) (image : UploadedFile.t) (processing_time : float)
    (query_embedding : vector) :
  acceptable_upload db now x image ->
  process_search_image (UploadedFile.name image) = Some query_embedding ->
  let r := QRSearchView_post db now (QRSearchSession.session_token x) image
             processing_time in
  let search_image st err :=
    {| QRSearchImage.session := QRSearchSession.id x;
       QRSearchImage.image := UploadedFile.name image;
       QRSearchImage.status := st;
       QRSearchImage.face_detected := true;
       QRSearchImage.processing_time := Some processing_time;
       QRSearchImage.error_message := err |} in
  (find_similar_pets (face_embeddings db) query_embedding 5 = [] ->
   forall c,
     find (fun c0 => N.eqb (QRCode.id c0) (QRSearchSession.qr_code x))
          (qr_codes db) = Some c ->
     r = (SearchCompleted (QRSearchSession.id x) None,
          {| qr_codes := save_qr_code (QRCode.mark_as_used now c) (qr_codes db);
             search_sessions :=
               save_search_session
                 (QRSearchSession.set_completed_at
                    (QRSearchSession.set_status x QRSearchSession.completed)
                    (Some now))
                 (search_sessions db);
             search_images :=
               search_images db ++ [search_image QRSearchImage.completed None];
             recognition_results := recognition_results db;
             face_embeddings := face_embeddings db |})) /\
  (find_similar_pets (face_embeddings db) query_embedding 5 <> [] ->
   r = (SearchFailed (QRSearchSession.id x),
        {| qr_codes := qr_codes db;
           search_sessions :=
             save_search_session
               (QRSearchSession.set_status x QRSearchSession.failed)
               (search_sessions db);
           search_images :=
             search_images db ++
             [search_image QRSearchImage.failed (Some integrity_error_message)];
           recognition_results := recognition_results db;
           face_embeddings := face_embeddings db |})).
Proof.
  intros Hok Hq r search_image. subst r.
  destruct (acceptable_upload_valid _ _ _ _ Hok) as [V G].
  destruct Hok as [_ [Hin [_ [Hexp _]]]].
  unfold QRViews.QRSearchView_post. rewrite V, G, Hexp, Hq. cbn zeta.
  cbn [face_embeddings with_search_sessions with_search_images].
  destruct (find_similar_pets (face_embeddings db) query_embedding 5)
    as [|best rest].
  - split; [|congruence]. intros _ c Hfind.
    cbn [qr_codes with_search_sessions with_search_images
         with_recognition_results search_sessions
         QRSearchSession.qr_code QRSearchSession.set_status].
    rewrite Hfind.
    cbn [qr_codes with_search_sessions with_search_images with_qr_codes
         with_recognition_results search_sessions search_images
         recognition_results face_embeddings QRSearchSession.id
         QRSearchSession.set_status QRSearchSession.set_completed_at].
    unfold save_search_session. rewrite save_save by reflexivity.
    reflexivity.
  - split; [discriminate|]. intros _.
    cbn [FaceRecognitionResult_objects_create
         qr_codes with_search_sessions with_search_images with_qr_codes
         with_recognition_results search_sessions search_images
         recognition_results face_embeddings QRSearchSession.id
         QRSearchSession.set_status].
    unfold save_search_session. rewrite save_save by reflexivity.
    reflexivity.
Qed.

(** C7, amended.  A code is usable iff its status is [active], the time
    is not past its expiry and its usage counter is below its cap.  Marking
    it as used adds one to the counter and sets the status to [used] when
    the counter has reached the cap.  So after a search that completes on a
    session of a code with cap 1 and counter 0 the code is [used] with
    counter 1, and every later scan of it is turned down.  A search on an
    image with a face completes when no stored template matches it; when
    one matches, the request fails and the code is left as it was. *)
Theorem qr_code_usable_until_used :
  (forall now c,
     QRCode.is_usable now c = true <->
     QRCode.status c = QRCode.active /\ now <= QRCode.expires_at c /\
     QRCode.usage_count c < QRCode.max_usage c) /\
  (forall now c,
     QRCode.usage_count (QRCode.mark_as_used now c) =
       QRCode.usage_count c + 1 /\
     (QRCode.max_usage c <= QRCode.usage_count c + 1 ->
      QRCode.status (QRCode.mark_as_used now c) = QRCode.used) /\
     (QRCode.usage_count c + 1 < QRCode.max_usage c ->
      QRCode.status (QRCode.mark_as_used now c) = QRCode.status c)) /\
  (forall db now x image processing_time c session_id search_result,
     acceptable_upload db now x image ->
     NoDup (map QRCode.id (qr_codes db)) ->
     NoDup (map QRCode.code (qr_codes db)) ->
     In c (qr_codes db) -> QRCode.id c = QRSearchSession.qr_code x ->
     QRCode.max_usage c = 1 -> QRCode.usage_count c = 0 ->
     let r := QRSearchView_post db now (QRSearchSession.session_token x) image
                processing_time in
     let c' := QRCode.mark_as_used now c in
     fst r = SearchCompleted session_id search_result ->
     qr_codes (snd r) = save_qr_code c' (qr_codes db) /\
     In c' (qr_codes (snd r)) /\
     QRCode.status c' = QRCode.used /\ QRCode.usage_count c' = 1 /\
     forall now' uuid4 draws,
       QRScanView_post (snd r) now' (QRCode.code c) uuid4 draws =
         (ScanInvalid, snd r)) /\
  (forall db now x image processing_time c query_embedding,
     acceptable_upload db now x image ->
     NoDup (map QRCode.id (qr_codes db)) ->
     In c (qr_codes db) -> QRCode.id c = QRSearchSession.qr_code x ->
     process_search_image (UploadedFile.name image) = Some query_embedding ->
     let r := QRSearchView_post db now (QRSearchSession.session_token x) image
                processing_time in
     (find_similar_pets (face_embeddings db) query_embedding 5 = [] ->
      fst r = SearchCompleted (QRSearchSession.id x) None) /\
     (find_similar_pets (face_embeddings db) query_embedding 5 <> [] ->
      fst r = SearchFailed (QRSearchSession.id x) /\
      qr_codes (snd r) = qr_codes db)).
Proof.
  split; [exact is_usable_spec|]. split; [exact mark_as_used_spec|]. split.
  - intros db now x image pt c sid res Hok Hids Hcodes Hc Hfk Hmax Hcount r c'
      Hdone.
    pose proof (find_session_code _ _ _ Hids Hc Hfk) as Hfind.
    assert (Hused : QRCode.status c' = QRCode.used /\
                    QRCode.usage_count c' = 1).
    { subst c'. unfold QRCode.mark_as_used. simpl. rewrite Hmax, Hcount.
      split; reflexivity. }
    assert (Hcodes' : qr_codes (snd r) = save_qr_code c' (qr_codes db)).
    { destruct (process_search_image (UploadedFile.name image)) as [q|] eqn:Hq.
      - destruct (QRSearchView_post_embedding db now x image pt q Hok Hq)
          as [Hnil Hcons].
        destruct (find_similar_pets (face_embeddings db) q 5) as [|m ms].
        + subst r. now rewrite (Hnil eq_refl c Hfind).
        + subst r. rewrite Hcons in Hdone by discriminate. discriminate.
      - destruct (QRSearchView_post_no_embedding db now x image pt Hok Hq)
          as [Hno _].
        subst r. rewrite Hno in Hdone. discriminate. }
    destruct Hused as [Hst Hcnt].
    assert (Hin' : In c' (qr_codes (snd r))).
    { rewrite Hcodes'. now apply save_in_row with (x := c). }
    repeat split; try assumption.
    intros now' uuid4 draws.
    change (QRCode.code c) with (QRCode.code c').
    apply QRScanView_post_not_usable; [|exact Hin'|].
    + rewrite Hcodes'. unfold save_qr_code.
      now rewrite (save_map_column QRCode.id QRCode.code c' c).
    + unfold QRCode.is_usable. now rewrite Hst.
  - intros db now x image pt c q Hok Hids Hc Hfk Hq r.
    pose proof (find_session_code _ _ _ Hids Hc Hfk) as Hfind.
    destruct (QRSearchView_post_embedding db now x image pt q Hok Hq)
      as [Hnil Hcons].
    split; intros Hm; subst r.
    + now rewrite (Hnil Hm c Hfind).
    + now rewrite (Hcons Hm).
Qed.
End CodeFacts.

(** ** A clinic's code with cap 1 *)

Definition clinic_code : QRCode.t :=
  {| QRCode.id := 20%N; QRCode.code := "ABC123XYZ789"%string;
     QRCode.status := QRCode.active; QRCode.created_by := 1%N;
     QRCode.expires_at := minutes 1440; QRCode.used_at := None;
     QRCode.usage_count := 0; QRCode.max_usage := 1 |}.

Definition clinic_session (status : QRSearchSession.status_t)
  : QRSearchSession.t :=
  {| QRSearchSession.id := 30%N; QRSearchSession.qr_code := 20%N;
     QRSearchSession.session_token := "qr-tok"%string;
     QRSearchSession.status := status;
     QRSearchSession.created_at := 0;
     QRSearchSession.completed_at := None;
     QRSearchSession.expires_at := minutes 30;
     QRSearchSession.search_result := None |}.

Definition clinic_db (status : QRSearchSession.status_t) : qr_db :=
  {| qr_codes := [clinic_code];
     search_sessions := [clinic_session status];
     search_images := [];
     recognition_results := [];
     face_embeddings := FaceRecognitionFacts.sample_corpus |}.

Definition photo (name : String.string) : UploadedFile.t :=
  {| UploadedFile.name := name; UploadedFile.size := 250000 |}.

Definition any_image (image : UploadedFile.t) : bool := true.

(** The text of the error, as SQLite words it. *)
Definition sample_integrity_error : String.string :=
  "FOREIGN KEY constraint failed"%string.

Definition clinic_search (db : qr_db) (now : datetime)
    (token : String.string) (image : UploadedFile.t)
  : search_response * qr_db :=
  QRSearchView_post (list float) FaceRecognitionFacts.sample_yolo
    FaceRecognitionFacts.sample_extract FaceRecognitionFacts.sample_embed
    any_image sample_integrity_error db now token image f0_5.

Lemma clinic_upload_acceptable (name : String.string) :
  validate_image (photo name) = true ->
  acceptable_upload any_image (clinic_db QRSearchSession.initiated) (minutes 5)
    (clinic_session QRSearchSession.initiated) (photo name).
Proof.
  intros H. unfold acceptable_upload, sessions_unique. simpl.
  repeat split; try reflexivity; try exact H; try (now left);
    repeat constructor; simpl; tauto.
Qed.

(** The same clinic before any template is stored. *)
Definition new_clinic_db (status : QRSearchSession.status_t) : qr_db :=
  {| qr_codes := [clinic_code];
     search_sessions := [clinic_session status];
     search_images := [];
     recognition_results := [];
     face_embeddings := [] |}.

Lemma new_clinic_upload_acceptable (name : String.string) :
  validate_image (photo name) = true ->
  acceptable_upload any_image (new_clinic_db QRSearchSession.initiated)
    (minutes 5) (clinic_session QRSearchSession.initiated) (photo name).
Proof.
  intros H. unfold acceptable_upload, sessions_unique. simpl.
  repeat split; try reflexivity; try exact H; try (now left);
    repeat constructor; simpl; tauto.
Qed.

Lemma terminal_session_accepts_no_upload_witness :
  let db' :=
    run (list float) FaceRecognitionFacts.sample_yolo
      FaceRecognitionFacts.sample_extract FaceRecognitionFacts.sample_embed
      any_image sample_integrity_error
      [ SearchRequest (minutes 6) "qr-tok"%string (photo "buddy1.jpg"%string)
          f0_5;
        ScanRequest (minutes 7) "ABC123XYZ789"%string 31%N ["t1"%string] ]
      (clinic_db QRSearchSession.completed) in
  In (clinic_session QRSearchSession.completed) (search_sessions db') /\
  clinic_search db' (minutes 8) "qr-tok"%string (photo "buddy3.jpg"%string) =
    (SearchInvalid, db').
Proof.
  intros db'.
  assert (Hu : sessions_unique (clinic_db QRSearchSession.completed)).
  { unfold sessions_unique. simpl. split; repeat constructor; simpl; tauto. }
  destruct (terminal_session_accepts_no_upload (list float)
              FaceRecognitionFacts.sample_yolo
              FaceRecognitionFacts.sample_extract
              FaceRecognitionFacts.sample_embed any_image
              sample_integrity_error
              (clinic_db QRSearchSession.completed)
              (clinic_session QRSearchSession.completed)
              [ SearchRequest (minutes 6) "qr-tok"%string
                  (photo "buddy1.jpg"%string) f0_5;
                ScanRequest (minutes 7) "ABC123XYZ789"%string 31%N
                  ["t1"%string] ]
              Hu (or_introl eq_refl) eq_refl) as [Hin [Hrej _]].
  split; [exact Hin|]. apply Hrej.
Defined.

Lemma no_face_fails_session_keeps_code_witness :
  let r := clinic_search (clinic_db QRSearchSession.initiated) (minutes 5)
             "qr-tok"%string (photo "buddy2.jpg"%string) in
  fst r = NoFaceDetected 30%N /\
  In (clinic_session QRSearchSession.failed) (search_sessions (snd r)) /\
  qr_codes (snd r) = [clinic_code].
Proof.
  intros r.
  destruct (no_face_fails_session_keeps_code (list float)
              FaceRecognitionFacts.sample_yolo
              FaceRecognitionFacts.sample_extract
              FaceRecognitionFacts.sample_embed any_image
              sample_integrity_error
              (clinic_db QRSearchSession.initiated) (minutes 5)
              (clinic_session QRSearchSession.initiated)
              (photo "buddy2.jpg"%string) f0_5
              (clinic_upload_acceptable "buddy2.jpg"%string eq_refl) eq_refl)
    as [H1 [H2 [H3 _]]].
  repeat split; assumption.
Defined.

(** C7 as stated fails at the instant of expiry: the code is usable
    although the time is not before its expiry. *)
Lemma is_usable_at_expiry :
  QRCode.is_usable (minutes 1440) clinic_code = true /\
  ~ (minutes 1440 < QRCode.expires_at clinic_code) /\
  ~ (QRCode.is_usable (minutes 1440) clinic_code = true <->
     QRCode.status clinic_code = QRCode.active /\
     minutes 1440 < QRCode.expires_at clinic_code /\
     QRCode.usage_count clinic_code < QRCode.max_usage clinic_code).
Proof.
  split; [reflexivity|]. split.
  - vm_compute. discriminate.
  - intros [H _]. destruct (H eq_refl) as [_ [Hlt _]].
    vm_compute in Hlt. discriminate.
Qed.

Lemma qr_code_usable_until_used_witness :
  let r := clinic_search (new_clinic_db QRSearchSession.initiated) (minutes 5)
             "qr-tok"%string (photo "buddy1.jpg"%string) in
  let c' := QRCode.mark_as_used (minutes 5) clinic_code in
  fst r = SearchCompleted 30%N None /\
  qr_codes (snd r) = [c'] /\
  QRCode.status c' = QRCode.used /\ QRCode.usage_count c' = 1 /\
  forall now' uuid4 draws,
    QRScanView_post (snd r) now' "ABC123XYZ789"%string uuid4 draws =
      (ScanInvalid, snd r).
Proof.
  intros r c'.
  destruct (qr_code_usable_until_used (list float)
              FaceRecognitionFacts.sample_yolo
              FaceRecognitionFacts.sample_extract
              FaceRecognitionFacts.sample_embed any_image
              sample_integrity_error) as [_ [_ [H _]]].
  assert (Hids : NoDup (map QRCode.id
                          (qr_codes (new_clinic_db QRSearchSession.initiated))))
    by (simpl; repeat constructor; simpl; tauto).
  assert (Hcodes : NoDup (map QRCode.code
                            (qr_codes (new_clinic_db QRSearchSession.initiated))))
    by (simpl; repeat constructor; simpl; tauto).
  assert (Hdone : fst r = SearchCompleted 30%N None) by reflexivity.
  destruct (H (new_clinic_db QRSearchSession.initiated) (minutes 5)
              (clinic_session QRSearchSession.initiated)
              (photo "buddy1.jpg"%string) f0_5 clinic_code 30%N None
              (new_clinic_upload_acceptable "buddy1.jpg"%string eq_refl)
              Hids Hcodes (or_introl eq_refl) eq_refl eq_refl eq_refl Hdone)
    as [H2 [_ [H4 [H5 H6]]]].
  repeat split; assumption.
Defined.

(** The whole course where no template is stored: scan, search, and a
    second scan. *)
Example qr_code_single_use :
  let db0 := {| qr_codes := [clinic_code]; search_sessions := [];
                search_images := []; recognition_results := [];
                face_embeddings := [] |} in
  let scan1 := QRScanView_post db0 0 "ABC123XYZ789"%string 30%N ["qr-tok"%string] in
  let search := clinic_search (snd scan1) (minutes 5) "qr-tok"%string
                  (photo "buddy1.jpg"%string) in
  let scan2 := QRScanView_post (snd search) (minutes 6) "ABC123XYZ789"%string
                 31%N ["qr-tok-2"%string] in
  fst scan1 = Scanned (clinic_session QRSearchSession.initiated) /\
  fst search = SearchCompleted 30%N None /\
  map QRCode.status (qr_codes (snd search)) = [QRCode.used] /\
  map QRCode.usage_count (qr_codes (snd search)) = [1] /\
  map QRSearchSession.status (search_sessions (snd search)) =
    [QRSearchSession.completed] /\
  fst scan2 = ScanInvalid /\ snd scan2 = snd search.
Proof.
  vm_compute. repeat split.
Qed.

(** The same course where a stored template matches the image: the create
    of the recognition result raises, the search fails, and the code stays
    [active] with its counter at 0, so that a second scan is accepted. *)
Example qr_code_search_with_match :
  let db0 := {| qr_codes := [clinic_code]; search_sessions := [];
                search_images := []; recognition_results := [];
                face_embeddings := FaceRecognitionFacts.sample_corpus |} in
  let scan1 := QRScanView_post db0 0 "ABC123XYZ789"%string 30%N ["qr-tok"%string] in
  let search := clinic_search (snd scan1) (minutes 5) "qr-tok"%string
                  (photo "buddy1.jpg"%string) in
  let scan2 := QRScanView_post (snd search) (minutes 6) "ABC123XYZ789"%string
                 31%N ["qr-tok-2"%string] in
  fst search = SearchFailed 30%N /\
  qr_codes (snd search) = [clinic_code] /\
  recognition_results (snd search) = [] /\
  map QRSearchSession.status (search_sessions (snd search)) =
    [QRSearchSession.failed] /\
  map QRSearchImage.status (search_images (snd search)) =
    [QRSearchImage.failed] /\
  map QRSearchImage.error_message (search_images (snd search)) =
    [Some sample_integrity_error] /\
  (exists session, fst scan2 = Scanned session /\
     QRSearchSession.session_token session = "qr-tok-2"%string).
Proof.
  vm_compute. repeat split. eexists. split; reflexivity.
Qed.

End QRFacts.

(* ===================================================================== *)
(** * More of face_recognition: similarity *)
(* ===================================================================== *)

(** [FaceEmbedding.calculate_similarity] of [face_recognition/models.py]. *)
Module FaceEmbeddingSimilarity.
Import Float64 Services.

(** [a == b] on floats. *)
Definition feq (a b : float) : bool := SFeqb a b.

(** The method, for [other_embedding] either a [FaceEmbedding] or a plain
    sequence of numbers; [None] stands for the [ValueError] [np.dot] raises
    on vectors of different lengths, which nothing catches here. *)
Definition calculate_similarity (self : FaceEmbedding.t)
    (other_embedding : FaceEmbedding.t + vector) : option float :=
  let other_vector :=
    match other_embedding with
    | inl e => FaceEmbedding.get_embedding_vector e
    | inr v => v
    end in
  let this_vector := FaceEmbedding.get_embedding_vector self in
  match np_dot this_vector other_vector with
  | None => None
  | Some dot_product =>
      let magnitude1 := np_linalg_norm this_vector in
      let magnitude2 := np_linalg_norm other_vector in
      if feq magnitude1 f0 || feq magnitude2 f0 then Some f0
      else Some (fdiv dot_product (fmul magnitude1 magnitude2))
  end.

End FaceEmbeddingSimilarity.

Module SimilarityFacts.
Import Float64 Services FaceEmbeddingSimilarity.

Lemma fmul_comm (x y : float) : fmul x y = fmul y x.
Proof.
  destruct x as [sx|sx| |sx mx ex], y as [sy|sy| |sy my ey]; simpl;
    try reflexivity; try (now rewrite xorb_comm).
  unfold fmul. simpl. now rewrite xorb_comm, Pos.mul_comm, Z.add_comm.
Qed.

Lemma fadd_comm (x y : float) : fadd x y = fadd y x.
Proof.
  destruct x as [[|]|[|]| |sx mx ex], y as [[|]|[|]| |sy my ey]; simpl;
    try reflexivity.
  unfold fadd. simpl. now rewrite Z.min_comm, Z.add_comm.
Qed.

Lemma sum_products_comm (a b : vector) : sum_products a b = sum_products b a.
Proof.
  unfold sum_products. generalize f0 as acc. revert b.
  induction a as [|x a IH]; intros [|y b] acc; simpl; try reflexivity.
  rewrite (fmul_comm x y). apply IH.
Qed.

Lemma np_dot_comm (a b : vector) : np_dot a b = np_dot b a.
Proof.
  unfold np_dot. rewrite (Nat.eqb_sym (length a) (length b)).
  now rewrite sum_products_comm.
Qed.

(** X1.  The cosine similarity is a number between 0.0 and 1.0, whatever the
    two arrays hold: infinities, NaN, no component at all, or different
    numbers of components. *)
Theorem cosine_similarity_in_unit_interval (vec1 vec2 : vector) :
  is_nan (calculate_cosine_similarity vec1 vec2) = false /\
  fle f0 (calculate_cosine_similarity vec1 vec2) = true /\
  fle (calculate_cosine_similarity vec1 vec2) f1 = true.
Proof.
  destruct (FaceRecognitionFacts.calculate_cosine_similarity_range vec1 vec2)
    as [H0 H1].
  split; [|split; assumption]. now apply fle_not_nan in H0.
Qed.

(** X2.  The cosine similarity does not depend on the order of its arguments. *)
Theorem cosine_similarity_symmetric (vec1 vec2 : vector) :
  calculate_cosine_similarity vec1 vec2 = calculate_cosine_similarity vec2 vec1.
Proof.
  unfold calculate_cosine_similarity. now rewrite np_dot_comm.
Qed.

(** X3.  Vectors of different dimensions: the [ValueError] of [np.dot] is caught
    and 0.0 is returned. *)
Theorem cosine_similarity_dimension_mismatch (vec1 vec2 : vector) :
  length vec1 <> length vec2 -> calculate_cosine_similarity vec1 vec2 = f0.
Proof.
  intros H. unfold calculate_cosine_similarity, np_dot, np_divide.
  rewrite !length_map. now rewrite (proj2 (Nat.eqb_neq _ _) H).
Qed.

Lemma cosine_similarity_dimension_mismatch_witness :
  length [f1; f0] <> length [f1] /\
  calculate_cosine_similarity [f1; f0] [f1] = f0.
Proof.
  split; [discriminate|].
  apply (cosine_similarity_dimension_mismatch [f1; f0] [f1]). discriminate.
Defined.

Lemma feq_zero (x : float) : is_zero x = true -> feq x f0 = true.
Proof. destruct x; simpl; intros H; try discriminate; reflexivity. Qed.

(** X4.  [FaceEmbedding.calculate_similarity] returns 0 as soon as one of the
    two embeddings (of equal dimension) has only zero components: the
    magnitude check comes before the division. *)
Theorem calculate_similarity_zero_embedding (self : FaceEmbedding.t)
    (other_vector : vector) :
  length (FaceEmbedding.embedding_vector self) = length other_vector ->
  forallb is_zero (FaceEmbedding.embedding_vector self) = true \/
  forallb is_zero other_vector = true ->
  calculate_similarity self (inr other_vector) = Some f0.
Proof.
  intros Hlen Hz. unfold calculate_similarity, np_dot.
  unfold FaceEmbedding.get_embedding_vector.
  rewrite Hlen, Nat.eqb_refl.
  destruct Hz as [Hz|Hz];
    apply FaceRecognitionFacts.np_linalg_norm_zero, feq_zero in Hz;
    rewrite Hz; [reflexivity|]. now rewrite orb_true_r.
Qed.

Lemma calculate_similarity_zero_embedding_witness :
  let self := FaceRecognitionFacts.sample_template 1%N 0 0
                FaceEmbedding.completed in
  length (FaceEmbedding.embedding_vector self) = length [f1; f0_5] /\
  calculate_similarity self (inr [f1; f0_5]) = Some f0.
Proof.
  intros self. split; [reflexivity|].
  apply (calculate_similarity_zero_embedding self [f1; f0_5]);
    [reflexivity|left; reflexivity].
Defined.

(** X5.  [a.calculate_similarity(b)] and [b.calculate_similarity(a)] agree, in
    the value and in raising. *)
Theorem calculate_similarity_symmetric (a b : FaceEmbedding.t) :
  calculate_similarity a (inl b) = calculate_similarity b (inl a).
Proof.
  unfold calculate_similarity. rewrite np_dot_comm.
  destruct (np_dot _ _); [|reflexivity].
  rewrite orb_comm, fmul_comm. reflexivity.
Qed.

(** Unlike the clamped cosine similarity of the services, the method
    returns negative values: opposite vectors give -1.0. *)
Example calculate_similarity_opposite :
  calculate_similarity
    (FaceRecognitionFacts.sample_template 1%N 3 4 FaceEmbedding.completed)
    (inr [of_Z (-3); of_Z (-4)]) = Some (of_Z (-1)) /\
  calculate_cosine_similarity [of_Z 3; of_Z 4] [of_Z (-3); of_Z (-4)] = f0.
Proof. vm_compute. split; reflexivity. Qed.

End SimilarityFacts.

(* ===================================================================== *)
(** * More of face_recognition: detections and templates *)
(* ===================================================================== *)

Module DetectionFacts.
Import Float64 Services.

(** [a] is at least as confident as [b]. *)
Definition confidence_ge (a b : Detection.t) : Prop :=
  fge (Detection.confidence a) (Detection.confidence b) = true.

Lemma StronglySorted_filter {A : Type} (R : A -> A -> Prop) (p : A -> bool)
    (l : list A) :
  StronglySorted R l -> StronglySorted R (filter p l).
Proof.
  induction 1 as [|a l Hs IH Ha]; simpl; [constructor|].
  destruct (p a); [|exact IH]. constructor; [exact IH|].
  apply Forall_forall. intros x Hx. apply filter_In in Hx as [Hx _].
  now apply (proj1 (Forall_forall _ _) Ha).
Qed.

(** X6.  A detection is kept as a face exactly when the class id of its box is
    1 ([cat_face]) or 3 ([dog_face]); whole animals and unknown class ids
    are not faces. *)
Theorem face_class_ids (class_id : Z) :
  endswith (class_names class_id) "_face"%string = true <->
  class_id = 1 \/ class_id = 3.
Proof.
  destruct class_id as [|[[p|p|]|[p|p|]|]|p]; simpl;
    (split; [intros H; try discriminate; auto|intros [H|H]; try discriminate;
                                                try reflexivity]).
Qed.

Section Detections.
Variable crop : Type.
Variable yolo_model : String.string -> option (list Box.t).
Variable extract_face_crop : String.string -> list float -> option crop.
Variable generate_embedding : crop -> option vector.
Variable FACE_EMBEDDING_MODEL : String.string.

(** X7.  [detect_pet_faces] returns one detection for every box of the model,
    with the class name and the confidence of the box, sorted by descending
    confidence. *)
Theorem detect_pet_faces_ordered (image_path : String.string)
    (boxes : list Box.t) :
  yolo_model image_path = Some boxes ->
  (forall box, In box boxes -> is_nan (Box.conf box) = false) ->
  let detections := detect_pet_faces yolo_model image_path in
  length detections = length boxes /\
  StronglySorted confidence_ge detections /\
  forall d, In d detections ->
    exists box, In box boxes /\
      Detection.class d = class_names (Box.cls box) /\
      Detection.confidence d = Box.conf box.
Proof.
  intros Hy Hconf detections.
  assert (Hs : StronglySorted confidence_ge detections).
  { apply FaceRecognitionFacts.detect_pet_faces_sorted.
    intros bs box Hbs Hin. rewrite Hy in Hbs. injection Hbs as <-. auto. }
  subst detections. unfold detect_pet_faces in *. rewrite Hy in *.
  split; [now rewrite Py.sort_desc_length, length_map|].
  split; [exact Hs|]. intros d Hd.
  eapply Permutation_in in Hd; [|apply Permutation_sym, Py.sort_desc_perm].
  apply in_map_iff in Hd as [box [<- Hbox]]. exists box. now repeat split.
Qed.

(** The face detection that is cropped and embedded. *)
Definition best_face (image_path : String.string) : option Detection.t :=
  hd_error (filter is_face_detection (detect_pet_faces yolo_model image_path)).

(** X8.  The face that [process_search_image] embeds is a face detection of the
    image that no other face detection of the image exceeds in confidence;
    without a face detection there is no embedding. *)
Theorem process_search_image_best_face (image_file : String.string) :
  (forall boxes box, yolo_model image_file = Some boxes -> In box boxes ->
                     is_nan (Box.conf box) = false) ->
  match best_face image_file with
  | None =>
      process_search_image crop yolo_model extract_face_crop
        generate_embedding image_file = None
  | Some best =>
      is_face_detection best = true /\
      In best (detect_pet_faces yolo_model image_file) /\
      (forall d, In d (detect_pet_faces yolo_model image_file) ->
                 is_face_detection d = true -> confidence_ge best d) /\
      process_search_image crop yolo_model extract_face_crop
        generate_embedding image_file =
      match extract_face_crop image_file (Detection.bounding_box best) with
      | None => None
      | Some face_crop => generate_embedding face_crop
      end
  end.
Proof.
  intros Hconf.
  pose proof (FaceRecognitionFacts.detect_pet_faces_sorted yolo_model
                image_file Hconf) as Hs.
  apply (StronglySorted_filter _ is_face_detection) in Hs.
  unfold best_face, process_search_image.
  destruct (filter is_face_detection (detect_pet_faces yolo_model image_file))
    as [|best rest] eqn:E; simpl; [reflexivity|].
  assert (Hb : In best (filter is_face_detection
                          (detect_pet_faces yolo_model image_file)))
    by (rewrite E; now left).
  apply filter_In in Hb as [Hin Hface].
  repeat split; try assumption.
  intros d Hd Hdf.
  assert (Hd' : In d (best :: rest)) by (rewrite <- E; now apply filter_In).
  inversion Hs as [|? ? _ Hall]; subst.
  destruct Hd' as [<-|Hd'].
  - unfold confidence_ge, fge. apply fle_refl.
    unfold detect_pet_faces in Hin.
    destruct (yolo_model image_file) as [boxes|] eqn:Hy; [|contradiction].
    eapply Permutation_in in Hin; [|apply Permutation_sym, Py.sort_desc_perm].
    apply in_map_iff in Hin as [box [<- Hbox]]. simpl.
    now apply (Hconf boxes).
  - now apply (proj1 (Forall_forall _ _) Hall).
Qed.
End Detections.

Lemma detect_pet_faces_ordered_witness :
  let detections :=
    detect_pet_faces FaceRecognitionFacts.sample_yolo "buddy1.jpg"%string in
  length detections = 2%nat /\
  StronglySorted confidence_ge detections /\
  map Detection.class detections = ["dog"; "dog_face"]%string.
Proof.
  intros detections.
  destruct (detect_pet_faces_ordered FaceRecognitionFacts.sample_yolo
              "buddy1.jpg"%string _ eq_refl) as [H1 [H2 _]].
  - intros box [<-|[<-|[]]]; reflexivity.
  - split; [exact H1|]. split; [exact H2|reflexivity].
Defined.

Lemma process_search_image_best_face_witness :
  exists best,
    best_face FaceRecognitionFacts.sample_yolo "buddy1.jpg"%string = Some best /\
    Detection.class best = "dog_face"%string /\
    forall d,
      In d (detect_pet_faces FaceRecognitionFacts.sample_yolo
              "buddy1.jpg"%string) ->
      is_face_detection d = true -> confidence_ge best d.
Proof.
  pose proof (process_search_image_best_face (list float)
                FaceRecognitionFacts.sample_yolo
                FaceRecognitionFacts.sample_extract
                FaceRecognitionFacts.sample_embed "buddy1.jpg"%string) as H.
  destruct (best_face FaceRecognitionFacts.sample_yolo "buddy1.jpg"%string)
    as [best|] eqn:E; [|discriminate].
  exists best. split; [reflexivity|].
  assert (Hc : forall boxes box,
             FaceRecognitionFacts.sample_yolo "buddy1.jpg"%string = Some boxes ->
             In box boxes -> is_nan (Box.conf box) = false).
  { intros boxes box [= <-] [<-|[<-|[]]]; reflexivity. }
  destruct (H Hc) as [_ [_ [Hmax _]]].
  split; [|exact Hmax]. now injection E as <-.
Defined.

End DetectionFacts.

Module TemplateMoreFacts.
Import Float64 Services.

Section Templates.
Variable crop : Type.
Variable yolo_model : String.string -> option (list Box.t).
Variable extract_face_crop : String.string -> list float -> option crop.
Variable generate_embedding : crop -> option vector.
Variable FACE_EMBEDDING_MODEL : String.string.

Local Abbreviation generate_pet_embeddings :=
  (generate_pet_embeddings crop yolo_model extract_face_crop
     generate_embedding FACE_EMBEDDING_MODEL).
Local Abbreviation process_pet_image :=
  (process_pet_image crop yolo_model extract_face_crop generate_embedding).
Local Abbreviation successful_embeddings :=
  (FaceRecognitionFacts.successful_embeddings crop yolo_model
     extract_face_crop generate_embedding).

(** The [FaceDetection] row written for an image: none without a face,
    else the class, confidence, box and area of its best face. *)
Definition detection_rows (pet_image : PetImage.t) : list FaceDetection.t :=
  match DetectionFacts.best_face yolo_model (PetImage.image pet_image) with
  | None => []
  | Some best =>
      [ {| FaceDetection.image := PetImage.id pet_image;
           FaceDetection.detected_class := Detection.class best;
           FaceDetection.confidence := Detection.confidence best;
           FaceDetection.bounding_box := Detection.bounding_box best;
           FaceDetection.model_version := "yolov8l"%string;
           FaceDetection.face_area :=
             Float32.to_float64 (Detection.area best) |} ]
  end.

Lemma process_pet_images_rows (pet_images : list PetImage.t)
    (all_embeddings : list vector) (successful_images : Z)
    (detections : list FaceDetection.t) :
  fold_left process_pet_image pet_images
    (all_embeddings, successful_images, detections) =
  (all_embeddings ++ successful_embeddings pet_images,
   successful_images + Z.of_nat (length (successful_embeddings pet_images)),
   detections ++ flat_map detection_rows pet_images).
Proof.
  revert all_embeddings successful_images detections.
  induction pet_images as [|i l IH]; intros acc n dets.
  - simpl. now rewrite !app_nil_r, Z.add_0_r.
  - cbn [fold_left flat_map]. unfold FaceRecognitionFacts.successful_embeddings.
    cbn [flat_map].
    fold (FaceRecognitionFacts.successful_embeddings crop yolo_model
            extract_face_crop generate_embedding l).
    unfold Services.process_pet_image at 2,
      FaceRecognitionFacts.image_embedding, Services.process_search_image,
      detection_rows, DetectionFacts.best_face.
    destruct (filter _ _) as [|d ?]; cbn [hd_error].
    + rewrite IH. reflexivity.
    + destruct (extract_face_crop _ _) as [c|];
        [destruct (generate_embedding c) as [v|]|];
        rewrite IH; cbn [app length]; rewrite <- ?app_assoc; cbn [app];
        try reflexivity.
      f_equal. f_equal. lia.
Qed.

(** X9.  What [generate_pet_embeddings] writes.  One [FaceDetection] row is
    added for every image with a face detection, in the order of the
    images and whether or not its crop and embedding succeed; its area is
    the [float32] product of the detection, stored as a float.  The rows
    that were there stay.  No [FaceEmbedding] row is added and no template
    is returned, because the create of the template raises. *)
Theorem generate_pet_embeddings_writes (db : tables)
    (pet_images : list PetImage.t) :
  let r := generate_pet_embeddings db pet_images in
  face_detection_table (snd r) =
    face_detection_table db ++ flat_map detection_rows pet_images /\
  face_embedding_table (snd r) = face_embedding_table db /\
  fst r = None.
Proof.
  unfold Services.generate_pet_embeddings.
  destruct pet_images as [|first rest].
  { simpl. now rewrite app_nil_r. }
  rewrite process_pet_images_rows. cbn [app].
  destruct (successful_embeddings (first :: rest)) as [|v vs];
    [repeat split|].
  destruct (np_mean_axis0 (v :: vs)); repeat split.
Qed.
End Templates.

(** Three images of one pet: the first and the third have a face, of 2 by 4
    and of 4 by 8 pixels. *)
Example generate_pet_embeddings_rows :
  let r := generate_pet_embeddings (list float) FaceRecognitionFacts.sample_yolo
             FaceRecognitionFacts.sample_extract
             FaceRecognitionFacts.sample_embed "clip-ViT-B-32"%string
             FaceRecognitionFacts.empty_tables
             FaceRecognitionFacts.sample_images in
  map FaceDetection.image (face_detection_table (snd r)) = [1%N; 3%N] /\
  map FaceDetection.face_area (face_detection_table (snd r)) =
    [of_Z 8; of_Z 32] /\
  face_embedding_table (snd r) = [] /\ fst r = None.
Proof. vm_compute. repeat split. Qed.

End TemplateMoreFacts.

(* ===================================================================== *)
(** * More of face_recognition: ranking *)
(* ===================================================================== *)

Module RankingFacts.
Import Float64 Services FaceRecognitionResult.

Section Stability.
Context {A : Type}.
Variable key_lt : A -> A -> bool.
(** [p] selects elements none of which has a key below another's. *)
Variable p : A -> bool.
Hypothesis p_ties : forall a b, p a = true -> p b = true -> key_lt a b = false.

Lemma insert_desc_filter (x : A) (l : list A) :
  filter p (Py.insert_desc key_lt x l) =
  if p x then x :: filter p l else filter p l.
Proof.
  induction l as [|y l IH]; simpl; [reflexivity|].
  destruct (key_lt x y) eqn:E; simpl; [|reflexivity].
  rewrite IH. destruct (p x) eqn:Px, (p y) eqn:Py; try reflexivity.
  rewrite (p_ties x y Px Py) in E. discriminate.
Qed.

(** The sort is stable: elements with tied keys keep their order. *)
Lemma sort_desc_filter (l : list A) :
  filter p (Py.sort_desc key_lt l) = filter p l.
Proof.
  induction l as [|x l IH]; simpl; [reflexivity|].
  now rewrite insert_desc_filter, IH.
Qed.
End Stability.

Lemma StronglySorted_firstn {A : Type} (R : A -> A -> Prop) (n : nat)
    (l : list A) :
  StronglySorted R l -> StronglySorted R (firstn n l).
Proof.
  intros H. revert n. induction H as [|a l Hs IH Ha]; intros [|n]; simpl;
    try constructor; [apply IH|].
  apply Forall_forall. intros x Hx. apply (proj1 (Forall_forall _ _) Ha).
  rewrite <- (firstn_skipn n l). apply in_or_app. now left.
Qed.

Lemma StronglySorted_weaken {A : Type} (R R' : A -> A -> Prop) (P : A -> Prop)
    (l : list A) :
  (forall a b, P a -> P b -> R a b -> R' a b) ->
  Forall P l -> StronglySorted R l -> StronglySorted R' l.
Proof.
  intros Himp HP Hs. induction Hs as [|a l Hs IH Ha]; [constructor|].
  inversion HP as [|? ? Pa Pl]; subst. constructor; [now apply IH|].
  apply Forall_forall. intros x Hx.
  apply Himp; [exact Pa| |].
  - now apply (proj1 (Forall_forall _ _) Pl).
  - now apply (proj1 (Forall_forall _ _) Ha).
Qed.

(** The ranking before it is cut to [top_k]. *)
Definition full_ranking (face_embeddings : list FaceEmbedding.t)
    (query_embedding : vector) : list Match.t :=
  Py.sort_desc similarity_lt
    (map (FaceRecognitionFacts.match_of query_embedding)
         (filter FaceEmbedding.is_completed face_embeddings)).

Lemma find_similar_pets_prefix (face_embeddings : list FaceEmbedding.t)
    (query_embedding : vector) (top_k : Z) :
  exists n, find_similar_pets face_embeddings query_embedding top_k =
            firstn n (full_ranking face_embeddings query_embedding).
Proof.
  rewrite FaceRecognitionFacts.find_similar_pets_unfold.
  unfold Py.slice_to, full_ranking. destruct (0 <=? top_k); eauto.
Qed.

Lemma full_ranking_entry (face_embeddings : list FaceEmbedding.t)
    (query_embedding : vector) (m : Match.t) :
  In m (full_ranking face_embeddings query_embedding) ->
  exists e, In e face_embeddings /\ FaceEmbedding.is_completed e = true /\
            m = FaceRecognitionFacts.match_of query_embedding e.
Proof.
  unfold full_ranking. intros H.
  eapply Permutation_in in H; [|apply Permutation_sym, Py.sort_desc_perm].
  apply in_map_iff in H as [e [<- He]]. apply filter_In in He as [He Hc].
  exists e. now repeat split.
Qed.

Lemma find_similar_pets_entry (face_embeddings : list FaceEmbedding.t)
    (query_embedding : vector) (top_k : Z) (m : Match.t) :
  In m (find_similar_pets face_embeddings query_embedding top_k) ->
  exists e, In e face_embeddings /\ FaceEmbedding.is_completed e = true /\
            m = FaceRecognitionFacts.match_of query_embedding e.
Proof.
  destruct (find_similar_pets_prefix face_embeddings query_embedding top_k)
    as [n ->]. intros H. apply (full_ranking_entry face_embeddings).
  rewrite <- (firstn_skipn n (full_ranking _ _)). apply in_or_app. now left.
Qed.

(** The tiers in their order: [no_match] below [lobo_trail] below
    [eagle_trail]. *)
Definition tier_rank (c : confidence_level_t) : nat :=
  match c with eagle_trail => 2 | lobo_trail => 1 | no_match => 0 end.

Lemma determine_confidence_level_monotone (s1 s2 : float) :
  fge s1 s2 = true ->
  (tier_rank (determine_confidence_level s2) <=
   tier_rank (determine_confidence_level s1))%nat.
Proof.
  intros H. unfold determine_confidence_level.
  change (fge s1 s2) with (fle s2 s1) in H.
  change (fge s2 f0_9) with (fle f0_9 s2).
  change (fge s2 f0_8) with (fle f0_8 s2).
  change (fge s1 f0_9) with (fle f0_9 s1).
  change (fge s1 f0_8) with (fle f0_8 s1).
  destruct (fle f0_9 s2) eqn:E9.
  - now rewrite (fle_trans _ _ _ E9 H).
  - destruct (fle f0_8 s2) eqn:E8.
    + rewrite (fle_trans _ _ _ E8 H). destruct (fle f0_9 s1); simpl; lia.
    + simpl. lia.
Qed.

(** X11.  Down the list [find_similar_pets] returns, for any [top_k], the
    similarity never rises and the tier never gets better; every entry
    carries the tier of its own similarity, and entries come only from
    templates with status [completed]. *)
Theorem find_similar_pets_tiers_descend (face_embeddings : list FaceEmbedding.t)
    (query_embedding : vector) (top_k : Z) :
  let matches := find_similar_pets face_embeddings query_embedding top_k in
  StronglySorted
    (fun a b => fge (Match.similarity a) (Match.similarity b) = true /\
                (tier_rank (Match.confidence_level b) <=
                 tier_rank (Match.confidence_level a))%nat)
    matches /\
  forall m, In m matches ->
    Match.confidence_level m = determine_confidence_level (Match.similarity m) /\
    FaceEmbedding.is_completed (Match.embedding m) = true /\
    In (Match.embedding m) face_embeddings.
Proof.
  intros matches.
  assert (Hent : forall m, In m matches ->
            Match.confidence_level m =
              determine_confidence_level (Match.similarity m) /\
            FaceEmbedding.is_completed (Match.embedding m) = true /\
            In (Match.embedding m) face_embeddings).
  { intros m Hm. apply find_similar_pets_entry in Hm as [e [He [Hc ->]]].
    now repeat split. }
  split; [|exact Hent].
  apply StronglySorted_weaken
    with (R := FaceRecognitionFacts.similarity_ge)
         (P := fun m => Match.confidence_level m =
                        determine_confidence_level (Match.similarity m)).
  - intros a b Ha Hb Hab. split; [exact Hab|]. rewrite Ha, Hb.
    now apply determine_confidence_level_monotone.
  - apply Forall_forall. intros m Hm. now apply Hent.
  - subst matches.
    destruct (find_similar_pets_prefix face_embeddings query_embedding top_k)
      as [n ->].
    apply StronglySorted_firstn. apply FaceRecognitionFacts.similarities_sorted.
Qed.

(** X12.  The first match is a best one: with [top_k >= 1] and a completed
    template in the table, the list is not empty and no completed template
    is more similar to the query than its first entry. *)
Theorem find_similar_pets_first_is_best (face_embeddings : list FaceEmbedding.t)
    (query_embedding : vector) (top_k : Z) (e0 : FaceEmbedding.t) :
  1 <= top_k -> In e0 face_embeddings ->
  FaceEmbedding.is_completed e0 = true ->
  exists best rest,
    find_similar_pets face_embeddings query_embedding top_k = best :: rest /\
    forall e, In e face_embeddings -> FaceEmbedding.is_completed e = true ->
      fge (Match.similarity best)
          (calculate_cosine_similarity query_embedding
             (FaceEmbedding.embedding_vector e)) = true.
Proof.
  intros Hk Hin Hc.
  rewrite FaceRecognitionFacts.find_similar_pets_unfold.
  rewrite Py.slice_to_nonneg by lia.
  fold (full_ranking face_embeddings query_embedding).
  pose proof (FaceRecognitionFacts.similarities_sorted query_embedding
                (filter FaceEmbedding.is_completed face_embeddings)) as Hs.
  fold (full_ranking face_embeddings query_embedding) in Hs.
  assert (Hall : forall e, In e face_embeddings ->
            FaceEmbedding.is_completed e = true ->
            In (FaceRecognitionFacts.match_of query_embedding e)
               (full_ranking face_embeddings query_embedding)).
  { intros e He Hce. unfold full_ranking.
    eapply Permutation_in; [apply Py.sort_desc_perm|].
    apply in_map. now apply filter_In. }
  destruct (full_ranking face_embeddings query_embedding) as [|best rest] eqn:E.
  { destruct (Hall e0 Hin Hc). }
  destruct (Z.to_nat top_k) as [|n] eqn:En; [lia|].
  exists best, (firstn n rest). split; [reflexivity|].
  intros e He Hce. inversion Hs as [|? ? _ Hge]; subst.
  destruct (Hall e He Hce) as [Hb|Hr].
  - rewrite Hb. simpl. unfold fge. apply fle_refl.
    apply FaceRecognitionFacts.calculate_cosine_similarity_not_nan.
  - apply (proj1 (Forall_forall _ _) Hge) in Hr. exact Hr.
Qed.

Lemma find_similar_pets_first_is_best_witness :
  exists best rest,
    find_similar_pets FaceRecognitionFacts.sample_corpus [f1; f0] 3 =
      best :: rest /\
    Match.pet best = Some 6%N.
Proof.
  destruct (find_similar_pets_first_is_best FaceRecognitionFacts.sample_corpus
              [f1; f0] 3
              (FaceRecognitionFacts.sample_template 1%N 1 1
                 FaceEmbedding.completed))
    as [best [rest [E _]]]; [lia|now left|reflexivity|].
  exists best, rest. split; [exact E|].
  vm_compute in E. now injection E as <- _.
Defined.

Definition same_similarity (s : float) (m : Match.t) : bool :=
  match SFcompare (Match.similarity m) s with
  | Some Eq => true
  | _ => false
  end.

Lemma same_similarity_ties (s : float) (a b : Match.t) :
  same_similarity s a = true -> same_similarity s b = true ->
  similarity_lt a b = false.
Proof.
  unfold same_similarity, similarity_lt. intros Ha Hb.
  assert (Hle : forall m, same_similarity s m = true ->
                  fle (Match.similarity m) s = true /\
                  fle s (Match.similarity m) = true).
  { intros m Hm. unfold same_similarity in Hm. unfold fle, SFleb.
    rewrite (compare_antisym (Match.similarity m) s).
    destruct (SFcompare (Match.similarity m) s) as [[| |]|];
      try discriminate. split; reflexivity. }
  destruct (Hle a Ha) as [_ Hsa], (Hle b Hb) as [Hbs _].
  pose proof (fle_trans _ _ _ Hbs Hsa) as Hba.
  destruct (fle_not_nan _ _ Hba) as [Hnb Hna].
  rewrite (flt_not_fge _ _ Hna Hnb).
  change (fge (Match.similarity a) (Match.similarity b))
    with (fle (Match.similarity b) (Match.similarity a)).
  now rewrite Hba.
Qed.

(** X13.  Ties are broken by the order of the table: among the templates with
    one and the same similarity, the list holds the earliest ones of the
    table, in the order of the table. *)
Theorem find_similar_pets_ties_in_table_order
    (face_embeddings : list FaceEmbedding.t) (query_embedding : vector)
    (top_k : Z) (s : float) :
  exists later,
    filter (same_similarity s)
      (map (FaceRecognitionFacts.match_of query_embedding)
           (filter FaceEmbedding.is_completed face_embeddings)) =
    filter (same_similarity s)
      (find_similar_pets face_embeddings query_embedding top_k) ++ later.
Proof.
  destruct (find_similar_pets_prefix face_embeddings query_embedding top_k)
    as [n ->].
  exists (filter (same_similarity s)
            (skipn n (full_ranking face_embeddings query_embedding))).
  rewrite <- filter_app, firstn_skipn. unfold full_ranking.
  symmetry. apply sort_desc_filter. apply same_similarity_ties.
Qed.

(** Two templates tie with the query [(1, 0)]: the one stored first comes
    first. *)
Example find_similar_pets_tie :
  map Match.pet
    (find_similar_pets
       [ FaceRecognitionFacts.sample_template 8%N 2 0 FaceEmbedding.completed;
         FaceRecognitionFacts.sample_template 9%N 1 0 FaceEmbedding.completed ]
       [f1; f0] 5) = [Some 8%N; Some 9%N].
Proof. vm_compute. reflexivity. Qed.

End RankingFacts.

(* ===================================================================== *)
(** * More of face_recognition: recognition results and the search view *)
(* ===================================================================== *)

(** A [FaceRecognitionResult] with the columns of the request. *)
Module RecognitionRow.
Record t := {
  result : FaceRecognitionResult.t;
  result_type : String.string;
  processing_time : option Float64.float;
  searcher : option uuid
}.
End RecognitionRow.

Module Matching.
Import Float64 Services.

(** [FaceRecognitionResult.objects.create(...)] with the columns of the
    request: [search_embedding] is a foreign key to [FaceEmbedding], so the
    INSERT is refused with an [IntegrityError], here [None], unless the
    embedding it names has been saved. *)
Definition RecognitionRow_objects_create (table : list RecognitionRow.t)
    (search_embedding_saved : bool) (row : RecognitionRow.t)
  : option (list RecognitionRow.t) :=
  if search_embedding_saved then Some (table ++ [row]) else None.

(** The loop of [FaceMatchingService.create_recognition_result] over
    [enumerate(matches, rank)]: a create that raises is skipped. *)
Fixpoint create_rows (search_embedding : FaceEmbedding.t)
    (search_embedding_saved : bool)
    (result_type : String.string) (searcher : option uuid)
    (rank : Z) (matches : list Match.t)
    (results table : list RecognitionRow.t)
  : list RecognitionRow.t * list RecognitionRow.t :=
  match matches with
  | [] => (results, table)
  | match_ :: rest =>
      let result :=
        {| RecognitionRow.result :=
             {| FaceRecognitionResult.search_embedding := search_embedding;
                FaceRecognitionResult.matched_pet := Match.pet match_;
                FaceRecognitionResult.matched_embedding :=
                  Some (Match.embedding match_);
                FaceRecognitionResult.similarity_score :=
                  Match.similarity match_;
                FaceRecognitionResult.confidence_level :=
                  Match.confidence_level match_;
                FaceRecognitionResult.rank := rank |};
           RecognitionRow.result_type := result_type;
           RecognitionRow.processing_time := None;
           RecognitionRow.searcher := searcher |} in
      match RecognitionRow_objects_create table search_embedding_saved
              result with
      | Some table =>
          create_rows search_embedding search_embedding_saved result_type
            searcher (rank + 1) rest (results ++ [result]) table
      | None =>
          (* [except Exception: continue] *)
          create_rows search_embedding search_embedding_saved result_type
            searcher (rank + 1) rest results table
      end
  end.

(** [FaceMatchingService.create_recognition_result]: the created rows and
    the table after the loop; [search_embedding_saved] tells whether
    [search_embedding] is a saved row. *)
Definition create_recognition_result (table : list RecognitionRow.t)
    (search_embedding : FaceEmbedding.t) (search_embedding_saved : bool)
    (matches : list Match.t)
    (result_type : String.string) (searcher : option uuid)
  : list RecognitionRow.t * list RecognitionRow.t :=
  create_rows search_embedding search_embedding_saved result_type searcher 1
    matches [] table.

(** ** [FaceSearchView.post] *)

Inductive search_quality_t := good | fair | poor.

Record trail_summary_t := {
  eagle_trail_count : Z;
  lobo_trail_count : Z;
  no_match_count : Z
}.

Inductive face_search_response :=
| FaceSearchInvalid                      (* 400, [serializer.errors] *)
| FaceSearchNoFace                       (* 400 *)
| FaceSearchResults (results : list RecognitionRow.t) (total_matches : Z)
    (search_quality : search_quality_t) (best_match : option RecognitionRow.t)
    (trail_summary : trail_summary_t).

(** [FaceSearchSerializer.validate_image] *)
Definition validate_image (value : QRViews.UploadedFile.t) : bool :=
  negb (10 * 1024 * 1024 <? QRViews.UploadedFile.size value) &&
  existsb (fun fmt => endswith (QRViews.lower (QRViews.UploadedFile.name value))
                        fmt)
          [".jpeg"; ".jpg"; ".png"]%string.

(** The field [top_k]: 10 when the request leaves it out, and between 1
    and 50. *)
Definition validate_top_k (top_k : option Z) : option Z :=
  match top_k with
  | None => Some 10
  | Some k => if (1 <=? k) && (k <=? 50) then Some k else None
  end.

Definition is_tier (c : FaceRecognitionResult.confidence_level_t)
    (r : RecognitionRow.t) : bool :=
  match FaceRecognitionResult.confidence_level (RecognitionRow.result r), c with
  | FaceRecognitionResult.eagle_trail, FaceRecognitionResult.eagle_trail
  | FaceRecognitionResult.lobo_trail, FaceRecognitionResult.lobo_trail
  | FaceRecognitionResult.no_match, FaceRecognitionResult.no_match => true
  | _, _ => false
  end.

(** The [trail_summary] of [FaceSearchResultSerializer.to_representation]. *)
Definition trail_summary (results : list RecognitionRow.t) (total_matches : Z)
  : trail_summary_t :=
  let eagle_matches := filter (is_tier FaceRecognitionResult.eagle_trail) results in
  let lobo_matches := filter (is_tier FaceRecognitionResult.lobo_trail) results in
  {| eagle_trail_count := Z.of_nat (length eagle_matches);
     lobo_trail_count := Z.of_nat (length lobo_matches);
     no_match_count :=
       total_matches - Z.of_nat (length eagle_matches)
                     - Z.of_nat (length lobo_matches) |}.

Section FaceSearch.
Variable crop : Type.
Variable yolo_model : String.string -> option (list Box.t).
Variable extract_face_crop : String.string -> list float -> option crop.
Variable generate_embedding : crop -> option vector.
(** What [ImageField] accepts. *)
Variable valid_image : QRViews.UploadedFile.t -> bool.

(** [FaceSearchView.post]: the results are built and serialized, none is
    saved; [user] is the requester when authenticated. *)
Definition FaceSearchView_post (face_embeddings : list FaceEmbedding.t)
    (image_file : QRViews.UploadedFile.t) (top_k : option Z)
    (user : option uuid) (processing_time : float) : face_search_response :=
  match validate_top_k top_k with
  | None => FaceSearchInvalid
  | Some top_k =>
      if negb (valid_image image_file && validate_image image_file)
      then FaceSearchInvalid
      else
        match process_search_image crop yolo_model extract_face_crop
                generate_embedding (QRViews.UploadedFile.name image_file) with
        | None => FaceSearchNoFace
        | Some query_embedding =>
            let matches :=
              find_similar_pets face_embeddings query_embedding top_k in
            let search_quality :=
              match matches with
              | best_match :: _ =>
                  if fgt (Match.similarity best_match) f0_8 then good else fair
              | [] => poor
              end in
            let temp_embedding :=
              FaceEmbedding.set_embedding_vector
                {| FaceEmbedding.pet := None;
                   FaceEmbedding.embedding_vector := [];
                   FaceEmbedding.embedding_model := "search_query"%string;
                   FaceEmbedding.vector_dimension :=
                     Z.of_nat (length query_embedding);
                   FaceEmbedding.status := FaceEmbedding.completed;
                   FaceEmbedding.source_images_count := 0 |}
                query_embedding in
            let results :=
              map (fun match_ =>
                     {| RecognitionRow.result :=
                          {| FaceRecognitionResult.search_embedding :=
                               temp_embedding;
                             FaceRecognitionResult.matched_pet :=
                               Match.pet match_;
                             FaceRecognitionResult.matched_embedding :=
                               Some (Match.embedding match_);
                             FaceRecognitionResult.similarity_score :=
                               Match.similarity match_;
                             FaceRecognitionResult.confidence_level :=
                               Match.confidence_level match_;
                             FaceRecognitionResult.rank := 1 |};
                        RecognitionRow.result_type := "search"%string;
                        RecognitionRow.processing_time := Some processing_time;
                        RecognitionRow.searcher := user |})
                  matches in
            let total_matches := Z.of_nat (length matches) in
            FaceSearchResults results total_matches search_quality
              (hd_error results) (trail_summary results total_matches)
        end
  end.
End FaceSearch.

End Matching.

Module MatchingFacts.
Import Float64 Services FaceRecognitionResult Matching.

Lemma StronglySorted_nth {A : Type} (R : A -> A -> Prop) (l : list A) :
  StronglySorted R l ->
  forall i j a b, (i < j)%nat ->
    nth_error l i = Some a -> nth_error l j = Some b -> R a b.
Proof.
  induction 1 as [|x l Hs IH Hx]; intros i j a b Hij Hi Hj.
  - destruct i; discriminate.
  - destruct j as [|j]; [lia|]. simpl in Hj. destruct i as [|i]; simpl in Hi.
    + injection Hi as <-. apply (proj1 (Forall_forall _ _) Hx).
      eapply nth_error_In; eauto.
    + apply (IH i j); auto; lia.
Qed.

Lemma find_similar_pets_sorted (face_embeddings : list FaceEmbedding.t)
    (query_embedding : vector) (top_k : Z) :
  StronglySorted FaceRecognitionFacts.similarity_ge
    (find_similar_pets face_embeddings query_embedding top_k).
Proof.
  destruct (RankingFacts.find_similar_pets_prefix face_embeddings
              query_embedding top_k) as [n ->].
  apply RankingFacts.StronglySorted_firstn.
  apply FaceRecognitionFacts.similarities_sorted.
Qed.

Lemma find_similar_pets_level (face_embeddings : list FaceEmbedding.t)
    (query_embedding : vector) (top_k : Z) (m : Match.t) :
  In m (find_similar_pets face_embeddings query_embedding top_k) ->
  Match.confidence_level m = determine_confidence_level (Match.similarity m) /\
  is_nan (Match.similarity m) = false.
Proof.
  intros H. apply RankingFacts.find_similar_pets_entry in H as [e [_ [_ ->]]].
  split; [reflexivity|].
  apply FaceRecognitionFacts.calculate_cosine_similarity_not_nan.
Qed.

Lemma find_similar_pets_length (face_embeddings : list FaceEmbedding.t)
    (query_embedding : vector) (top_k : Z) :
  0 <= top_k ->
  Z.of_nat (length (find_similar_pets face_embeddings query_embedding top_k))
  <= top_k.
Proof.
  intros H. rewrite FaceRecognitionFacts.find_similar_pets_unfold.
  rewrite Py.slice_to_nonneg by assumption.
  rewrite length_firstn. lia.
Qed.

(** The row that [create_recognition_result] creates for a match. *)
Definition row_of (search_embedding : FaceEmbedding.t)
    (result_type : String.string) (searcher : option uuid) (rank : Z)
    (match_ : Match.t) : RecognitionRow.t :=
  {| RecognitionRow.result :=
       {| search_embedding := search_embedding;
          matched_pet := Match.pet match_;
          matched_embedding := Some (Match.embedding match_);
          similarity_score := Match.similarity match_;
          confidence_level := Match.confidence_level match_;
          rank := rank |};
     RecognitionRow.result_type := result_type;
     RecognitionRow.processing_time := None;
     RecognitionRow.searcher := searcher |}.

(** The rows of a list of matches, ranked from [rank] on. *)
Fixpoint ranked_rows (search_embedding : FaceEmbedding.t)
    (result_type : String.string) (searcher : option uuid)
    (rank : Z) (matches : list Match.t) : list RecognitionRow.t :=
  match matches with
  | [] => []
  | match_ :: rest =>
      row_of search_embedding result_type searcher rank match_
      :: ranked_rows search_embedding result_type searcher (rank + 1) rest
  end.

Lemma ranked_rows_nth (search_embedding : FaceEmbedding.t)
    (result_type : String.string) (searcher : option uuid)
    (matches : list Match.t) :
  forall (rank : Z) (i : nat),
    nth_error (ranked_rows search_embedding result_type searcher rank matches) i
    = option_map
        (row_of search_embedding result_type searcher (rank + Z.of_nat i))
        (nth_error matches i).
Proof.
  induction matches as [|m ms IH]; intros rank i.
  - destruct i; reflexivity.
  - destruct i as [|i]; simpl.
    + now rewrite Z.add_0_r.
    + rewrite IH. now replace (rank + 1 + Z.of_nat i) with
        (rank + Z.pos (Pos.of_succ_nat i)) by lia.
Qed.

Lemma ranked_rows_length (search_embedding : FaceEmbedding.t)
    (result_type : String.string) (searcher : option uuid)
    (matches : list Match.t) (rank : Z) :
  length (ranked_rows search_embedding result_type searcher rank matches) =
  length matches.
Proof.
  revert rank. induction matches as [|m ms IH]; intros rank; simpl;
    [reflexivity|]. now rewrite IH.
Qed.

(** With a saved search embedding every create succeeds. *)
Lemma create_rows_saved (search_embedding : FaceEmbedding.t)
    (result_type : String.string) (searcher : option uuid)
    (matches : list Match.t) :
  forall (rank : Z) (results table : list RecognitionRow.t),
    create_rows search_embedding true result_type searcher rank matches
      results table =
    (results ++ ranked_rows search_embedding result_type searcher rank matches,
     table ++ ranked_rows search_embedding result_type searcher rank matches).
Proof.
  induction matches as [|m ms IH]; intros rank results table; simpl.
  - now rewrite !app_nil_r.
  - rewrite IH. unfold row_of. now rewrite <- !app_assoc.
Qed.

(** With a search embedding that was not saved every create raises. *)
Lemma create_rows_unsaved (search_embedding : FaceEmbedding.t)
    (result_type : String.string) (searcher : option uuid)
    (matches : list Match.t) :
  forall (rank : Z) (results table : list RecognitionRow.t),
    create_rows search_embedding false result_type searcher rank matches
      results table = (results, table).
Proof.
  induction matches as [|m ms IH]; intros rank results table; simpl;
    [reflexivity|]. apply IH.
Qed.

(** X14.  [create_recognition_result] on the matches of [find_similar_pets].
    When the search embedding is not a saved row, every create raises and
    is skipped: no row is returned and the table is left as it is.  When it
    is saved, the rows are appended to the table, one per match; the row at
    position [i] has rank [i + 1], the pet and the score of the [i]-th
    match and the tier of its own score; and a row of a smaller rank never
    has a smaller score. *)
Theorem create_recognition_result_ranked (table : list RecognitionRow.t)
    (search_embedding : FaceEmbedding.t) (search_embedding_saved : bool)
    (face_embeddings : list FaceEmbedding.t) (query_embedding : vector)
    (top_k : Z) (result_type : String.string) (searcher : option uuid) :
  let matches := find_similar_pets face_embeddings query_embedding top_k in
  let out :=
    create_recognition_result table search_embedding search_embedding_saved
      matches result_type searcher in
  if search_embedding_saved then
    snd out = table ++ fst out /\
    length (fst out) = length matches /\
    forall i r, nth_error (fst out) i = Some r ->
      rank (RecognitionRow.result r) = Z.of_nat i + 1 /\
      RecognitionRow.result_type r = result_type /\
      RecognitionRow.searcher r = searcher /\
      (exists m, nth_error matches i = Some m /\
                 matched_pet (RecognitionRow.result r) = Match.pet m /\
                 similarity_score (RecognitionRow.result r) =
                   Match.similarity m) /\
      confidence_level (RecognitionRow.result r) =
        determine_confidence_level
          (similarity_score (RecognitionRow.result r)) /\
      forall j r', nth_error (fst out) j = Some r' ->
        rank (RecognitionRow.result r) < rank (RecognitionRow.result r') ->
        fge (similarity_score (RecognitionRow.result r))
            (similarity_score (RecognitionRow.result r')) = true
  else out = ([], table).
Proof.
  intros matches out. unfold out, create_recognition_result.
  destruct search_embedding_saved; [|apply create_rows_unsaved].
  rewrite create_rows_saved. cbn [fst snd app].
  split; [reflexivity|]. split; [apply ranked_rows_length|].
  intros i r Hi. rewrite ranked_rows_nth in Hi.
  remember (1 + Z.of_nat i) as ri eqn:Hri in Hi.
  destruct (nth_error matches i) as [m|] eqn:Em; [|discriminate].
  injection Hi as <-. unfold row_of; cbn [rank RecognitionRow.result
    RecognitionRow.result_type RecognitionRow.searcher
    matched_pet similarity_score confidence_level].
  split; [lia|]. split; [reflexivity|]. split; [reflexivity|].
  split; [exists m; auto|]. split.
  { apply (find_similar_pets_level face_embeddings query_embedding top_k).
    eapply nth_error_In; eauto. }
  intros j r' Hj Hlt. rewrite ranked_rows_nth in Hj.
  remember (1 + Z.of_nat j) as rj eqn:Hrj in Hj.
  destruct (nth_error matches j) as [m'|] eqn:Em'; [|discriminate].
  injection Hj as <-. unfold row_of in *; cbn [rank RecognitionRow.result
    matched_pet similarity_score confidence_level] in *.
  apply (StronglySorted_nth _ _
           (find_similar_pets_sorted face_embeddings query_embedding top_k)
           i j m m'); auto. lia.
Qed.

Lemma flt_fle_trans (x y z : float) :
  flt x y = true -> fle y z = true -> flt x z = true.
Proof.
  intros Hxy Hyz.
  destruct (fle_not_nan _ _ Hyz) as [Hy Hz].
  assert (Hx : is_nan x = false).
  { destruct x; try reflexivity. now rewrite flt_nan_l in Hxy. }
  rewrite (flt_not_fge _ _ Hx Hz). rewrite (flt_not_fge _ _ Hx Hy) in Hxy.
  change (fge x z) with (fle z x). change (fge x y) with (fle y x) in Hxy.
  destruct (fle z x) eqn:Hzx; [|reflexivity].
  now rewrite (fle_trans _ _ _ Hyz Hzx) in Hxy.
Qed.

Lemma tier_partition (results : list RecognitionRow.t) :
  (length (filter (is_tier eagle_trail) results) +
   length (filter (is_tier lobo_trail) results) +
   length (filter (is_tier no_match) results))%nat = length results.
Proof.
  induction results as [|r l IH]; [reflexivity|]. simpl.
  destruct (is_tier eagle_trail r) eqn:E1, (is_tier lobo_trail r) eqn:E2,
           (is_tier no_match r) eqn:E3; simpl; try lia;
    unfold is_tier in *;
    destruct (confidence_level (RecognitionRow.result r)); discriminate.
Qed.

Section FaceSearchFacts.
Variable crop : Type.
Variable yolo_model : String.string -> option (list Box.t).
Variable extract_face_crop : String.string -> list float -> option crop.
Variable generate_embedding : crop -> option vector.
Variable valid_image : QRViews.UploadedFile.t -> bool.

Local Abbreviation FaceSearchView_post :=
  (FaceSearchView_post crop yolo_model extract_face_crop generate_embedding
     valid_image).

Lemma FaceSearchView_post_results (face_embeddings : list FaceEmbedding.t)
    (image_file : QRViews.UploadedFile.t) (top_k : option Z)
    (user : option uuid) (processing_time : float)
    (results : list RecognitionRow.t) (total_matches : Z)
    (search_quality : search_quality_t) (best_match : option RecognitionRow.t)
    (summary : trail_summary_t) :
  FaceSearchView_post face_embeddings image_file top_k user processing_time =
    FaceSearchResults results total_matches search_quality best_match summary ->
  exists (k : Z) (query_embedding : vector) (matches : list Match.t),
    validate_top_k top_k = Some k /\
    valid_image image_file = true /\ validate_image image_file = true /\
    process_search_image crop yolo_model extract_face_crop generate_embedding
      (QRViews.UploadedFile.name image_file) = Some query_embedding /\
    matches = find_similar_pets face_embeddings query_embedding k /\
    map (fun r => similarity_score (RecognitionRow.result r)) results =
      map Match.similarity matches /\
    map (fun r => confidence_level (RecognitionRow.result r)) results =
      map Match.confidence_level matches /\
    map (fun r => matched_pet (RecognitionRow.result r)) results =
      map Match.pet matches /\
    Forall (fun r => rank (RecognitionRow.result r) = 1 /\
                     RecognitionRow.searcher r = user) results /\
    total_matches = Z.of_nat (length matches) /\
    search_quality =
      match matches with
      | best :: _ => if fgt (Match.similarity best) f0_8 then good else fair
      | [] => poor
      end /\
    best_match = hd_error results /\
    summary = trail_summary results total_matches.
Proof.
  unfold Matching.FaceSearchView_post. intros H.
  destruct (validate_top_k top_k) as [k|]; [|discriminate].
  destruct (valid_image image_file); [|discriminate].
  destruct (validate_image image_file); [|discriminate]. simpl in H.
  destruct (process_search_image _ _ _ _ _) as [q|]; [|discriminate].
  injection H as <- <- <- <- <-.
  exists k, q, (find_similar_pets face_embeddings q k).
  repeat split; try reflexivity;
    try (rewrite map_map; reflexivity).
  apply Forall_forall. intros r Hr. apply in_map_iff in Hr as [m [<- _]].
  split; reflexivity.
Qed.

Lemma validate_top_k_range (top_k : option Z) (k : Z) :
  validate_top_k top_k = Some k ->
  1 <= k <= 50 /\ (top_k = None -> k = 10) /\
  (forall k', top_k = Some k' -> k = k').
Proof.
  unfold validate_top_k. destruct top_k as [k'|].
  - destruct ((1 <=? k') && (k' <=? 50)) eqn:E; [|discriminate].
    intros [= <-]. apply andb_true_iff in E as [E1 E2].
    apply Z.leb_le in E1, E2. repeat split; try lia; try discriminate.
    now intros ? [= <-].
  - intros [= <-]. repeat split; try lia. discriminate.
Qed.

(** X15.  A successful [FaceSearchView.post] returns at most [top_k]
    results, at most 10 when the request names no [top_k] and never more
    than 50, and nothing but the image passes validation on the way; the
    three counts of [trail_summary] are the numbers of results of each tier
    and add up to [total_matches]; every result carries the rank 1. *)
Theorem FaceSearchView_post_trail_summary
    (face_embeddings : list FaceEmbedding.t)
    (image_file : QRViews.UploadedFile.t) (top_k : option Z)
    (user : option uuid) (processing_time : float)
    (results : list RecognitionRow.t) (total_matches : Z)
    (search_quality : search_quality_t) (best_match : option RecognitionRow.t)
    (summary : trail_summary_t) :
  FaceSearchView_post face_embeddings image_file top_k user processing_time =
    FaceSearchResults results total_matches search_quality best_match summary ->
  total_matches = Z.of_nat (length results) /\
  total_matches <= match top_k with Some k => k | None => 10 end <= 50 /\
  QRViews.UploadedFile.size image_file <= 10 * 1024 * 1024 /\
  eagle_trail_count summary =
    Z.of_nat (length (filter (is_tier eagle_trail) results)) /\
  lobo_trail_count summary =
    Z.of_nat (length (filter (is_tier lobo_trail) results)) /\
  no_match_count summary =
    Z.of_nat (length (filter (is_tier no_match) results)) /\
  eagle_trail_count summary + lobo_trail_count summary +
    no_match_count summary = total_matches /\
  Forall (fun r => rank (RecognitionRow.result r) = 1) results.
Proof.
  intros H. apply FaceSearchView_post_results in H
    as (k & q & matches & Hk & _ & Himg & _ & -> & Hs & _ & _ & Hr & -> & _
        & _ & ->).
  apply validate_top_k_range in Hk as [Hk [Hnone Hsome]].
  assert (Hlen : length results = length (find_similar_pets face_embeddings q k)).
  { apply (f_equal (@length _)) in Hs. now rewrite !length_map in Hs. }
  pose proof (find_similar_pets_length face_embeddings q k ltac:(lia)) as Hle.
  pose proof (tier_partition results) as Hp.
  rewrite <- Hlen in *.
  split; [reflexivity|]. split.
  { destruct top_k as [k'|]; [rewrite <- (Hsome k' eq_refl)|rewrite <- Hnone];
      auto; lia. }
  split.
  { unfold validate_image in Himg. apply andb_true_iff in Himg as [Hsz _].
    apply negb_true_iff, Z.ltb_ge in Hsz. exact Hsz. }
  unfold trail_summary. simpl.
  repeat split; try lia.
  eapply Forall_impl; [|exact Hr]. now intros r [? _].
Qed.

(** X16.  The [search_quality] of a successful [FaceSearchView.post]:
    'poor' exactly when there is no result; otherwise [best_match] is the
    first result, no result has a higher score, and the quality is 'good'
    when its tier is eagle_trail, 'fair' when its tier is no_match, and
    'good' only when its tier is eagle_trail or lobo_trail. *)
Theorem FaceSearchView_post_search_quality
    (face_embeddings : list FaceEmbedding.t)
    (image_file : QRViews.UploadedFile.t) (top_k : option Z)
    (user : option uuid) (processing_time : float)
    (results : list RecognitionRow.t) (total_matches : Z)
    (search_quality : search_quality_t) (best_match : option RecognitionRow.t)
    (summary : trail_summary_t) :
  FaceSearchView_post face_embeddings image_file top_k user processing_time =
    FaceSearchResults results total_matches search_quality best_match summary ->
  (search_quality = poor <-> results = []) /\
  (best_match = None <-> results = []) /\
  forall best, best_match = Some best ->
    In best results /\
    (forall r, In r results ->
       fge (similarity_score (RecognitionRow.result best))
           (similarity_score (RecognitionRow.result r)) = true) /\
    (confidence_level (RecognitionRow.result best) = eagle_trail ->
       search_quality = good) /\
    (confidence_level (RecognitionRow.result best) = no_match ->
       search_quality = fair) /\
    (search_quality = good ->
       confidence_level (RecognitionRow.result best) <> no_match).
Proof.
  intros H. apply FaceSearchView_post_results in H
    as (k & q & matches & _ & _ & _ & _ & Hm & Hs & Hc & _ & _ & _ & -> & ->
        & _).
  pose proof (find_similar_pets_sorted face_embeddings q k) as Hsorted.
  assert (Hlevel : forall m, In m matches ->
            Match.confidence_level m =
              determine_confidence_level (Match.similarity m) /\
            is_nan (Match.similarity m) = false).
  { intros m Hin. rewrite Hm in Hin.
    now apply find_similar_pets_level in Hin. }
  rewrite <- Hm in Hsorted. clear Hm.
  destruct results as [|b rs], matches as [|m ms]; try discriminate.
  - repeat split; auto; discriminate.
  - simpl in Hs, Hc. injection Hs as Hs Hss. injection Hc as Hc Hcs.
    destruct (Hlevel m (or_introl eq_refl)) as [Hlm Hnan].
    split; [split; [destruct (fgt _ _)|]; discriminate|].
    split; [split; discriminate|].
    intros best [= <-]. split; [now left|]. split.
    { intros r [<-|Hr].
      - unfold fge. apply fle_refl. now rewrite Hs.
      - apply (in_map (fun r => similarity_score (RecognitionRow.result r)))
          in Hr. rewrite Hss in Hr. apply in_map_iff in Hr as [m' [Hm' Hin]].
        rewrite Hs, <- Hm'. inversion Hsorted as [|? ? _ Hall]; subst.
        now apply (proj1 (Forall_forall _ _) Hall). }
    rewrite Hc, Hlm. unfold determine_confidence_level.
    assert (H89 : flt f0_8 f0_9 = true) by reflexivity.
    assert (Hn8 : is_nan f0_8 = false) by reflexivity.
    change (fge (Match.similarity m) f0_9) with (fle f0_9 (Match.similarity m)).
    change (fge (Match.similarity m) f0_8) with (fle f0_8 (Match.similarity m)).
    change (fgt (Match.similarity m) f0_8)
      with (flt f0_8 (Match.similarity m)).
    destruct (fle f0_9 (Match.similarity m)) eqn:E9.
    { rewrite (flt_fle_trans _ _ _ H89 E9).
      repeat split; auto; discriminate. }
    destruct (fle f0_8 (Match.similarity m)) eqn:E8.
    { repeat split; try discriminate. }
    assert (Hlt : flt f0_8 (Match.similarity m) = false).
    { destruct (flt f0_8 (Match.similarity m)) eqn:Hlt; [|reflexivity].
      apply flt_fle in Hlt. congruence. }
    rewrite Hlt. repeat split; auto; discriminate.
Qed.
End FaceSearchFacts.

Definition park_search (image : String.string) (top_k : option Z)
  : face_search_response :=
  FaceSearchView_post (list float) FaceRecognitionFacts.sample_yolo
    FaceRecognitionFacts.sample_extract FaceRecognitionFacts.sample_embed
    (fun _ => true) FaceRecognitionFacts.sample_corpus
    {| QRViews.UploadedFile.name := image; QRViews.UploadedFile.size := 250000 |}
    top_k None f0_5.

Lemma FaceSearchView_post_trail_summary_witness :
  exists results best summary,
    park_search "buddy1.jpg"%string None =
      FaceSearchResults results 5 good best summary /\
    length results = 5%nat /\
    eagle_trail_count summary = 2 /\ lobo_trail_count summary = 1 /\
    no_match_count summary = 2 /\
    Forall (fun r => rank (RecognitionRow.result r) = 1) results.
Proof.
  assert (E : exists results best summary,
             park_search "buddy1.jpg"%string None =
               FaceSearchResults results 5 good best summary /\
             length results = 5%nat /\
             eagle_trail_count summary = 2 /\ lobo_trail_count summary = 1 /\
             no_match_count summary = 2).
  { vm_compute. do 3 eexists. repeat split. }
  destruct E as (results & best & summary & E & Hlen & He & Hl & Hn).
  exists results, best, summary. split; [exact E|].
  destruct (FaceSearchView_post_trail_summary _ _ _ _ _ _ _ _ _ _ _ _ _ _ _ E)
    as (_ & _ & _ & _ & _ & _ & _ & H8).
  repeat split; assumption.
Defined.

Lemma FaceSearchView_post_search_quality_witness :
  exists results total summary best,
    park_search "buddy1.jpg"%string (Some 2) =
      FaceSearchResults results total good (Some best) summary /\
    matched_pet (RecognitionRow.result best) = Some 5%N /\
    confidence_level (RecognitionRow.result best) <> no_match.
Proof.
  assert (E : exists results total summary best,
             park_search "buddy1.jpg"%string (Some 2) =
               FaceSearchResults results total good (Some best) summary /\
             matched_pet (RecognitionRow.result best) = Some 5%N).
  { vm_compute. do 4 eexists. split; reflexivity. }
  destruct E as (results & total & summary & best & E & Hpet).
  exists results, total, summary, best. split; [exact E|].
  split; [exact Hpet|].
  destruct (FaceSearchView_post_search_quality _ _ _ _ _ _ _ _ _ _ _ _ _ _ _ E)
    as (_ & _ & Hbest).
  destruct (Hbest best eq_refl) as (_ & _ & _ & _ & Hgood).
  exact (Hgood eq_refl).
Defined.

End MatchingFacts.

(* ===================================================================== *)
(** * More of pets/views.py: closing a session and checking a token *)
(* ===================================================================== *)

Module PetsSessionViews.
Import PetsViews.

Definition set_end_time (self : PetRegistrationSession.t)
    (v : option datetime) : PetRegistrationSession.t :=
  {| PetRegistrationSession.id := PetRegistrationSession.id self;
     PetRegistrationSession.pet := PetRegistrationSession.pet self;
     PetRegistrationSession.session_token :=
       PetRegistrationSession.session_token self;
     PetRegistrationSession.status := PetRegistrationSession.status self;
     PetRegistrationSession.start_time :=
       PetRegistrationSession.start_time self;
     PetRegistrationSession.end_time := v;
     PetRegistrationSession.expected_images_count :=
       PetRegistrationSession.expected_images_count self;
     PetRegistrationSession.actual_images_count :=
       PetRegistrationSession.actual_images_count self |}.

(** [CharField(max_length=...)] on the trimmed value: not blank and not
    longer. *)
Definition CharField_ok (max_length : nat) (value : String.string) : bool :=
  negb (String.eqb value String.EmptyString) &&
  Nat.leb (String.length value) max_length.

(** [CompleteFaceIDSerializer.is_valid()]; [None] when looking up the
    session raises.  [success] and [notes] accept what the request gives. *)
Definition CompleteFaceIDSerializer_is_valid (db : pets_db)
    (session_token : String.string) : option bool :=
  if negb (CharField_ok 100 session_token) then Some false
  else
    match Table.get (is_active_session_with_token session_token)
            (registration_sessions db) with
    | Table.Found _ => Some true
    | Table.DoesNotExist => Some false
    | Table.MultipleObjectsReturned => None
    end.

Inductive complete_face_id_response :=
| CompleteNotFound            (* 404, [get_object] *)
| CompleteInvalid             (* 400, [serializer.errors] *)
| CompleteSessionNotFound     (* 404, "Session not found" *)
| CompleteServerError         (* 500, an exception nothing catches *)
| Completed (pet_status : Pet.registration_status_t) (images_captured : Z).

(** [session_token=session_token, pet=pet] *)
Definition is_session_of (token : String.string) (pk : uuid)
    (s : PetRegistrationSession.t) : bool :=
  String.eqb (PetRegistrationSession.session_token s) token &&
  N.eqb (PetRegistrationSession.pet s) pk.

Section Complete.
(** [from face_recognition.tasks import generate_pet_embedding] followed by
    [generate_pet_embedding.delay(pet.id, session.id)]: whether the two
    statements return rather than raise. *)
Variable generate_pet_embedding_delay : uuid -> uuid -> bool.

(** [PetViewSet.complete_face_id]; [success] is the field of the request,
    [True] when left out.  The columns [capture_duration] and [notes] are
    written and never read; the session record leaves them out. *)
Definition complete_face_id (db : pets_db) (now : datetime) (user pk : uuid)
    (session_token : String.string) (success : option bool)
  : complete_face_id_response * pets_db :=
  match get_object db user pk with
  | None => (CompleteNotFound, db)
  | Some pet =>
      match CompleteFaceIDSerializer_is_valid db session_token with
      | None => (CompleteServerError, db)
      | Some false => (CompleteInvalid, db)
      | Some true =>
          let success := match success with Some b => b | None => true end in
          match Table.get (is_session_of session_token (Pet.id pet))
                  (registration_sessions db) with
          | Table.DoesNotExist => (CompleteSessionNotFound, db)
          | Table.MultipleObjectsReturned => (CompleteServerError, db)
          | Table.Found session =>
              let session := set_end_time session (Some now) in
              if success &&
                 (0 <? PetRegistrationSession.actual_images_count session)
              then
                if generate_pet_embedding_delay (Pet.id pet)
                     (PetRegistrationSession.id session)
                then
                  let session :=
                    PetRegistrationSession.set_status session
                      PetRegistrationSession.completed in
                  let pet := Pet.set_registration_status pet Pet.completed in
                  (Completed (Pet.registration_status pet)
                     (PetRegistrationSession.actual_images_count session),
                   with_pets
                     (with_sessions db
                        (save_session session (registration_sessions db)))
                     (save_pet pet (pets db)))
                else (CompleteServerError, db)
              else
                let session :=
                  PetRegistrationSession.set_status session
                    PetRegistrationSession.failed in
                let pet := Pet.set_registration_status pet Pet.failed in
                (Completed (Pet.registration_status pet)
                   (PetRegistrationSession.actual_images_count session),
                 with_pets
                   (with_sessions db
                      (save_session session (registration_sessions db)))
                   (save_pet pet (pets db)))
          end
      end
  end.
End Complete.

(** ** The view [validate_session_token] *)

(** The [reason] of the answer: 'expired', the status of the session, or
    'not_found'. *)
Inductive reason_t :=
| reason_status (s : PetRegistrationSession.status_t)
| not_found.

Inductive validate_response :=
| TokenRequired               (* 400 *)
| TokenServerError            (* 500, an exception nothing catches *)
| TokenChecked (valid : bool) (session : option PetRegistrationSession.t)
    (reason : reason_t).

(** [pet__owner=request.user] *)
Definition owned_by (db : pets_db) (user : uuid)
    (s : PetRegistrationSession.t) : bool :=
  existsb (fun p => N.eqb (Pet.id p) (PetRegistrationSession.pet s) &&
                    N.eqb (Pet.owner p) user)
          (pets db).

Definition validate_session_token (db : pets_db) (now : datetime)
    (user : uuid) (session_token : option String.string) : validate_response :=
  match session_token with
  | None => TokenRequired
  | Some token =>
      if String.eqb token String.EmptyString then TokenRequired
      else
        match Table.get
                (fun s =>
                   String.eqb (PetRegistrationSession.session_token s) token &&
                   owned_by db user s)
                (registration_sessions db) with
        | Table.DoesNotExist => TokenChecked false None not_found
        | Table.MultipleObjectsReturned => TokenServerError
        | Table.Found session =>
            let is_valid :=
              PetRegistrationSession.status_eqb
                (PetRegistrationSession.status session)
                PetRegistrationSession.active &&
              negb (PetRegistrationSession.is_expired now session) in
            TokenChecked is_valid
              (if is_valid then Some session else None)
              (if PetRegistrationSession.is_expired now session
               then reason_status PetRegistrationSession.expired
               else reason_status (PetRegistrationSession.status session))
        end
  end.

End PetsSessionViews.

Module PetsSessionFacts.
Import Float64 Services PetsViews PetsSessionViews.

(** ** Image intake: what is written *)

Lemma is_active_session_with_token_spec (token : String.string)
    (s : PetRegistrationSession.t) :
  is_active_session_with_token token s = true <->
  PetRegistrationSession.session_token s = token /\
  PetRegistrationSession.status s = PetRegistrationSession.active.
Proof.
  unfold is_active_session_with_token. rewrite andb_true_iff, String.eqb_eq.
  destruct (PetRegistrationSession.status s); simpl; split; intros [H1 H2];
    split; auto; discriminate.
Qed.

(** The images of a session among the rows of [PetImage]. *)
Definition images_of (images : list PetImage.t) (session : uuid)
  : list PetImage.t :=
  filter (fun im => match PetImage.session im with
                    | Some k => N.eqb k session
                    | None => false
                    end)
         images.

(** The images of the session carry the numbers 1, 2, ... up to its
    [actual_images_count], in the order they were stored. *)
Definition numbered (db : pets_db) (s : PetRegistrationSession.t) : Prop :=
  0 <= PetRegistrationSession.actual_images_count s /\
  map PetImage.sequence_number
      (images_of (pet_images db) (PetRegistrationSession.id s)) =
  map Z.of_nat
      (seq 1 (Z.to_nat (PetRegistrationSession.actual_images_count s))).

Section IntakeFacts.
Variable yolo_model : String.string -> option (list Box.t).
Variable assess_image_quality :
  String.string -> option (float * float * float).
Variable valid_image : String.string -> bool.
Variable uuid4 : nat -> uuid.

Local Abbreviation PetImageUploadView_post :=
  (PetImageUploadView_post yolo_model assess_image_quality valid_image uuid4).
Local Abbreviation process_uploaded_images :=
  (process_uploaded_images yolo_model assess_image_quality uuid4).

Lemma PetImageUploadView_post_cases (db : pets_db) (now : datetime)
    (session_token : String.string) (images : list String.string) :
  (exists session,
     Table.get (is_active_session_with_token session_token)
       (registration_sessions db) = Table.Found session /\
     PetRegistrationSession.is_expired now session = false /\
     (1 <= length images <= 20)%nat /\
     forallb valid_image images = true /\
     PetImageUploadView_post db now session_token images =
       (Uploaded (PetRegistrationSession.actual_images_count session +
                  Z.of_nat (length images))
                 (process_uploaded_images session 0 images),
        with_sessions
          (with_images db
             (pet_images db ++ process_uploaded_images session 0 images))
          (save_session
             (PetRegistrationSession.set_actual_images_count session
                (PetRegistrationSession.actual_images_count session +
                 Z.of_nat (length images)))
             (registration_sessions db)))) \/
  (snd (PetImageUploadView_post db now session_token images) = db /\
   forall total processed,
     fst (PetImageUploadView_post db now session_token images) <>
     Uploaded total processed).
Proof.
  unfold PetsViews.PetImageUploadView_post, PetImageUploadSerializer_is_valid.
  destruct (Table.get _ _) as [session| |] eqn:G; cbv zeta.
  - destruct (negb (length images =? 0)%nat) eqn:E0; simpl;
      [|right; split; [reflexivity|discriminate]].
    destruct (length images <=? 20)%nat eqn:E20; simpl;
      [|right; split; [reflexivity|discriminate]].
    destruct (forallb valid_image images) eqn:Ev; simpl;
      [|right; split; [reflexivity|discriminate]].
    destruct (String.length session_token <=? 100)%nat; simpl;
      [|right; split; [reflexivity|discriminate]].
    destruct (PetRegistrationSession.is_expired now session) eqn:Ee; simpl;
      [right; split; [reflexivity|discriminate]|].
    left. exists session. repeat split; auto.
    + apply negb_true_iff, Nat.eqb_neq in E0. lia.
    + now apply Nat.leb_le.
  - right. split; [reflexivity|discriminate].
  - right. destruct (String.length session_token <=? 100)%nat; simpl;
      split; try reflexivity; discriminate.
Qed.

Lemma process_uploaded_images_numbers (session : PetRegistrationSession.t)
    (images : list String.string) (k : nat) :
  map PetImage.sequence_number (process_uploaded_images session k images) =
  map (fun i => PetRegistrationSession.actual_images_count session +
                Z.of_nat i)
      (seq (S k) (length images)).
Proof.
  revert k. induction images as [|image rest IH]; intros k;
    [reflexivity|].
  cbn [PetsViews.process_uploaded_images map length seq].
  rewrite IH. f_equal.
  cbn [PetImage.sequence_number process_uploaded_image]. lia.
Qed.

Lemma process_uploaded_images_session (session : PetRegistrationSession.t)
    (images : list String.string) (k : nat) :
  Forall (fun im =>
            PetImage.session im = Some (PetRegistrationSession.id session) /\
            PetImage.pet im = PetRegistrationSession.pet session)
         (process_uploaded_images session k images).
Proof.
  revert k. induction images as [|image rest IH]; intros k; simpl;
    constructor; auto.
Qed.

Lemma process_uploaded_images_image (session : PetRegistrationSession.t)
    (images : list String.string) (k : nat) :
  map PetImage.image (process_uploaded_images session k images) = images.
Proof.
  revert k. induction images as [|image rest IH]; intros k; simpl;
    [reflexivity|]. now rewrite IH.
Qed.

(** X17.  An accepted upload belongs to a session that carries the token,
    has the status [active] and started at most 30 minutes ago, and has
    between 1 and 20 images.  With [c] the image count of that session,
    the stored images are numbered [c + 1], [c + 2], ... in the order of
    the request and point to the session and its pet, the answer reports
    [c] plus the number of images, the session is saved with that count
    and no pet is written.  Every other answer leaves the database as it
    was. *)
Theorem PetImageUploadView_post_bookkeeping (db : pets_db) (now : datetime)
    (session_token : String.string) (images : list String.string) :
  match PetImageUploadView_post db now session_token images with
  | (Uploaded total_images processed_images, db') =>
      exists session,
        In session (registration_sessions db) /\
        PetRegistrationSession.session_token session = session_token /\
        PetRegistrationSession.status session = PetRegistrationSession.active /\
        now <= PetRegistrationSession.start_time session + minutes 30 /\
        (1 <= length images <= 20)%nat /\
        total_images =
          PetRegistrationSession.actual_images_count session +
          Z.of_nat (length images) /\
        map PetImage.sequence_number processed_images =
          map (fun i => PetRegistrationSession.actual_images_count session +
                        Z.of_nat i)
              (seq 1 (length images)) /\
        map PetImage.image processed_images = images /\
        Forall (fun im =>
                  PetImage.session im =
                    Some (PetRegistrationSession.id session) /\
                  PetImage.pet im = PetRegistrationSession.pet session)
               processed_images /\
        registration_sessions db' =
          save_session
            (PetRegistrationSession.set_actual_images_count session
               total_images)
            (registration_sessions db) /\
        pets db' = pets db
  | (_, db') => db' = db
  end.
Proof.
  destruct (PetImageUploadView_post_cases db now session_token images)
    as [(session & G & He & Hn & _ & ->)|[Hdb Hne]].
  - exists session.
    apply QRFacts.get_found in G as (Hin & Hp & _).
    apply is_active_session_with_token_spec in Hp as [Ht Hs].
    repeat split; try assumption; try lia; try reflexivity.
    + unfold PetRegistrationSession.is_expired in He. rewrite Hs in He.
      apply Z.ltb_ge in He. exact He.
    + apply process_uploaded_images_numbers.
    + apply process_uploaded_images_image.
    + apply process_uploaded_images_session.
  - destruct (PetImageUploadView_post db now session_token images)
      as [[| | | |total processed] db']; simpl in *; try assumption.
    now destruct (Hne total processed).
Qed.

Lemma images_of_app (l1 l2 : list PetImage.t) (sid : uuid) :
  images_of (l1 ++ l2) sid = images_of l1 sid ++ images_of l2 sid.
Proof. apply filter_app. Qed.

Lemma images_of_all (l : list PetImage.t) (sid : uuid) :
  Forall (fun im => PetImage.session im = Some sid) l -> images_of l sid = l.
Proof.
  induction 1 as [|im l H _ IH]; simpl; [reflexivity|].
  rewrite H, N.eqb_refl. now rewrite IH.
Qed.

Lemma images_of_none (l : list PetImage.t) (sid sid' : uuid) :
  sid <> sid' ->
  Forall (fun im => PetImage.session im = Some sid) l -> images_of l sid' = [].
Proof.
  intros Hne. induction 1 as [|im l H _ IH]; simpl; [reflexivity|].
  rewrite H. destruct (N.eqb_spec sid sid'); [contradiction|exact IH].
Qed.

(** X18.  [PetImageUploadView.post] keeps the numbering of the images: if
    for every session the stored images of the session are numbered 1, 2,
    ... up to its [actual_images_count], the same holds after the request,
    whatever its answer. *)
Theorem PetImageUploadView_post_numbering (db db' : pets_db) (now : datetime)
    (session_token : String.string) (images : list String.string)
    (response : upload_response) :
  (forall s, In s (registration_sessions db) -> numbered db s) ->
  PetImageUploadView_post db now session_token images = (response, db') ->
  forall s, In s (registration_sessions db') -> numbered db' s.
Proof.
  intros Hinv Hpost.
  destruct (PetImageUploadView_post_cases db now session_token images)
    as [(session & G & _ & _ & _ & E)|[Hdb _]].
  2:{ rewrite Hpost in Hdb. simpl in Hdb. subst db'. exact Hinv. }
  rewrite Hpost in E. injection E as _ ->.
  apply QRFacts.get_found in G as (Hin & _ & _).
  destruct (Hinv session Hin) as [Hc Hnum].
  pose proof (process_uploaded_images_session session images 0) as Hall.
  intros s Hs. unfold numbered. cbn [registration_sessions pet_images
    with_sessions with_images] in *.
  unfold save_session, Table.save in Hs. apply in_map_iff in Hs as [r [Hr Hrin]].
  rewrite images_of_app. subst s.
  cbn [PetRegistrationSession.id
       PetRegistrationSession.set_actual_images_count].
  destruct (N.eqb_spec (PetRegistrationSession.id r)
              (PetRegistrationSession.id session)) as [Eid|Eid].
  - cbn [PetRegistrationSession.id
      PetRegistrationSession.actual_images_count
      PetRegistrationSession.set_actual_images_count].
    split; [lia|].
    assert (Ha : images_of (process_uploaded_images session 0 images)
                   (PetRegistrationSession.id session) =
                 process_uploaded_images session 0 images).
    { apply images_of_all. eapply Forall_impl; [|exact Hall].
      now intros im [? _]. }
    rewrite Ha, map_app, Hnum, process_uploaded_images_numbers.
    replace (Z.to_nat (PetRegistrationSession.actual_images_count session +
                       Z.of_nat (length images)))
      with (Z.to_nat (PetRegistrationSession.actual_images_count session) +
            length images)%nat by lia.
    rewrite seq_app, map_app. f_equal.
    remember (Z.to_nat (PetRegistrationSession.actual_images_count session))
      as c eqn:Ec.
    assert (Hshift : forall n k,
               map (fun x => PetRegistrationSession.actual_images_count session
                             + Z.of_nat x) (seq k n) =
               map Z.of_nat (seq (c + k) n)).
    { induction n as [|n IH]; intros k; [reflexivity|]. simpl.
      rewrite IH. f_equal; [lia|]. now rewrite Nat.add_succ_r. }
    rewrite Hshift. now rewrite (Nat.add_comm c 1).
  - destruct (Hinv r Hrin) as [Hrc Hrnum]. split; [exact Hrc|].
    assert (Ha : images_of (process_uploaded_images session 0 images)
                   (PetRegistrationSession.id r) = []).
    { apply (images_of_none _ (PetRegistrationSession.id session)); auto.
      eapply Forall_impl; [|exact Hall]. now intros im [? _]. }
    now rewrite Ha, app_nil_r.
Qed.
End IntakeFacts.

Lemma PetImageUploadView_post_numbering_witness :
  let out :=
    PetImageUploadView_post PetsFacts.half_yolo PetsFacts.no_quality
      (fun _ => true) (fun i => N.of_nat (100 + i)) PetsFacts.intake_db
      (minutes 1) "tok"%string ["a.jpg"; "b.jpg"]%string in
  (forall s, In s (registration_sessions PetsFacts.intake_db) ->
             numbered PetsFacts.intake_db s) /\
  map PetRegistrationSession.actual_images_count
      (registration_sessions (snd out)) = [2] /\
  map PetImage.sequence_number (pet_images (snd out)) = [1; 2] /\
  forall s, In s (registration_sessions (snd out)) -> numbered (snd out) s.
Proof.
  intros out.
  assert (H0 : forall s, In s (registration_sessions PetsFacts.intake_db) ->
                         numbered PetsFacts.intake_db s).
  { intros s [<-|[]]. split; [discriminate|reflexivity]. }
  split; [exact H0|]. split; [reflexivity|]. split; [reflexivity|].
  apply (PetImageUploadView_post_numbering PetsFacts.half_yolo
           PetsFacts.no_quality (fun _ => true) (fun i => N.of_nat (100 + i))
           PetsFacts.intake_db (snd out) (minutes 1) "tok"%string
           ["a.jpg"; "b.jpg"]%string (fst out) H0).
  apply surjective_pairing.
Defined.

(** ** Closing a session *)

Lemma get_found_filter {A : Type} (p : A -> bool) (l : list A) (x : A) :
  Table.get p l = Table.Found x <-> filter p l = [x].
Proof.
  unfold Table.get. destruct (filter p l) as [|a [|b r]]; split; intros H;
    try discriminate; congruence.
Qed.

Lemma filter_by_unique_token (l : list PetRegistrationSession.t)
    (x : PetRegistrationSession.t) :
  NoDup (map PetRegistrationSession.session_token l) -> In x l ->
  filter (fun s => String.eqb (PetRegistrationSession.session_token s)
                     (PetRegistrationSession.session_token x)) l = [x].
Proof.
  intros Hnd Hin. apply get_found_filter.
  apply (QRFacts.get_by_unique_key PetRegistrationSession.session_token
           String.eqb); auto.
  intros a b. apply String.eqb_eq.
Qed.

Lemma get_object_after_save (db : pets_db) (user pk : uuid) (pet pet' : Pet.t)
    (sessions : list PetRegistrationSession.t) :
  get_object db user pk = Some pet ->
  Pet.id pet' = Pet.id pet -> Pet.owner pet' = Pet.owner pet ->
  get_object
    (with_pets (with_sessions db sessions) (save_pet pet' (pets db))) user pk
  = Some pet'.
Proof.
  unfold get_object. cbn [pets with_pets with_sessions].
  intros H Hid Howner.
  assert (Hp : N.eqb (Pet.id pet') pk && N.eqb (Pet.owner pet') user = true).
  { apply find_some in H as [_ H]. now rewrite Hid, Howner. }
  assert (Hpk : Pet.id pet = pk).
  { apply find_some in H as [_ H]. apply andb_prop in H as [H _].
    now apply N.eqb_eq. }
  induction (pets db) as [|a l IH]; [discriminate|].
  simpl in *. destruct (N.eqb_spec (Pet.id a) (Pet.id pet')) as [E|E].
  - now rewrite Hp.
  - destruct (N.eqb_spec (Pet.id a) pk) as [E'|E']; simpl in *.
    + congruence.
    + auto.
Qed.

(** The status a session is closed with, next to the status of its pet. *)
Definition closing_status (pet_status : Pet.registration_status_t)
  : PetRegistrationSession.status_t :=
  match pet_status with
  | Pet.completed => PetRegistrationSession.completed
  | _ => PetRegistrationSession.failed
  end.

Definition close (now : datetime) (pet_status : Pet.registration_status_t)
    (s : PetRegistrationSession.t) : PetRegistrationSession.t :=
  PetRegistrationSession.set_status (set_end_time s (Some now))
    (closing_status pet_status).

Definition has_token (token : String.string) (s : PetRegistrationSession.t)
  : bool :=
  String.eqb (PetRegistrationSession.session_token s) token.

Definition is_active (s : PetRegistrationSession.t) : bool :=
  PetRegistrationSession.status_eqb (PetRegistrationSession.status s)
    PetRegistrationSession.active.

Section CompleteFacts.
Variable generate_pet_embedding_delay : uuid -> uuid -> bool.
Variable yolo_model : String.string -> option (list Box.t).
Variable assess_image_quality :
  String.string -> option (float * float * float).
Variable valid_image : String.string -> bool.
Variable uuid4 : nat -> uuid.

Local Abbreviation complete_face_id :=
  (complete_face_id generate_pet_embedding_delay).
Local Abbreviation PetImageUploadView_post :=
  (PetImageUploadView_post yolo_model assess_image_quality valid_image uuid4).

Lemma complete_face_id_cases (db db' : pets_db) (now : datetime)
    (user pk : uuid) (session_token : String.string) (success : option bool)
    (pet_status : Pet.registration_status_t) (images_captured : Z) :
  complete_face_id db now user pk session_token success =
    (Completed pet_status images_captured, db') ->
  exists pet active_session session,
    get_object db user pk = Some pet /\
    CharField_ok 100 session_token = true /\
    Table.get (is_active_session_with_token session_token)
      (registration_sessions db) = Table.Found active_session /\
    Table.get (is_session_of session_token (Pet.id pet))
      (registration_sessions db) = Table.Found session /\
    images_captured = PetRegistrationSession.actual_images_count session /\
    pet_status =
      (if match success with Some b => b | None => true end &&
          (0 <? images_captured)
       then Pet.completed else Pet.failed) /\
    (pet_status = Pet.completed ->
     generate_pet_embedding_delay (Pet.id pet)
       (PetRegistrationSession.id session) = true) /\
    db' = with_pets
            (with_sessions db
               (save_session (close now pet_status session)
                  (registration_sessions db)))
            (save_pet (Pet.set_registration_status pet pet_status) (pets db)).
Proof.
  unfold PetsSessionViews.complete_face_id, CompleteFaceIDSerializer_is_valid.
  destruct (get_object db user pk) as [pet|]; [|discriminate].
  destruct (CharField_ok 100 session_token); [|discriminate]. simpl.
  destruct (Table.get (is_active_session_with_token session_token) _)
    as [a| |]; try discriminate.
  destruct (Table.get (is_session_of session_token (Pet.id pet)) _)
    as [session| |] eqn:G; try discriminate.
  cbn [PetRegistrationSession.actual_images_count set_end_time
       PetRegistrationSession.id].
  destruct (match success with Some b => b | None => true end &&
            (0 <? PetRegistrationSession.actual_images_count session)) eqn:E.
  - destruct (generate_pet_embedding_delay _ _) eqn:D; [|discriminate].
    intros [= <- <- <-]. exists pet, a, session.
    cbn [PetRegistrationSession.actual_images_count set_end_time
         PetRegistrationSession.set_status Pet.registration_status
         Pet.set_registration_status].
    rewrite E. repeat split; auto.
  - intros [= <- <- <-]. exists pet, a, session.
    cbn [PetRegistrationSession.actual_images_count set_end_time
         PetRegistrationSession.set_status Pet.registration_status
         Pet.set_registration_status].
    rewrite E. repeat split; auto. discriminate.
Qed.

Lemma complete_face_id_sessions (db : pets_db) (now : datetime)
    (session_token : String.string) (pk : uuid)
    (pet_status : Pet.registration_status_t)
    (active_session session : PetRegistrationSession.t) :
  NoDup (map PetRegistrationSession.id (registration_sessions db)) ->
  NoDup (map PetRegistrationSession.session_token (registration_sessions db)) ->
  Table.get (is_active_session_with_token session_token)
    (registration_sessions db) = Table.Found active_session ->
  Table.get (is_session_of session_token pk)
    (registration_sessions db) = Table.Found session ->
  active_session = session /\
  In session (registration_sessions db) /\
  PetRegistrationSession.session_token session = session_token /\
  PetRegistrationSession.pet session = pk /\
  PetRegistrationSession.status session = PetRegistrationSession.active /\
  save_session (close now pet_status session) (registration_sessions db) =
    map (fun s => if has_token session_token s
                  then close now pet_status s else s)
        (registration_sessions db).
Proof.
  intros Hids Htokens Ha Hs.
  apply QRFacts.get_found in Ha as (Hain & Hap & _).
  apply QRFacts.get_found in Hs as (Hin & Hp & _).
  apply is_active_session_with_token_spec in Hap as [Hat Hast].
  unfold is_session_of in Hp. apply andb_prop in Hp as [Ht Hpk].
  apply String.eqb_eq in Ht. apply N.eqb_eq in Hpk.
  assert (Heq : active_session = session).
  { apply (PetsFacts.unique_by_key PetRegistrationSession.session_token
             (registration_sessions db)); auto. congruence. }
  subst active_session. repeat split; auto.
  unfold save_session, Table.save. apply map_ext_in. intros r Hr.
  unfold has_token. cbn [close PetRegistrationSession.id
    PetRegistrationSession.set_status set_end_time].
  destruct (N.eqb_spec (PetRegistrationSession.id r)
              (PetRegistrationSession.id session)) as [E|E].
  - assert (r = session)
      by (apply (PetsFacts.unique_by_key PetRegistrationSession.id
                   (registration_sessions db)); auto).
    subst r. rewrite Ht, String.eqb_refl. reflexivity.
  - destruct (String.eqb_spec (PetRegistrationSession.session_token r)
                session_token) as [E'|E']; [|reflexivity].
    exfalso. apply E. f_equal.
    apply (PetsFacts.unique_by_key PetRegistrationSession.session_token
             (registration_sessions db)); auto. congruence.
Qed.

(** X19.  When [complete_face_id] answers with a registration status, the
    token names an active session of the pet; no check of its age is made.
    The answer reports the image count of that session, and the status is
    'completed' exactly when the request does not say [success = false]
    and the count is positive, and 'failed' otherwise; for 'completed' the
    embedding job was handed over.  In the database the session with the
    token, and no other, gets the end time [now] and the same status, the
    pet gets the registration status, and no image is written. *)
Theorem complete_face_id_outcome (db db' : pets_db) (now : datetime)
    (user pk : uuid) (session_token : String.string) (success : option bool)
    (pet_status : Pet.registration_status_t) (images_captured : Z) :
  NoDup (map PetRegistrationSession.id (registration_sessions db)) ->
  NoDup (map PetRegistrationSession.session_token (registration_sessions db)) ->
  complete_face_id db now user pk session_token success =
    (Completed pet_status images_captured, db') ->
  (pet_status = Pet.completed <->
     success <> Some false /\ 0 < images_captured) /\
  (pet_status <> Pet.completed -> pet_status = Pet.failed) /\
  exists pet session,
    get_object db user pk = Some pet /\
    In session (registration_sessions db) /\
    PetRegistrationSession.session_token session = session_token /\
    PetRegistrationSession.pet session = pk /\
    PetRegistrationSession.status session = PetRegistrationSession.active /\
    PetRegistrationSession.actual_images_count session = images_captured /\
    (pet_status = Pet.completed ->
     generate_pet_embedding_delay pk (PetRegistrationSession.id session)
     = true) /\
    registration_sessions db' =
      map (fun s => if has_token session_token s
                    then close now pet_status s else s)
          (registration_sessions db) /\
    get_object db' user pk =
      Some (Pet.set_registration_status pet pet_status) /\
    pet_images db' = pet_images db.
Proof.
  intros Hids Htokens H.
  apply complete_face_id_cases in H
    as (pet & a & session & Hpet & _ & Ha & Hs & Hn & Hst & Hjob & ->).
  pose proof (PetsFacts.get_object_id _ _ _ _ Hpet) as Hpk.
  rewrite Hpk in *.
  destruct (complete_face_id_sessions db now session_token pk pet_status
              a session Hids Htokens Ha Hs)
    as (_ & Hin & Ht & Hp & Hact & Hsave).
  split; [|split].
  - rewrite Hst. destruct success as [[|]|]; simpl;
      destruct (0 <? images_captured) eqn:E;
      try apply Z.ltb_lt in E; try apply Z.ltb_ge in E;
      split; try discriminate; try (intros [? ?]; congruence || lia);
      try (intros _; split; [discriminate|lia]);
      try (intros _; split; [congruence|lia]).
  - rewrite Hst. destruct (_ && _); [congruence|reflexivity].
  - exists pet, session. repeat split; auto.
    apply (get_object_after_save _ _ _ pet); auto.
Qed.

(** X20.  A session that [complete_face_id] has closed stays closed: with
    its token every later upload is turned down as invalid, a second
    [complete_face_id] is turned down as invalid, and
    [validate_session_token] answers not valid, whoever asks; none of the
    three writes. *)
Theorem completed_session_is_closed (db db' : pets_db) (now : datetime)
    (user pk : uuid) (session_token : String.string) (success : option bool)
    (pet_status : Pet.registration_status_t) (images_captured : Z) :
  NoDup (map PetRegistrationSession.id (registration_sessions db)) ->
  NoDup (map PetRegistrationSession.session_token (registration_sessions db)) ->
  complete_face_id db now user pk session_token success =
    (Completed pet_status images_captured, db') ->
  forall (now' : datetime),
    (forall images,
       PetImageUploadView_post db' now' session_token images =
         (UploadInvalid, db')) /\
    (forall success',
       complete_face_id db' now' user pk session_token success' =
         (CompleteInvalid, db')) /\
    (forall user',
       exists reason,
         validate_session_token db' now' user' (Some session_token) =
           TokenChecked false None reason /\
         reason <> reason_status PetRegistrationSession.active).
Proof.
  intros Hids Htokens H now'.
  apply complete_face_id_cases in H
    as (pet & a & session & Hpet & Hfield & Ha & Hs & _ & _ & _ & ->).
  destruct (complete_face_id_sessions db now session_token (Pet.id pet)
              pet_status a session Hids Htokens Ha Hs)
    as (_ & Hin & Ht & _ & _ & Hsave).
  set (db' := with_pets _ _).
  assert (Htok : filter (has_token session_token) (registration_sessions db')
                 = [close now pet_status session]).
  { unfold db'. cbn [registration_sessions with_pets with_sessions].
    rewrite Hsave.
    assert (Hf : forall l,
               filter (has_token session_token)
                 (map (fun s => if has_token session_token s
                                then close now pet_status s else s) l) =
               map (close now pet_status)
                 (filter (has_token session_token) l)).
    { induction l as [|r l IH]; [reflexivity|]. simpl.
      destruct (has_token session_token r) eqn:E; simpl.
      - unfold has_token in *. simpl. rewrite E. simpl. now rewrite IH.
      - rewrite E. exact IH. }
    rewrite Hf. unfold has_token. rewrite <- Ht.
    now rewrite (filter_by_unique_token _ _ Htokens Hin). }
  assert (Hclosed : is_active (close now pet_status session) = false)
    by (unfold is_active, close; simpl; now destruct pet_status).
  assert (Hnone : Table.get (is_active_session_with_token session_token)
                    (registration_sessions db') = Table.DoesNotExist).
  { unfold Table.get.
    rewrite (filter_ext (is_active_session_with_token session_token)
               (fun s => has_token session_token s && is_active s))
      by reflexivity.
    rewrite QRFacts.filter_andb, Htok. simpl. now rewrite Hclosed. }
  split; [|split].
  - intros images. unfold PetsViews.PetImageUploadView_post,
      PetImageUploadSerializer_is_valid. cbv zeta. now rewrite Hnone.
  - intros success'. unfold PetsSessionViews.complete_face_id,
      CompleteFaceIDSerializer_is_valid.
    unfold db' at 1. rewrite (get_object_after_save _ _ _ pet); auto.
    rewrite Hfield. cbn [negb]. now rewrite Hnone.
  - intros user'. unfold validate_session_token.
    assert (Hne : String.eqb session_token String.EmptyString = false).
    { unfold CharField_ok in Hfield. apply andb_prop in Hfield as [Hb _].
      now apply negb_true_iff in Hb. }
    rewrite Hne. unfold Table.get.
    rewrite (QRFacts.filter_andb
               (fun s => String.eqb (PetRegistrationSession.session_token s)
                           session_token)
               (owned_by db' user')).
    change (filter (fun s => String.eqb (PetRegistrationSession.session_token s)
                               session_token) (registration_sessions db'))
      with (filter (has_token session_token) (registration_sessions db')).
    rewrite Htok. simpl.
    destruct (owned_by db' user' (close now pet_status session)).
    + exists (reason_status (closing_status pet_status)).
      unfold PetRegistrationSession.is_expired. simpl.
      destruct pet_status; simpl; split; try reflexivity; discriminate.
    + exists not_found. split; [reflexivity|discriminate].
Qed.
End CompleteFacts.

(** Two images stored for the session of [PetsFacts.intake_db]. *)
Definition captured_db : pets_db :=
  snd (PetImageUploadView_post PetsFacts.half_yolo PetsFacts.no_quality
         (fun _ => true) (fun i => N.of_nat (100 + i)) PetsFacts.intake_db
         (minutes 1) "tok"%string ["a.jpg"; "b.jpg"]%string).

Lemma captured_db_unique :
  NoDup (map PetRegistrationSession.id (registration_sessions captured_db)) /\
  NoDup (map PetRegistrationSession.session_token
           (registration_sessions captured_db)).
Proof.
  vm_compute. split; repeat constructor; simpl; intuition discriminate.
Qed.

Lemma complete_face_id_outcome_witness :
  let out :=
    complete_face_id (fun _ _ => true) captured_db (minutes 40) 1%N 7%N
      "tok"%string None in
  fst out = Completed Pet.completed 2 /\
  map PetRegistrationSession.status (registration_sessions (snd out)) =
    [PetRegistrationSession.completed] /\
  map PetRegistrationSession.end_time (registration_sessions (snd out)) =
    [Some (minutes 40)] /\
  (Pet.completed = Pet.completed <-> None <> Some false /\ 0 < 2).
Proof.
  intros out.
  assert (E : complete_face_id (fun _ _ => true) captured_db (minutes 40)
                1%N 7%N "tok"%string None =
              (Completed Pet.completed 2, snd out))
    by (vm_compute; reflexivity).
  split; [vm_compute; reflexivity|]. split; [vm_compute; reflexivity|].
  split; [vm_compute; reflexivity|].
  destruct captured_db_unique as [Hids Htokens].
  destruct (complete_face_id_outcome (fun _ _ => true) captured_db (snd out)
              (minutes 40) 1%N 7%N "tok"%string None Pet.completed 2
              Hids Htokens E) as [H _].
  exact H.
Defined.

Lemma completed_session_is_closed_witness :
  let out :=
    complete_face_id (fun _ _ => true) captured_db (minutes 40) 1%N 7%N
      "tok"%string None in
  fst out = Completed Pet.completed 2 /\
  PetImageUploadView_post PetsFacts.half_yolo PetsFacts.no_quality
    (fun _ => true) (fun i => N.of_nat (100 + i)) (snd out) (minutes 41)
    "tok"%string ["c.jpg"]%string = (UploadInvalid, snd out).
Proof.
  intros out.
  assert (E : complete_face_id (fun _ _ => true) captured_db (minutes 40)
                1%N 7%N "tok"%string None =
              (Completed Pet.completed 2, snd out))
    by (vm_compute; reflexivity).
  split; [vm_compute; reflexivity|].
  destruct captured_db_unique as [Hids Htokens].
  destruct (completed_session_is_closed (fun _ _ => true) PetsFacts.half_yolo
              PetsFacts.no_quality (fun _ => true)
              (fun i => N.of_nat (100 + i)) captured_db (snd out)
              (minutes 40) 1%N 7%N "tok"%string None Pet.completed 2
              Hids Htokens E (minutes 41)) as [Hupload _].
  apply Hupload.
Defined.

(** ** Checking a token *)

(** X21.  The answer of [validate_session_token]: it says valid exactly
    when its reason is 'active', and then it carries the session, which has
    the token, belongs to a pet of the requester, has the status [active]
    and started at most 30 minutes ago; otherwise it carries no session.
    The reason is 'not_found' exactly when no session with the token
    belongs to a pet of the requester, and 'expired' when the session is
    active but older. *)
Theorem validate_session_token_reason (db : pets_db) (now : datetime)
    (user : uuid) (session_token : option String.string) (valid : bool)
    (session : option PetRegistrationSession.t) (reason : reason_t) :
  validate_session_token db now user session_token =
    TokenChecked valid session reason ->
  (valid = true <-> reason = reason_status PetRegistrationSession.active) /\
  match session with
  | Some s =>
      valid = true /\ In s (registration_sessions db) /\
      session_token = Some (PetRegistrationSession.session_token s) /\
      owned_by db user s = true /\
      PetRegistrationSession.status s = PetRegistrationSession.active /\
      now <= PetRegistrationSession.start_time s + minutes 30
  | None => valid = false
  end /\
  (reason = not_found <->
   forall s, In s (registration_sessions db) ->
             session_token = Some (PetRegistrationSession.session_token s) ->
             owned_by db user s = false) /\
  (forall s, In s (registration_sessions db) ->
             session_token = Some (PetRegistrationSession.session_token s) ->
             owned_by db user s = true ->
             PetRegistrationSession.status s = PetRegistrationSession.active ->
             PetRegistrationSession.start_time s + minutes 30 < now ->
             reason = reason_status PetRegistrationSession.expired).
Proof.
  unfold validate_session_token.
  destruct session_token as [token|]; [|discriminate].
  destruct (String.eqb token String.EmptyString); [discriminate|].
  destruct (Table.get _ _) as [s| |] eqn:G; [| |discriminate].
  - apply QRFacts.get_found in G as (Hin & Hp & Huniq).
    apply andb_prop in Hp as [Ht Ho]. apply String.eqb_eq in Ht.
    assert (Hfound : forall s', In s' (registration_sessions db) ->
              Some token = Some (PetRegistrationSession.session_token s') ->
              owned_by db user s' = true -> s' = s).
    { intros s' Hin' [= ->] Ho'. apply Huniq; auto.
      now rewrite String.eqb_refl, Ho'. }
    unfold PetRegistrationSession.is_expired.
    destruct (PetRegistrationSession.status s) eqn:Es; simpl;
      [destruct (PetRegistrationSession.start_time s + minutes 30 <? now)
         eqn:E; simpl;
       [apply Z.ltb_lt in E|apply Z.ltb_ge in E]|..];
      intros [= <- <- <-];
      (split; [split; intros; (discriminate || reflexivity)|]);
      (split; [repeat split; auto; congruence|]);
      (split; [split; [discriminate|];
               intros Hnone; specialize (Hnone s Hin);
               rewrite Ht, Ho in Hnone; specialize (Hnone eq_refl);
               discriminate|]);
      intros s' Hin' Ht' Ho' Hs' Hlt;
      rewrite (Hfound s' Hin' Ht' Ho') in Hs', Hlt;
      try congruence; try lia; reflexivity.
  - intros [= <- <- <-].
    split; [split; intros; discriminate|]. split; [reflexivity|].
    assert (Hnone : forall s, In s (registration_sessions db) ->
              Some token = Some (PetRegistrationSession.session_token s) ->
              owned_by db user s = false).
    { intros s Hin [= ->]. unfold Table.get in G.
      destruct (filter _ _) as [|a [|b r]] eqn:F; try discriminate.
      destruct (owned_by db user s) eqn:Ho; [|reflexivity].
      assert (Hs : In s []).
      { rewrite <- F. apply filter_In. split; [exact Hin|].
        now rewrite String.eqb_refl, Ho. }
      destruct Hs. }
    split; [split; [intros _; exact Hnone|reflexivity]|].
    intros s Hin Ht Ho. rewrite (Hnone s Hin Ht) in Ho. discriminate.
Qed.

Section TokenFacts.
Variable yolo_model : String.string -> option (list Box.t).
Variable assess_image_quality :
  String.string -> option (float * float * float).
Variable valid_image : String.string -> bool.
Variable uuid4 : nat -> uuid.

(** X22.  [validate_session_token] and the intake agree: when the one says
    a token is valid, an upload of 1 to 20 acceptable images with that
    token at the same instant is accepted. *)
Theorem validate_session_token_then_upload (db : pets_db) (now : datetime)
    (user : uuid) (token : String.string)
    (session : option PetRegistrationSession.t) (reason : reason_t)
    (images : list String.string) :
  NoDup (map PetRegistrationSession.session_token (registration_sessions db)) ->
  (String.length token <= 100)%nat ->
  (1 <= length images <= 20)%nat ->
  forallb valid_image images = true ->
  validate_session_token db now user (Some token) =
    TokenChecked true session reason ->
  exists s processed_images db',
    session = Some s /\
    PetImageUploadView_post yolo_model assess_image_quality valid_image uuid4
      db now token images =
    (Uploaded (PetRegistrationSession.actual_images_count s +
               Z.of_nat (length images)) processed_images, db').
Proof.
  intros Htokens Hlen Hn Hvalid H.
  unfold validate_session_token in H.
  destruct (String.eqb token String.EmptyString); [discriminate|].
  destruct (Table.get _ _) as [s| |] eqn:G; try discriminate.
  apply QRFacts.get_found in G as (Hin & Hp & _).
  apply andb_prop in Hp as [Ht _]. apply String.eqb_eq in Ht.
  injection H as Hv Hs _.
  apply andb_prop in Hv as [Hact Hexp]. apply negb_true_iff in Hexp.
  rewrite Hact, Hexp in Hs. simpl in Hs.
  assert (Hget : Table.get (is_active_session_with_token token)
                   (registration_sessions db) = Table.Found s).
  { apply get_found_filter.
    rewrite (filter_ext (is_active_session_with_token token)
               (fun s => has_token token s && is_active s))
      by reflexivity.
    rewrite QRFacts.filter_andb. unfold has_token. rewrite <- Ht.
    rewrite (filter_by_unique_token _ _ Htokens Hin). simpl.
    unfold is_active. now rewrite Hact. }
  exists s. eexists. eexists. split; [now symmetry|].
  unfold PetImageUploadView_post, PetImageUploadSerializer_is_valid.
  cbv zeta. rewrite Hget, Hexp, Hvalid.
  replace (length images =? 0)%nat with false
    by (symmetry; apply Nat.eqb_neq; lia).
  replace (length images <=? 20)%nat with true
    by (symmetry; apply Nat.leb_le; lia).
  replace (String.length token <=? 100)%nat with true
    by (symmetry; now apply Nat.leb_le).
  reflexivity.
Qed.
End TokenFacts.

Lemma validate_session_token_reason_witness :
  validate_session_token captured_db (minutes 40) 1%N (Some "tok"%string) =
    TokenChecked false None (reason_status PetRegistrationSession.expired) /\
  (false = true <->
   reason_status PetRegistrationSession.expired =
   reason_status PetRegistrationSession.active).
Proof.
  split; [reflexivity|].
  destruct (validate_session_token_reason captured_db (minutes 40) 1%N
              (Some "tok"%string) false None
              (reason_status PetRegistrationSession.expired) eq_refl)
    as [H _].
  exact H.
Defined.

Lemma validate_session_token_then_upload_witness :
  exists s processed_images db',
    validate_session_token captured_db (minutes 20) 1%N (Some "tok"%string) =
      TokenChecked true (Some s) (reason_status PetRegistrationSession.active)
    /\
    PetImageUploadView_post PetsFacts.half_yolo PetsFacts.no_quality
      (fun _ => true) (fun i => N.of_nat (200 + i)) captured_db (minutes 20)
      "tok"%string ["c.jpg"]%string =
    (Uploaded 3 processed_images, db').
Proof.
  destruct captured_db_unique as [_ Htokens].
  assert (E : exists s,
             validate_session_token captured_db (minutes 20) 1%N
               (Some "tok"%string) =
             TokenChecked true (Some s)
               (reason_status PetRegistrationSession.active) /\
             PetRegistrationSession.actual_images_count s = 2).
  { vm_compute. eexists. split; reflexivity. }
  destruct E as (s0 & E & Hcount).
  destruct (validate_session_token_then_upload PetsFacts.half_yolo
              PetsFacts.no_quality (fun _ => true)
              (fun i => N.of_nat (200 + i)) captured_db (minutes 20) 1%N
              "tok"%string (Some s0)
              (reason_status PetRegistrationSession.active)
              ["c.jpg"]%string Htokens)
    as (s & processed & db' & Hs & Hup);
    [vm_compute; lia|simpl; lia|reflexivity|exact E|].
  injection Hs as <-. rewrite Hcount in Hup.
  exists s0, processed, db'. split; [exact E|exact Hup].
Defined.

(** ** Starting a session twice *)

Lemma sort_desc_singleton {A : Type} (lt : A -> A -> bool) (x : A) :
  Py.sort_desc lt [x] = [x].
Proof. reflexivity. Qed.

(** X23.  After [start_face_id] has started a session for a pet, the pet
    has this one active session.  A second [start_face_id] for the pet up
    to 30 minutes later is turned down with the token of that session and
    writes nothing; later than that, with an unused key and token, it
    starts a new session and the first one is saved as expired. *)
Theorem start_face_id_twice (db db1 : pets_db) (now now2 : datetime)
    (user pk : uuid) (uuid4 uuid4' : uuid)
    (session_token session_token' : String.string)
    (session : PetRegistrationSession.t) :
  NoDup (map PetRegistrationSession.id (registration_sessions db)) ->
  start_face_id db now user pk uuid4 session_token =
    (SessionStarted session, db1) ->
  PetRegistrationSession.session_token session = session_token /\
  filter (is_active_session_of pk) (registration_sessions db1) = [session] /\
  (now2 <= now + minutes 30 ->
   start_face_id db1 now2 user pk uuid4' session_token' =
     (AlreadyActive session_token, db1)) /\
  (now + minutes 30 < now2 ->
   (forall s, In s (registration_sessions db1) ->
              PetRegistrationSession.id s <> uuid4' /\
              PetRegistrationSession.session_token s <> session_token') ->
   exists db2,
     start_face_id db1 now2 user pk uuid4' session_token' =
       (SessionStarted
          (PetsFacts.new_session now2 pk uuid4' session_token'), db2) /\
     In (PetRegistrationSession.set_status session
           PetRegistrationSession.expired)
        (registration_sessions db2)).
Proof.
  intros Hids H. unfold start_face_id in H.
  destruct (get_object db user pk) as [pet|] eqn:Hpet; [|discriminate].
  pose proof (PetsFacts.get_object_id _ _ _ _ Hpet) as Hpk.
  rewrite Hpk in H.
  destruct (expire_stale_sessions now (active_sessions_of db pk)
              (registration_sessions db)) as [[tok|] table] eqn:Ex;
    [discriminate|].
  destruct (create_session table _) as [table1|] eqn:Ec; [|discriminate].
  apply PetsFacts.create_session_some in Ec as [Ec _].
  injection H as <- <-. subst table1.
  set (session := {| PetRegistrationSession.id := uuid4 |}) in *.
  set (pet' := Pet.set_registration_status pet Pet.processing).
  (* the sessions the loop has left *)
  assert (Hstale : forall q, In q (active_sessions_of db pk) ->
            In q (registration_sessions db) /\
            PetRegistrationSession.is_expired now q = true).
  { intros q Hq. split.
    - now apply PetsFacts.active_sessions_of_in in Hq.
    - eapply PetsFacts.expire_stale_sessions_none; eauto. }
  pose proof (PetsFacts.expire_stale_sessions_all now
                (registration_sessions db) Hids
                (active_sessions_of db pk) [] Hstale) as Hall.
  rewrite PetsFacts.mark_expired_nil in Hall. rewrite Hall in Ex.
  injection Ex as <-. simpl app in *.
  assert (Hnone : filter (is_active_session_of pk)
                    (map (PetsFacts.mark_expired (active_sessions_of db pk))
                         (registration_sessions db)) = []).
  { apply QRFacts.filter_none. intros y Hy.
    apply in_map_iff in Hy as [x [<- Hx]].
    apply PetsFacts.mark_expired_not_active. intros Ha.
    apply PetsFacts.active_sessions_of_in. now split. }
  assert (Hact : is_active_session_of pk session = true).
  { unfold is_active_session_of. simpl. now rewrite N.eqb_refl. }
  assert (Hfilter : filter (is_active_session_of pk)
                      (map (PetsFacts.mark_expired (active_sessions_of db pk))
                           (registration_sessions db) ++ [session])
                    = [session]).
  { rewrite filter_app, Hnone. simpl. now rewrite Hact. }
  set (db1 := with_pets _ _).
  assert (Hsessions : registration_sessions db1 =
            map (PetsFacts.mark_expired (active_sessions_of db pk))
                (registration_sessions db) ++ [session]) by reflexivity.
  assert (Hpet1 : get_object db1 user pk = Some pet').
  { unfold db1. apply (get_object_after_save _ _ _ pet); auto. }
  assert (Hpk' : Pet.id pet' = pk) by exact Hpk.
  assert (Hactive1 : active_sessions_of db1 pk = [session]).
  { unfold active_sessions_of. rewrite Hsessions, Hfilter. reflexivity. }
  split; [reflexivity|]. split; [now rewrite Hsessions|]. split.
  - intros Hnow. unfold start_face_id. rewrite Hpet1, Hpk', Hactive1.
    simpl expire_stale_sessions.
    replace (PetRegistrationSession.is_expired now2 session) with false.
    + simpl. now rewrite PetsFacts.with_sessions_same.
    + symmetry. unfold PetRegistrationSession.is_expired. simpl.
      apply Z.ltb_ge. exact Hnow.
  - intros Hnow Hfresh. unfold start_face_id.
    rewrite Hpet1, Hpk', Hactive1. simpl expire_stale_sessions.
    replace (PetRegistrationSession.is_expired now2 session) with true
      by (symmetry; unfold PetRegistrationSession.is_expired; simpl;
          now apply Z.ltb_lt).
    cbn [negb].
    match goal with
    | |- context [create_session (save_session ?r ?t) _] =>
        set (table2 := save_session r t)
    end.
    assert (Hlast : In session (registration_sessions db1)).
    { rewrite Hsessions. apply in_or_app. right. now left. }
    assert (Hin : In (PetRegistrationSession.set_status session
                        PetRegistrationSession.expired) table2).
    { unfold table2, save_session.
      apply (QRFacts.save_in_row PetRegistrationSession.id _ session);
        [exact Hlast|reflexivity]. }
    assert (Hcreate : create_session table2
                        (PetsFacts.new_session now2 pk uuid4' session_token')
                      = Some (table2 ++
                              [PetsFacts.new_session now2 pk uuid4'
                                 session_token'])).
    { unfold create_session.
      replace (existsb _ table2) with false; [reflexivity|].
      symmetry. apply not_true_iff_false. intros Hex.
      apply existsb_exists in Hex as [y [Hy Hc]].
      unfold table2, save_session, Table.save in Hy.
      apply in_map_iff in Hy as [x [Hy Hx]].
      assert (Hsi : PetRegistrationSession.id y <> uuid4' /\
                    PetRegistrationSession.session_token y <> session_token').
      { destruct (N.eqb_spec (PetRegistrationSession.id x)
                    (PetRegistrationSession.id
                       (PetRegistrationSession.set_status session
                          PetRegistrationSession.expired))) as [E|E];
          subst y; [exact (Hfresh session Hlast)|exact (Hfresh x Hx)]. }
      destruct Hsi as [Hi Ht]. simpl in Hc.
      apply orb_prop in Hc as [Hc|Hc].
      - apply N.eqb_eq in Hc. congruence.
      - apply String.eqb_eq in Hc. congruence. }
    change {| PetRegistrationSession.id := uuid4';
              PetRegistrationSession.pet := pk;
              PetRegistrationSession.session_token := session_token';
              PetRegistrationSession.status := PetRegistrationSession.active;
              PetRegistrationSession.start_time := now2;
              PetRegistrationSession.end_time := None;
              PetRegistrationSession.expected_images_count := 10;
              PetRegistrationSession.actual_images_count := 0 |}
      with (PetsFacts.new_session now2 pk uuid4' session_token').
    rewrite Hcreate. eexists. split; [reflexivity|].
    cbn [registration_sessions with_pets with_sessions].
    apply in_or_app. now left.
Qed.

Lemma start_face_id_twice_witness :
  let out :=
    start_face_id PetsFacts.sample_pets_db (minutes 31) 1%N 7%N 13%N
      "tok-new"%string in
  exists session,
    fst out = SessionStarted session /\
    start_face_id (snd out) (minutes 40) 1%N 7%N 14%N "tok-newer"%string =
      (AlreadyActive "tok-new"%string, snd out).
Proof.
  intros out.
  assert (E : exists session,
             start_face_id PetsFacts.sample_pets_db (minutes 31) 1%N 7%N 13%N
               "tok-new"%string = (SessionStarted session, snd out))
    by (vm_compute; eexists; reflexivity).
  destruct E as [session E]. exists session.
  split; [unfold out; now rewrite E|].
  assert (Hnd : NoDup (map PetRegistrationSession.id
                         (registration_sessions PetsFacts.sample_pets_db))).
  { simpl. repeat constructor; simpl; intuition discriminate. }
  destruct (start_face_id_twice PetsFacts.sample_pets_db (snd out)
              (minutes 31) (minutes 40) 1%N 7%N 13%N 14%N "tok-new"%string
              "tok-newer"%string session Hnd E) as (_ & _ & H & _).
  apply H. unfold minutes. lia.
Defined.

End PetsSessionFacts.

(* ===================================================================== *)
(** * More of qr_search: creating a code and the reasons of a refusal *)
(* ===================================================================== *)

Module QRCodeViews.
Import QRViews.

(** [timedelta(hours=n)] *)
Definition hours (n : Z) : Z := n * 3600 * 1000000.

(** What a [validate_<field>] method does: return the value, raise a
    [ValidationError] with a message, or raise something else. *)
Inductive validation (A : Type) :=
| Valid (value : A)
| Invalid (message : String.string)
| Raises.
Arguments Valid {A} value.
Arguments Invalid {A} message.
Arguments Raises {A}.

(** [ScanQRCodeSerializer.validate_qr_code] *)
Definition validate_qr_code (db : qr_db) (now : datetime)
    (value : String.string) : validation String.string :=
  match Table.get (has_code value) (qr_codes db) with
  | Table.Found qr_code =>
      if negb (QRCode.is_usable now qr_code) then
        if QRCode.is_expired now qr_code
        then Invalid "QR code has expired"%string
        else if negb (QRCode.status_eqb (QRCode.status qr_code) QRCode.active)
        then Invalid "QR code is not active"%string
        else Invalid "QR code has reached maximum usage"%string
      else Valid value
  | Table.DoesNotExist => Invalid "Invalid QR code"%string
  | Table.MultipleObjectsReturned => Raises
  end.

(** ** [CreateQRCodeSerializer] and [QRCodeManagementView.post] *)

(** The fields of the request that are validated; [location] and [notes]
    take any text. *)
Record create_data := {
  qr_type : option String.string;
  clinic_name : option String.string;
  veterinarian_name : option String.string;
  max_usage : option Z;
  expire_hours : option Z
}.

(** [IntegerField(default=..., min_value=..., max_value=...)] *)
Definition IntegerField (default min_value max_value : Z) (data : option Z)
  : option Z :=
  match data with
  | None => Some default
  | Some v => if (min_value <=? v) && (v <=? max_value) then Some v else None
  end.

(** [ChoiceField(choices=QRCode.QR_TYPES, default='pet_search')] *)
Definition qr_type_ok (data : option String.string) : bool :=
  match data with
  | None => true
  | Some v =>
      existsb (String.eqb v)
        ["pet_search"; "clinic_search"; "emergency"]%string
  end.

(** [CharField(max_length=..., required=False)] *)
Definition optional_CharField_ok (max_length : nat)
    (data : option String.string) : bool :=
  match data with
  | None => true
  | Some v => PetsSessionViews.CharField_ok max_length v
  end.

(** [CreateQRCodeSerializer.is_valid()], with the validated [max_usage]
    and [expire_hours]. *)
Definition CreateQRCodeSerializer_is_valid (data : create_data)
  : option (Z * Z) :=
  if qr_type_ok (qr_type data) &&
     optional_CharField_ok 200 (clinic_name data) &&
     optional_CharField_ok 100 (veterinarian_name data)
  then
    match IntegerField 1 1 100 (max_usage data),
          IntegerField 24 1 168 (expire_hours data) with
    | Some max_usage, Some expire_hours => Some (max_usage, expire_hours)
    | _, _ => None
    end
  else None.

(** [QRCode.generate_unique_code]: codes are drawn until one is not in
    use; [draws] are the codes drawn, in order. *)
Definition generate_unique_code (draws : list String.string)
    (table : list QRCode.t) : option String.string :=
  find (fun code => negb (existsb (has_code code) table)) draws.

Inductive create_response :=
| CreateInvalid                  (* 400, [serializer.errors] *)
| CreateCodesExhausted           (* every drawn code was taken *)
| CreateServerError              (* 500, the key is taken *)
| Created (qr_code : QRCode.t).  (* 201 *)

(** [QRCodeManagementView.post]; the columns of [QRCode] that nothing
    reads ([qr_type], the names, [location], [notes]) are not part of the
    record. *)
Definition QRCodeManagementView_post (db : qr_db) (now : datetime)
    (user : uuid) (data : create_data) (uuid4 : uuid)
    (draws : list String.string) : create_response * qr_db :=
  match CreateQRCodeSerializer_is_valid data with
  | None => (CreateInvalid, db)
  | Some (max_usage, expire_hours) =>
      let expires_at := now + hours expire_hours in
      match generate_unique_code draws (qr_codes db) with
      | None => (CreateCodesExhausted, db)
      | Some code =>
          let qr_code :=
            {| QRCode.id := uuid4; QRCode.code := code;
               QRCode.status := QRCode.active; QRCode.created_by := user;
               QRCode.expires_at := expires_at; QRCode.used_at := None;
               QRCode.usage_count := 0; QRCode.max_usage := max_usage |} in
          if existsb (fun c => N.eqb (QRCode.id c) uuid4 ||
                               String.eqb (QRCode.code c) code)
                     (qr_codes db)
          then (CreateServerError, db)
          else (Created qr_code, with_qr_codes db (qr_codes db ++ [qr_code]))
      end
  end.

End QRCodeViews.

Module QRCodeFacts.
Import Float64 Services QRViews QRCodeViews.

(** An active code has uses left. *)
Definition cap_respected (c : QRCode.t) : Prop :=
  QRCode.status c = QRCode.active -> QRCode.usage_count c < QRCode.max_usage c.

Lemma mark_as_used_cap_respected (now : datetime) (c : QRCode.t) :
  cap_respected (QRCode.mark_as_used now c).
Proof.
  unfold cap_respected, QRCode.mark_as_used. simpl.
  destruct (QRCode.max_usage c <=? QRCode.usage_count c + 1) eqn:E.
  - discriminate.
  - intros _. now apply Z.leb_gt in E.
Qed.

Lemma QRScanView_post_codes (db : qr_db) (now : datetime)
    (qr_code_text : String.string) (uuid4 : uuid) (draws : list String.string) :
  qr_codes (snd (QRScanView_post db now qr_code_text uuid4 draws)) =
  qr_codes db.
Proof.
  unfold QRScanView_post.
  destruct (ScanQRCodeSerializer_is_valid db now qr_code_text) as [[|]|];
    try reflexivity.
  destruct (Table.get _ (qr_codes db)) as [c| |]; try reflexivity.
  destruct (negb (QRCode.is_usable now c)); [reflexivity|].
  destruct (QRSearchSession.generate_session_token _ _) as [token|];
    [|reflexivity].
  destruct (create_search_session _ _); reflexivity.
Qed.

Section CodeTraces.
Variable crop : Type.
Variable yolo_model : String.string -> option (list Box.t).
Variable extract_face_crop : String.string -> list float -> option crop.
Variable generate_embedding : crop -> option vector.
Variable valid_image : UploadedFile.t -> bool.
Variable integrity_error_message : String.string.

Local Abbreviation QRSearchView_post :=
  (QRSearchView_post crop yolo_model extract_face_crop generate_embedding
     valid_image integrity_error_message).
Local Abbreviation process_search_image :=
  (process_search_image crop yolo_model extract_face_crop generate_embedding).
Local Abbreviation run :=
  (QRFacts.run crop yolo_model extract_face_crop generate_embedding
     valid_image integrity_error_message).
Local Abbreviation handle :=
  (QRFacts.handle crop yolo_model extract_face_crop generate_embedding
     valid_image integrity_error_message).

Lemma QRSearchView_post_codes (db : qr_db) (now : datetime)
    (session_token : String.string) (image : UploadedFile.t)
    (processing_time : float) :
  let db' := snd (QRSearchView_post db now session_token image processing_time) in
  qr_codes db' = qr_codes db \/
  exists c, In c (qr_codes db) /\
            qr_codes db' = save_qr_code (QRCode.mark_as_used now c) (qr_codes db).
Proof.
  unfold QRViews.QRSearchView_post.
  destruct (QRSearchRequestSerializer_is_valid _ db now session_token image)
    as [[|]|]; [|now left|now left].
  destruct (Table.get (has_token session_token) (search_sessions db))
    as [x| |]; [|now left|now left].
  destruct (QRSearchSession.is_expired now x); [now left|].
  destruct (process_search_image (UploadedFile.name image)) as [q|];
    [|now left].
  cbn zeta.
  destruct (find_similar_pets _ _ _) as [|best ?];
    cbn [qr_codes with_search_sessions with_search_images
         with_recognition_results search_sessions
         FaceRecognitionResult_objects_create]; [|now left].
  destruct (find _ (qr_codes db)) as [c|] eqn:F; [|now left].
  right. exists c. split; [now apply find_some in F|reflexivity].
Qed.

Lemma handle_cap_respected (db : qr_db) (r : QRFacts.request) :
  (forall c, In c (qr_codes db) -> cap_respected c) ->
  forall c, In c (qr_codes (handle db r)) -> cap_respected c.
Proof.
  intros H c. destruct r as [now code uuid4 draws|now token image pt];
    cbn [QRFacts.handle].
  - rewrite QRScanView_post_codes. apply H.
  - destruct (QRSearchView_post_codes db now token image pt)
      as [E|[c0 [_ E]]]; rewrite E; [apply H|].
    unfold save_qr_code, Table.save. intros Hin.
    apply in_map_iff in Hin as [x [Hx Hin]].
    destruct (N.eqb _ _); subst c;
      [apply mark_as_used_cap_respected|now apply H].
Qed.

(** X24.  Scans and searches keep the codes in a state where an active
    code has uses left: if that holds of every stored code, it holds after
    any sequence of scan and search requests.  In such a state a code is
    usable exactly when it is active and not past its expiry, and
    [validate_qr_code] never gives the reason that the code has reached
    its maximum usage. *)
Theorem active_code_has_uses_left (db : qr_db)
    (requests : list QRFacts.request) :
  (forall c, In c (qr_codes db) -> cap_respected c) ->
  let db' := run requests db in
  (forall c, In c (qr_codes db') -> cap_respected c) /\
  (forall now c, In c (qr_codes db') ->
     QRCode.is_usable now c =
       QRCode.status_eqb (QRCode.status c) QRCode.active &&
       negb (QRCode.is_expired now c)) /\
  (forall now value,
     validate_qr_code db' now value <>
       Invalid "QR code has reached maximum usage"%string).
Proof.
  intros H db'.
  assert (Hinv : forall c, In c (qr_codes db') -> cap_respected c).
  { subst db'. revert db H. unfold QRFacts.run.
    induction requests as [|r rest IH]; intros db H; simpl; [exact H|].
    apply IH. now apply handle_cap_respected. }
  assert (Huse : forall now c, In c (qr_codes db') ->
            QRCode.is_usable now c =
              QRCode.status_eqb (QRCode.status c) QRCode.active &&
              negb (QRCode.is_expired now c)).
  { intros now c Hc. unfold QRCode.is_usable.
    destruct (QRCode.status_eqb (QRCode.status c) QRCode.active) eqn:E;
      [|reflexivity].
    assert (Hs : QRCode.status c = QRCode.active)
      by (destruct (QRCode.status c); try discriminate; reflexivity).
    rewrite (proj2 (Z.ltb_lt _ _) (Hinv c Hc Hs)). now rewrite andb_true_r. }
  split; [exact Hinv|]. split; [exact Huse|].
  intros now value. unfold validate_qr_code.
  destruct (Table.get _ _) as [c| |] eqn:G; try discriminate.
  apply QRFacts.get_found in G as (Hin & _ & _).
  rewrite (Huse now c Hin).
  destruct (QRCode.status_eqb (QRCode.status c) QRCode.active);
    destruct (QRCode.is_expired now c); simpl; discriminate.
Qed.
End CodeTraces.

Lemma active_code_has_uses_left_witness :
  let db' :=
    QRFacts.run (list float) FaceRecognitionFacts.sample_yolo
      FaceRecognitionFacts.sample_extract FaceRecognitionFacts.sample_embed
      QRFacts.any_image QRFacts.sample_integrity_error
      [QRFacts.SearchRequest (minutes 5) "qr-tok"%string
         (QRFacts.photo "buddy1.jpg"%string) f0_5]
      (QRFacts.new_clinic_db QRSearchSession.initiated) in
  map QRCode.usage_count (qr_codes db') = [1] /\
  map QRCode.status (qr_codes db') = [QRCode.used] /\
  forall c, In c (qr_codes db') -> cap_respected c.
Proof.
  intros db'. split; [reflexivity|]. split; [reflexivity|].
  apply (active_code_has_uses_left (list float)
           FaceRecognitionFacts.sample_yolo FaceRecognitionFacts.sample_extract
           FaceRecognitionFacts.sample_embed QRFacts.any_image
           QRFacts.sample_integrity_error
           (QRFacts.new_clinic_db QRSearchSession.initiated)).
  intros c [<-|[]] _. vm_compute. reflexivity.
Defined.

(** ** A scan and the search that follows *)

Lemma generate_session_token_some (draws : list String.string)
    (table : list QRSearchSession.t) (token : String.string) :
  QRSearchSession.generate_session_token draws table = Some token ->
  In token draws /\
  ~ In token (map QRSearchSession.session_token table).
Proof.
  unfold QRSearchSession.generate_session_token. intros H.
  apply find_some in H as [Hin Hfree]. split; [exact Hin|].
  apply negb_true_iff in Hfree. intros Hused.
  apply in_map_iff in Hused as [s [Hs Hsin]].
  apply not_true_iff_false in Hfree. apply Hfree.
  apply existsb_exists. exists s. split; [exact Hsin|].
  rewrite Hs. apply String.eqb_refl.
Qed.

(** What an accepted scan has checked and what it has written. *)
Lemma QRScanView_post_session (db db' : qr_db) (now : datetime)
    (qr_code_text : String.string) (uuid4 : uuid) (draws : list String.string)
    (session : QRSearchSession.t) :
  QRScanView_post db now qr_code_text uuid4 draws = (Scanned session, db') ->
  (exists c, In c (qr_codes db) /\ QRCode.code c = qr_code_text /\
             QRCode.is_usable now c = true /\
             QRSearchSession.qr_code session = QRCode.id c) /\
  QRSearchSession.id session = uuid4 /\
  QRSearchSession.status session = QRSearchSession.initiated /\
  QRSearchSession.created_at session = now /\
  QRSearchSession.expires_at session = now + minutes 30 /\
  QRSearchSession.search_result session = None /\
  In (QRSearchSession.session_token session) draws /\
  ~ In (QRSearchSession.session_token session)
       (map QRSearchSession.session_token (search_sessions db)) /\
  ~ In uuid4 (map QRSearchSession.id (search_sessions db)) /\
  db' = with_search_sessions db (search_sessions db ++ [session]).
Proof.
  unfold QRScanView_post.
  destruct (ScanQRCodeSerializer_is_valid db now qr_code_text) as [[|]|];
    try discriminate.
  destruct (Table.get _ (qr_codes db)) as [c| |] eqn:G; try discriminate.
  destruct (QRCode.is_usable now c) eqn:U; [|discriminate]. cbn [negb].
  destruct (QRSearchSession.generate_session_token _ _) as [token|] eqn:T;
    [|discriminate].
  unfold create_search_session.
  destruct (existsb _ (search_sessions db)) eqn:E; [discriminate|].
  intros [= <- <-]. cbn.
  apply QRFacts.get_found in G as (Hin & Hcode & _).
  apply String.eqb_eq in Hcode.
  apply generate_session_token_some in T as [Hdraw Hfree].
  split; [exists c; repeat split; assumption|].
  repeat split; try assumption.
  intros Hid. apply in_map_iff in Hid as [y [Hy Hyin]].
  apply not_true_iff_false in E. apply E.
  apply existsb_exists. exists y. split; [exact Hyin|].
  cbn. now rewrite Hy, N.eqb_refl.
Qed.

(** X25.  A scan that is accepted: the text is the code of a stored code
    that is usable at the time of the scan; the new session belongs to
    that code, is [initiated], expires 30 minutes after the scan, and has
    the drawn key and one of the drawn tokens, which no other session has.
    It is added to the sessions; nothing else is written, so the scan does
    not count as a use of the code. *)
Theorem QRScanView_post_scanned (db db' : qr_db) (now : datetime)
    (qr_code_text : String.string) (uuid4 : uuid) (draws : list String.string)
    (session : QRSearchSession.t) :
  QRScanView_post db now qr_code_text uuid4 draws = (Scanned session, db') ->
  (exists c, In c (qr_codes db) /\ QRCode.code c = qr_code_text /\
             QRCode.status c = QRCode.active /\
             now <= QRCode.expires_at c /\
             QRCode.usage_count c < QRCode.max_usage c /\
             QRSearchSession.qr_code session = QRCode.id c) /\
  QRSearchSession.id session = uuid4 /\
  QRSearchSession.status session = QRSearchSession.initiated /\
  QRSearchSession.created_at session = now /\
  QRSearchSession.expires_at session = now + minutes 30 /\
  QRSearchSession.search_result session = None /\
  In (QRSearchSession.session_token session) draws /\
  ~ In (QRSearchSession.session_token session)
       (map QRSearchSession.session_token (search_sessions db)) /\
  ~ In uuid4 (map QRSearchSession.id (search_sessions db)) /\
  db' = with_search_sessions db (search_sessions db ++ [session]).
Proof.
  intros H. apply QRScanView_post_session in H
    as ((c & Hc & Hcode & Husable & Hfk) & Hrest).
  apply QRFacts.is_usable_spec in Husable as (Hs & He & Hcap).
  split; [|exact Hrest].
  exists c. repeat split; assumption.
Qed.

Section ScanFacts.
Variable crop : Type.
Variable yolo_model : String.string -> option (list Box.t).
Variable extract_face_crop : String.string -> list float -> option crop.
Variable generate_embedding : crop -> option vector.
Variable valid_image : UploadedFile.t -> bool.
Variable integrity_error_message : String.string.

Local Abbreviation QRSearchView_post :=
  (QRSearchView_post crop yolo_model extract_face_crop generate_embedding
     valid_image integrity_error_message).
Local Abbreviation process_search_image :=
  (process_search_image crop yolo_model extract_face_crop generate_embedding).

Lemma find_by_id (codes : list QRCode.t) (c : QRCode.t) :
  In c codes ->
  exists c0, find (fun c1 => N.eqb (QRCode.id c1) (QRCode.id c)) codes
             = Some c0 /\ In c0 codes /\ QRCode.id c0 = QRCode.id c.
Proof.
  intros Hin.
  destruct (find _ codes) as [c0|] eqn:F.
  - exists c0. apply find_some in F as [H1 H2]. apply N.eqb_eq in H2.
    now repeat split.
  - pose proof (find_none _ _ F c Hin) as E. cbv beta in E.
    now rewrite N.eqb_refl in E.
Qed.

(** X26.  The session of an accepted scan takes one upload for 30 minutes.
    An upload of an acceptable image with its token up to 30 minutes after
    the scan is answered with the no-face error when the image gives no
    embedding, with a completed search without a result when it gives one
    and no stored template matches, and with the error of a failed search
    when a template matches, because the create of the recognition result
    raises; the session is left [completed] in the second case and [failed]
    in the other two.  A later upload is turned down as invalid and writes
    nothing. *)
Theorem scan_then_search (db db' : qr_db) (now now' : datetime)
    (qr_code_text : String.string) (uuid4 : uuid) (draws : list String.string)
    (session : QRSearchSession.t) (image : UploadedFile.t)
    (processing_time : float) :
  QRFacts.sessions_unique db ->
  QRScanView_post db now qr_code_text uuid4 draws = (Scanned session, db') ->
  (String.length (QRSearchSession.session_token session) <= 100)%nat ->
  valid_image image && validate_image image = true ->
  let r := QRSearchView_post db' now' (QRSearchSession.session_token session)
             image processing_time in
  (now' <= now + minutes 30 ->
   (process_search_image (UploadedFile.name image) = None ->
    fst r = NoFaceDetected uuid4) /\
   (forall query_embedding,
      process_search_image (UploadedFile.name image) = Some query_embedding ->
      (find_similar_pets (face_embeddings db) query_embedding 5 = [] ->
       fst r = SearchCompleted uuid4 None) /\
      (find_similar_pets (face_embeddings db) query_embedding 5 <> [] ->
       fst r = SearchFailed uuid4)) /\
   exists session',
     In session' (search_sessions (snd r)) /\
     QRSearchSession.id session' = uuid4 /\
     QRSearchSession.status session' =
       match fst r with
       | SearchCompleted _ _ => QRSearchSession.completed
       | _ => QRSearchSession.failed
       end) /\
  (now + minutes 30 < now' -> r = (SearchInvalid, db')).
Proof.
  intros Hu Hscan Hlen Himg r.
  pose proof (QRFacts.QRScanView_post_unique db now qr_code_text uuid4 draws
                Hu) as Hu'.
  rewrite Hscan in Hu'. cbn [snd] in Hu'.
  apply QRScanView_post_session in Hscan
    as ((c & Hc & _ & _ & Hfk) & Hid & Hst & _ & Hexp & _ & _ & _ & _ & ->).
  assert (Hin : In session (search_sessions
                  (with_search_sessions db (search_sessions db ++ [session]))))
    by (cbn; apply in_or_app; right; now left).
  set (db' := with_search_sessions db (search_sessions db ++ [session])) in *.
  assert (Hacc : accepts_upload session = true)
    by (unfold accepts_upload; now rewrite Hst).
  assert (G : Table.get (has_token (QRSearchSession.session_token session))
                (search_sessions db') = Table.Found session).
  { unfold has_token.
    apply (QRFacts.get_by_unique_key QRSearchSession.session_token String.eqb
             _ session QRFacts.string_eqb_eq (proj2 Hu') Hin). }
  split.
  - intros Hnow.
    assert (He : QRSearchSession.is_expired now' session = false).
    { unfold QRSearchSession.is_expired. rewrite Hexp. now apply Z.ltb_ge. }
    assert (Hok : QRFacts.acceptable_upload valid_image db' now' session image).
    { repeat split; try assumption; try apply Hu'. now apply Nat.leb_le. }
    destruct (find_by_id (qr_codes db') c Hc) as (c0 & F & _ & _).
    rewrite <- Hfk in F.
    destruct (process_search_image (UploadedFile.name image)) as [q|] eqn:Hq.
    + pose proof (QRFacts.QRSearchView_post_embedding crop yolo_model
                    extract_face_crop generate_embedding valid_image
                    integrity_error_message db' now' session image
                    processing_time q Hok Hq) as H.
      cbv zeta in H. destruct H as [Hnil Hcons].
      change (face_embeddings db') with (face_embeddings db) in Hnil, Hcons.
      split; [discriminate|]. split.
      * intros q' [= <-]. split; intros Hm; subst r.
        -- rewrite (Hnil Hm c0 F). cbn [fst]. now rewrite Hid.
        -- rewrite (Hcons Hm). cbn [fst]. now rewrite Hid.
      * subst r.
        destruct (find_similar_pets (face_embeddings db) q 5) as [|m ms].
        -- rewrite (Hnil eq_refl c0 F). cbn [fst snd search_sessions].
           eexists. split;
             [apply (QRFacts.save_in_row QRSearchSession.id _ session);
              [exact Hin|reflexivity]|].
           split; [exact Hid|reflexivity].
        -- rewrite Hcons by discriminate. cbn [fst snd search_sessions].
           eexists. split;
             [apply (QRFacts.save_in_row QRSearchSession.id _ session);
              [exact Hin|reflexivity]|].
           split; [exact Hid|reflexivity].
    + pose proof (QRFacts.QRSearchView_post_no_embedding crop yolo_model
                    extract_face_crop generate_embedding valid_image
                    integrity_error_message db' now' session image
                    processing_time Hok Hq) as H.
      cbv zeta in H. destruct H as (Hfst & _ & _ & Hfailed).
      fold r in Hfst, Hfailed. rewrite Hfst, Hid.
      split; [reflexivity|]. split; [discriminate|].
      eexists. split; [exact Hfailed|]. split; [exact Hid|reflexivity].
  - intros Hnow. subst r.
    unfold QRViews.QRSearchView_post, QRSearchRequestSerializer_is_valid.
    rewrite (proj2 (Nat.leb_le _ _) Hlen). cbn [negb]. cbv zeta.
    assert (G' : Table.get
                   (fun s => has_token (QRSearchSession.session_token session) s
                             && accepts_upload s)
                   (search_sessions db') = Table.Found session).
    { apply PetsSessionFacts.get_found_filter.
      rewrite QRFacts.filter_andb.
      rewrite (proj1 (PetsSessionFacts.get_found_filter _ _ _) G).
      simpl. now rewrite Hacc. }
    rewrite G'.
    replace (QRSearchSession.is_expired now' session) with true; [reflexivity|].
    symmetry. unfold QRSearchSession.is_expired. rewrite Hexp.
    now apply Z.ltb_lt.
Qed.

Lemma find_similar_pets_nil (face_embeddings : list FaceEmbedding.t)
    (query_embedding : vector) (top_k : Z) :
  1 <= top_k ->
  (find_similar_pets face_embeddings query_embedding top_k = [] <->
   forall e, In e face_embeddings -> FaceEmbedding.is_completed e = false).
Proof.
  intros Hk. rewrite FaceRecognitionFacts.find_similar_pets_unfold.
  rewrite Py.slice_to_nonneg by lia.
  remember (Py.sort_desc similarity_lt _) as L eqn:EL.
  assert (Hlen : length L =
                 length (filter FaceEmbedding.is_completed face_embeddings))
    by (subst L; now rewrite Py.sort_desc_length, length_map).
  destruct (Z.to_nat top_k) as [|n] eqn:En; [lia|].
  split.
  - intros H e He. destruct L as [|m L']; [|discriminate].
    destruct (FaceEmbedding.is_completed e) eqn:Ec; [|reflexivity].
    assert (Hf : In e (filter FaceEmbedding.is_completed face_embeddings))
      by now apply filter_In.
    destruct (filter _ face_embeddings); [destruct Hf|discriminate].
  - intros H. rewrite (QRFacts.filter_none _ _ H) in Hlen.
    destruct L; [reflexivity|discriminate].
Qed.

(** X27.  A search that gets an embedding out of the image.  When no
    stored template is completed, it completes the session without a result
    and counts as a use of its code whatever state the code is in: the code
    is saved with its counter one higher and [used_at] set, with no new
    check of its status, expiry or cap.  When some template is completed,
    the create of the recognition result raises: the request is answered
    with the error of a failed search, the session and the search image are
    saved as [failed], the image with its face detected and the text of the
    error, and neither a result nor the code is written, so that the search
    does not count as a use. *)
Theorem QRSearchView_post_completed (db : qr_db) (now : datetime)
    (x : QRSearchSession.t) (image : UploadedFile.t) (processing_time : float)
    (c : QRCode.t) (query_embedding : vector) :
  QRFacts.acceptable_upload valid_image db now x image ->
  NoDup (map QRCode.id (qr_codes db)) ->
  In c (qr_codes db) -> QRCode.id c = QRSearchSession.qr_code x ->
  process_search_image (UploadedFile.name image) = Some query_embedding ->
  let r := QRSearchView_post db now (QRSearchSession.session_token x) image
             processing_time in
  let c' := QRCode.mark_as_used now c in
  ((forall e, In e (face_embeddings db) ->
              FaceEmbedding.is_completed e = false) ->
   fst r = SearchCompleted (QRSearchSession.id x) None /\
   qr_codes (snd r) = save_qr_code c' (qr_codes db) /\
   In c' (qr_codes (snd r)) /\
   QRCode.usage_count c' = QRCode.usage_count c + 1 /\
   QRCode.used_at c' = Some now /\
   recognition_results (snd r) = recognition_results db /\
   exists x',
     In x' (search_sessions (snd r)) /\
     QRSearchSession.id x' = QRSearchSession.id x /\
     QRSearchSession.status x' = QRSearchSession.completed /\
     QRSearchSession.completed_at x' = Some now /\
     QRSearchSession.search_result x' = QRSearchSession.search_result x) /\
  ((exists e, In e (face_embeddings db) /\
              FaceEmbedding.is_completed e = true) ->
   fst r = SearchFailed (QRSearchSession.id x) /\
   qr_codes (snd r) = qr_codes db /\
   recognition_results (snd r) = recognition_results db /\
   (exists x',
      In x' (search_sessions (snd r)) /\
      QRSearchSession.id x' = QRSearchSession.id x /\
      QRSearchSession.status x' = QRSearchSession.failed /\
      QRSearchSession.completed_at x' = QRSearchSession.completed_at x /\
      QRSearchSession.search_result x' = QRSearchSession.search_result x) /\
   exists search_image,
     search_images (snd r) = search_images db ++ [search_image] /\
     QRSearchImage.session search_image = QRSearchSession.id x /\
     QRSearchImage.status search_image = QRSearchImage.failed /\
     QRSearchImage.face_detected search_image = true /\
     QRSearchImage.error_message search_image =
       Some integrity_error_message).
Proof.
  intros Hok Hids Hc Hfk Hq r c'.
  pose proof (QRFacts.find_session_code _ _ _ Hids Hc Hfk) as F.
  pose proof (find_similar_pets_nil (face_embeddings db) query_embedding 5
                ltac:(lia)) as Hnil.
  pose proof (QRFacts.QRSearchView_post_embedding crop yolo_model
                extract_face_crop generate_embedding valid_image
                integrity_error_message db now x image processing_time
                query_embedding Hok Hq) as H.
  cbv zeta in H. destruct H as [Hempty Hcons].
  destruct Hok as [_ [Hin _]].
  split.
  - intros Hall. apply Hnil in Hall. subst r.
    rewrite (Hempty Hall c F).
    cbn [fst snd qr_codes search_sessions recognition_results].
    split; [reflexivity|]. split; [reflexivity|].
    split; [now apply (QRFacts.save_in_row QRCode.id _ c)|].
    split; [reflexivity|]. split; [reflexivity|]. split; [reflexivity|].
    eexists. split;
      [apply (QRFacts.save_in_row QRSearchSession.id _ x);
       [exact Hin|reflexivity]|].
    repeat split.
  - intros [e [He Hcompleted]].
    assert (Hm : find_similar_pets (face_embeddings db) query_embedding 5
                 <> []).
    { intros Hm. rewrite (proj1 Hnil Hm e He) in Hcompleted.
      discriminate. }
    subst r. rewrite (Hcons Hm).
    cbn [fst snd qr_codes search_sessions recognition_results search_images].
    split; [reflexivity|]. split; [reflexivity|]. split; [reflexivity|].
    split.
    + eexists. split;
        [apply (QRFacts.save_in_row QRSearchSession.id _ x);
         [exact Hin|reflexivity]|].
      repeat split.
    + eexists. split; [reflexivity|]. repeat split.
Qed.
End ScanFacts.

(** The code of the clinic before any scan, and after it was used up. *)
Definition counter_db : qr_db :=
  {| qr_codes := [QRFacts.clinic_code]; search_sessions := [];
     search_images := []; recognition_results := [];
     face_embeddings := FaceRecognitionFacts.sample_corpus |}.

Definition spent_db : qr_db :=
  with_qr_codes (QRFacts.new_clinic_db QRSearchSession.initiated)
    [QRCode.mark_as_used (minutes 2) QRFacts.clinic_code].

Lemma QRScanView_post_scanned_witness :
  let out :=
    QRScanView_post counter_db 0 "ABC123XYZ789"%string 30%N
      ["qr-tok"%string] in
  fst out = Scanned (QRFacts.clinic_session QRSearchSession.initiated) /\
  QRSearchSession.expires_at
    (QRFacts.clinic_session QRSearchSession.initiated) = 0 + minutes 30 /\
  snd out =
    with_search_sessions counter_db
      [QRFacts.clinic_session QRSearchSession.initiated].
Proof.
  intros out.
  assert (E : QRScanView_post counter_db 0 "ABC123XYZ789"%string 30%N
                ["qr-tok"%string] =
              (Scanned (QRFacts.clinic_session QRSearchSession.initiated),
               snd out)) by reflexivity.
  split; [reflexivity|].
  destruct (QRScanView_post_scanned _ _ _ _ _ _ _ E)
    as (_ & _ & _ & _ & Hexp & _ & _ & _ & _ & Hdb).
  split; [exact Hexp|exact Hdb].
Defined.

Lemma scan_then_search_witness :
  let scan :=
    QRScanView_post counter_db 0 "ABC123XYZ789"%string 30%N
      ["qr-tok"%string] in
  let r := QRFacts.clinic_search (snd scan) (minutes 5) "qr-tok"%string
             (QRFacts.photo "buddy1.jpg"%string) in
  fst r = SearchFailed 30%N /\
  map QRSearchSession.status (search_sessions (snd r)) =
    [QRSearchSession.failed] /\
  qr_codes (snd r) = [QRFacts.clinic_code].
Proof.
  intros scan r.
  assert (E : QRScanView_post counter_db 0 "ABC123XYZ789"%string 30%N
                ["qr-tok"%string] =
              (Scanned (QRFacts.clinic_session QRSearchSession.initiated),
               snd scan)) by reflexivity.
  assert (Hu : QRFacts.sessions_unique counter_db)
    by (split; constructor).
  assert (Hq : process_search_image (list float)
                 FaceRecognitionFacts.sample_yolo
                 FaceRecognitionFacts.sample_extract
                 FaceRecognitionFacts.sample_embed
                 (UploadedFile.name (QRFacts.photo "buddy1.jpg"%string)) =
               Some [of_Z 2; of_Z 4]) by (vm_compute; reflexivity).
  assert (Hm : find_similar_pets (face_embeddings counter_db)
                 [of_Z 2; of_Z 4] 5 <> [])
    by (vm_compute; discriminate).
  destruct (scan_then_search (list float) FaceRecognitionFacts.sample_yolo
              FaceRecognitionFacts.sample_extract
              FaceRecognitionFacts.sample_embed QRFacts.any_image
              QRFacts.sample_integrity_error
              counter_db (snd scan) 0 (minutes 5) "ABC123XYZ789"%string 30%N
              ["qr-tok"%string]
              (QRFacts.clinic_session QRSearchSession.initiated)
              (QRFacts.photo "buddy1.jpg"%string) f0_5 Hu E)
    as [H _]; [simpl; lia|reflexivity|].
  destruct H as (_ & Hsome & _); [unfold minutes; lia|].
  destruct (Hsome _ Hq) as [_ Hfailed]. specialize (Hfailed Hm).
  split; [exact Hfailed|].
  split; vm_compute; reflexivity.
Defined.

(** On a code that is used up, where no template is stored: the search
    still counts, and the counter passes the cap. *)
Lemma QRSearchView_post_completed_witness :
  let r := QRFacts.clinic_search spent_db (minutes 5) "qr-tok"%string
             (QRFacts.photo "buddy1.jpg"%string) in
  map QRCode.status (qr_codes spent_db) = [QRCode.used] /\
  fst r = SearchCompleted 30%N None /\
  map QRCode.max_usage (qr_codes (snd r)) = [1] /\
  map QRCode.usage_count (qr_codes (snd r)) = [2].
Proof.
  intros r.
  assert (Hok : QRFacts.acceptable_upload QRFacts.any_image spent_db
                  (minutes 5)
                  (QRFacts.clinic_session QRSearchSession.initiated)
                  (QRFacts.photo "buddy1.jpg"%string)).
  { repeat split; try reflexivity;
      try (simpl; repeat constructor; simpl; tauto). }
  assert (Hids : NoDup (map QRCode.id (qr_codes spent_db)))
    by (simpl; repeat constructor; simpl; tauto).
  destruct (QRSearchView_post_completed (list float)
              FaceRecognitionFacts.sample_yolo
              FaceRecognitionFacts.sample_extract
              FaceRecognitionFacts.sample_embed QRFacts.any_image
              QRFacts.sample_integrity_error
              spent_db (minutes 5)
              (QRFacts.clinic_session QRSearchSession.initiated)
              (QRFacts.photo "buddy1.jpg"%string) f0_5
              (QRCode.mark_as_used (minutes 2) QRFacts.clinic_code)
              [of_Z 2; of_Z 4] Hok Hids (or_introl eq_refl) eq_refl eq_refl)
    as [Hdone _].
  destruct Hdone as (Hr & Hcodes & _); [intros e []|].
  split; [reflexivity|]. split; [exact Hr|].
  split; [exact (f_equal (map QRCode.max_usage) Hcodes)|].
  exact (f_equal (map QRCode.usage_count) Hcodes).
Defined.

(** ** Creating a code *)

Lemma IntegerField_range (default min_value max_value : Z) (data : option Z)
    (v : Z) :
  min_value <= default <= max_value ->
  IntegerField default min_value max_value data = Some v ->
  min_value <= v <= max_value /\ (data = None -> v = default).
Proof.
  unfold IntegerField. intros Hd. destruct data as [d|].
  - destruct ((min_value <=? d) && (d <=? max_value)) eqn:E; [|discriminate].
    intros [= <-]. apply andb_prop in E as [E1 E2].
    apply Z.leb_le in E1, E2. split; [lia|discriminate].
  - intros [= <-]. split; [lia|reflexivity].
Qed.

(** X28.  A code that [QRCodeManagementView.post] creates is active and
    unused, belongs to the requester, allows between 1 and 100 uses (1 when
    the request names none) and expires between 1 and 168 hours after its
    creation (24 when the request names none).  Its text is one of the
    drawn ones and new among the codes, which stay unique.  It is usable
    until its expiry, and until then a scan of it opens a session. *)
Theorem QRCodeManagementView_post_created (db db' : qr_db) (now : datetime)
    (user : uuid) (data : create_data) (uuid4 : uuid)
    (draws : list String.string) (c : QRCode.t) :
  NoDup (map QRCode.code (qr_codes db)) ->
  QRCodeManagementView_post db now user data uuid4 draws = (Created c, db') ->
  QRCode.id c = uuid4 /\ QRCode.status c = QRCode.active /\
  QRCode.usage_count c = 0 /\ QRCode.used_at c = None /\
  QRCode.created_by c = user /\
  1 <= QRCode.max_usage c <= 100 /\
  (max_usage data = None -> QRCode.max_usage c = 1) /\
  now + hours 1 <= QRCode.expires_at c <= now + hours 168 /\
  (expire_hours data = None -> QRCode.expires_at c = now + hours 24) /\
  In (QRCode.code c) draws /\
  ~ In (QRCode.code c) (map QRCode.code (qr_codes db)) /\
  db' = with_qr_codes db (qr_codes db ++ [c]) /\
  NoDup (map QRCode.code (qr_codes db')) /\
  (forall now', QRCode.is_usable now' c = true <->
                now' <= QRCode.expires_at c) /\
  (forall now' uuid4' draws' token,
     (String.length (QRCode.code c) <= 50)%nat ->
     now' <= QRCode.expires_at c ->
     ~ In uuid4' (map QRSearchSession.id (search_sessions db)) ->
     QRSearchSession.generate_session_token draws' (search_sessions db) =
       Some token ->
     exists session,
       QRScanView_post db' now' (QRCode.code c) uuid4' draws' =
         (Scanned session,
          with_search_sessions db' (search_sessions db ++ [session])) /\
       QRSearchSession.qr_code session = uuid4 /\
       QRSearchSession.session_token session = token).
Proof.
  intros Hcodes. unfold QRCodeManagementView_post, CreateQRCodeSerializer_is_valid.
  destruct (qr_type_ok _ && _ && _); [|discriminate].
  destruct (IntegerField 1 1 100 (max_usage data)) as [m|] eqn:Em;
    [|discriminate].
  destruct (IntegerField 24 1 168 (expire_hours data)) as [h|] eqn:Eh;
    [|discriminate].
  apply IntegerField_range in Em as [Hm Hm0]; [|lia].
  apply IntegerField_range in Eh as [Hh Hh0]; [|lia].
  destruct (generate_unique_code draws (qr_codes db)) as [code|] eqn:Eg;
    [|discriminate].
  destruct (existsb _ (qr_codes db)) eqn:Ex; [discriminate|].
  intros [= <- <-].
  cbn [QRCode.id QRCode.status QRCode.usage_count QRCode.used_at
       QRCode.created_by QRCode.max_usage QRCode.expires_at QRCode.code
       qr_codes with_qr_codes search_sessions].
  unfold generate_unique_code in Eg. apply find_some in Eg as [Hdraw Hfree].
  apply negb_true_iff in Hfree.
  assert (Hnew : ~ In code (map QRCode.code (qr_codes db))).
  { intros Hin. apply in_map_iff in Hin as [y [Hy Hyin]].
    apply not_true_iff_false in Hfree. apply Hfree.
    apply existsb_exists. exists y. split; [exact Hyin|].
    unfold has_code. rewrite Hy. apply String.eqb_refl. }
  set (c := {| QRCode.id := uuid4 |}).
  assert (Hnd : NoDup (map QRCode.code (qr_codes db ++ [c]))).
  { rewrite map_app. apply QRFacts.NoDup_snoc; assumption. }
  assert (Huse : forall now', QRCode.is_usable now' c = true <->
                              now' <= now + hours h).
  { intros now'. rewrite QRFacts.is_usable_spec. simpl. intuition lia. }
  repeat split; try assumption; try lia; try (unfold hours; lia);
    try (apply Huse; assumption).
  - intros Hn. now rewrite (Hh0 Hn).
  - intros now' uuid4' draws' token Hlen Hnow Hfresh Htoken.
    unfold QRScanView_post, ScanQRCodeSerializer_is_valid.
    cbn [qr_codes with_qr_codes search_sessions].
    rewrite (proj2 (Nat.leb_le _ _) Hlen). cbn [negb].
    assert (G : Table.get (has_code code) (qr_codes db ++ [c]) =
                Table.Found c).
    { unfold has_code.
      apply (QRFacts.get_by_unique_key QRCode.code String.eqb _ c
               QRFacts.string_eqb_eq Hnd).
      apply in_or_app. right. now left. }
    rewrite G, (proj2 (Huse now') Hnow). cbn [negb].
    rewrite Htoken. unfold create_search_session.
    apply generate_session_token_some in Htoken as [_ Hunused].
    replace (existsb _ (search_sessions db)) with false.
    + eexists. split; [reflexivity|]. split; reflexivity.
    + symmetry. apply not_true_iff_false. intros Hex.
      apply existsb_exists in Hex as [y [Hy Hc]]. cbn in Hc.
      apply orb_prop in Hc as [Hc|Hc].
      * apply N.eqb_eq in Hc. apply Hfresh. rewrite <- Hc. now apply in_map.
      * apply String.eqb_eq in Hc. apply Hunused. rewrite <- Hc.
        now apply in_map.
Qed.

Lemma QRCodeManagementView_post_created_witness :
  let data := {| qr_type := None; clinic_name := Some "Vet Sul"%string;
                 veterinarian_name := None; max_usage := Some 3;
                 expire_hours := None |} in
  let out :=
    QRCodeManagementView_post counter_db 0 1%N data 21%N
      ["ABC123XYZ789"; "QWERTY123456"]%string in
  exists c,
    fst out = Created c /\
    QRCode.code c = "QWERTY123456"%string /\
    QRCode.max_usage c = 3 /\
    QRCode.expires_at c = 0 + hours 24 /\
    NoDup (map QRCode.code (qr_codes (snd out))).
Proof.
  intros data out.
  assert (E : exists c,
             QRCodeManagementView_post counter_db 0 1%N data 21%N
               ["ABC123XYZ789"; "QWERTY123456"]%string = (Created c, snd out)
             /\ QRCode.code c = "QWERTY123456"%string
             /\ QRCode.max_usage c = 3)
    by (eexists; repeat split).
  destruct E as (c & E & Hcode & Hmax).
  exists c. split; [unfold out; now rewrite E|].
  split; [exact Hcode|]. split; [exact Hmax|].
  assert (Hnd : NoDup (map QRCode.code (qr_codes counter_db)))
    by (simpl; repeat constructor; simpl; tauto).
  destruct (QRCodeManagementView_post_created counter_db (snd out) 0 1%N data
              21%N ["ABC123XYZ789"; "QWERTY123456"]%string c Hnd E)
    as (_ & _ & _ & _ & _ & _ & _ & _ & Hexp & _ & _ & _ & Hnd' & _).
  split; [now apply Hexp|exact Hnd'].
Defined.

End QRCodeFacts.

(* ===================================================================== *)
(** * face_recognition/views.py: removing the templates of a pet *)
(* ===================================================================== *)

Module EmbeddingViews.

Inductive delete_response :=
| DeleteNotFound               (* 404, "Pet not found" *)
| DeleteServerError            (* 500, an exception nothing catches *)
| Deleted (count : Z)          (* "Deleted {count} embeddings for ..." *)
| NoEmbeddings.                (* "No embeddings found for this pet" *)

(** [pet.face_embeddings] *)
Definition is_embedding_of (pet : Pet.t) (e : FaceEmbedding.t) : bool :=
  match FaceEmbedding.pet e with
  | Some k => N.eqb k (Pet.id pet)
  | None => false
  end.

(** [delete_pet_embedding], on the tables [Pet] and [FaceEmbedding]; the
    rows of other tables that point to a deleted template follow the rule
    of their foreign key. *)
Definition delete_pet_embedding (pets : list Pet.t)
    (face_embeddings : list FaceEmbedding.t) (user pet_id : uuid)
  : delete_response * list FaceEmbedding.t :=
  match Table.get (fun p => N.eqb (Pet.id p) pet_id &&
                            N.eqb (Pet.owner p) user) pets with
  | Table.DoesNotExist => (DeleteNotFound, face_embeddings)
  | Table.MultipleObjectsReturned => (DeleteServerError, face_embeddings)
  | Table.Found pet =>
      let embeddings := filter (is_embedding_of pet) face_embeddings in
      match embeddings with
      | _ :: _ =>
          let count := Z.of_nat (length embeddings) in
          (Deleted count,
           filter (fun e => negb (is_embedding_of pet e)) face_embeddings)
      | [] => (NoEmbeddings, face_embeddings)
      end
  end.

End EmbeddingViews.

Module EmbeddingFacts.
Import Float64 Services EmbeddingViews.

Lemma similarity_not_lt_ge (x y z : Match.t) :
  is_nan (Match.similarity x) = false ->
  similarity_lt x y = false -> FaceRecognitionFacts.similarity_ge y z ->
  similarity_lt x z = false.
Proof.
  unfold similarity_lt, FaceRecognitionFacts.similarity_ge. intros Hx Hxy Hyz.
  change (fge (Match.similarity y) (Match.similarity z))
    with (fle (Match.similarity z) (Match.similarity y)) in Hyz.
  destruct (fle_not_nan _ _ Hyz) as [Hz Hy].
  rewrite (flt_not_fge _ _ Hx Hy) in Hxy. apply negb_false_iff in Hxy.
  change (fge (Match.similarity x) (Match.similarity y))
    with (fle (Match.similarity y) (Match.similarity x)) in Hxy.
  rewrite (flt_not_fge _ _ Hx Hz). apply negb_false_iff.
  exact (fle_trans _ _ _ Hyz Hxy).
Qed.

Lemma sort_matches_filter (p : Match.t -> bool) (query_embedding : vector)
    (l : list FaceEmbedding.t) :
  filter p
    (Py.sort_desc similarity_lt
       (map (FaceRecognitionFacts.match_of query_embedding) l)) =
  Py.sort_desc similarity_lt
    (filter p (map (FaceRecognitionFacts.match_of query_embedding) l)).
Proof.
  induction l as [|e l IH]; [reflexivity|].
  cbn [map Py.sort_desc fold_right].
  change (fold_right (Py.insert_desc similarity_lt) [] ?l)
    with (Py.sort_desc similarity_lt l).
  assert (Hins : forall x t,
            is_nan (Match.similarity x) = false ->
            StronglySorted FaceRecognitionFacts.similarity_ge t ->
            filter p (Py.insert_desc similarity_lt x t) =
            if p x then Py.insert_desc similarity_lt x (filter p t)
            else filter p t).
  { intros x t Hx. revert t.
    induction 1 as [|y t Hs IHt Hy]; simpl.
    - now destruct (p x).
    - destruct (similarity_lt x y) eqn:E; simpl.
      + rewrite IHt. destruct (p y), (p x); simpl; try reflexivity.
        now rewrite E.
      + destruct (p x) eqn:Px; [|reflexivity]. f_equal.
        destruct (p y) eqn:Py; simpl; [now rewrite E|].
        destruct (filter p t) as [|h t'] eqn:F; [reflexivity|]. simpl.
        assert (Hh : In h t).
        { assert (Hin : In h (filter p t)) by (rewrite F; now left).
          now apply filter_In in Hin. }
        now rewrite (similarity_not_lt_ge x y h Hx E
                       (proj1 (Forall_forall _ _) Hy h Hh)). }
  rewrite Hins.
  - rewrite IH. cbn [filter].
    destruct (p (FaceRecognitionFacts.match_of query_embedding e));
      reflexivity.
  - apply FaceRecognitionFacts.calculate_cosine_similarity_not_nan.
  - apply FaceRecognitionFacts.similarities_sorted.
Qed.

(** The templates and the matches of the pet with a given key. *)
Definition belongs_to (pet_id : uuid) (e : FaceEmbedding.t) : bool :=
  match FaceEmbedding.pet e with
  | Some k => N.eqb k pet_id
  | None => false
  end.

Definition is_match_of (pet_id : uuid) (m : Match.t) : bool :=
  match Match.pet m with
  | Some k => N.eqb k pet_id
  | None => false
  end.

(** X29.  [delete_pet_embedding] removes the templates of a pet of the
    requester and no others, and reports how many there were; for a pet
    that is not the requester's the answer is 404 and the table is left as
    it is.  After the removal no search returns the pet, and the ranking
    of the other pets is the one before with the entries of the pet taken
    out. *)
Theorem delete_pet_embedding_search (pets : list Pet.t)
    (face_embeddings face_embeddings' : list FaceEmbedding.t)
    (user pet_id : uuid) (response : delete_response) :
  delete_pet_embedding pets face_embeddings user pet_id =
    (response, face_embeddings') ->
  match response with
  | Deleted _ | NoEmbeddings =>
      (exists pet, In pet pets /\ Pet.id pet = pet_id /\ Pet.owner pet = user) /\
      face_embeddings' =
        filter (fun e => negb (belongs_to pet_id e)) face_embeddings /\
      Z.of_nat (length face_embeddings) =
        Z.of_nat (length face_embeddings') +
        match response with Deleted count => count | _ => 0 end /\
      (forall count, response = Deleted count -> 0 < count) /\
      forall query_embedding,
        RankingFacts.full_ranking face_embeddings' query_embedding =
          filter (fun m => negb (is_match_of pet_id m))
            (RankingFacts.full_ranking face_embeddings query_embedding) /\
        forall top_k m,
          In m (find_similar_pets face_embeddings' query_embedding top_k) ->
          Match.pet m <> Some pet_id
  | DeleteNotFound | DeleteServerError => face_embeddings' = face_embeddings
  end.
Proof.
  unfold delete_pet_embedding.
  destruct (Table.get _ pets) as [pet| |] eqn:G;
    [|now intros [= <- <-]|now intros [= <- <-]].
  apply QRFacts.get_found in G as (Hin & Hp & _).
  apply andb_prop in Hp as [Hid Howner].
  apply N.eqb_eq in Hid. apply N.eqb_eq in Howner.
  set (keep := fun e => negb (belongs_to pet_id e)).
  assert (Hkeep : forall e, negb (is_embedding_of pet e) = keep e).
  { intros e. unfold keep, is_embedding_of, belongs_to. now rewrite Hid. }
  assert (Hsplit : forall l : list FaceEmbedding.t,
            length l =
            (length (filter keep l) +
             length (filter (is_embedding_of pet) l))%nat).
  { induction l as [|e l IH]; [reflexivity|]. simpl.
    rewrite <- Hkeep. destruct (is_embedding_of pet e); simpl; lia. }
  assert (Hrank : forall query_embedding,
            RankingFacts.full_ranking (filter keep face_embeddings)
              query_embedding =
            filter (fun m => negb (is_match_of pet_id m))
              (RankingFacts.full_ranking face_embeddings query_embedding)).
  { intros q. unfold RankingFacts.full_ranking.
    rewrite sort_matches_filter. f_equal.
    induction face_embeddings as [|e l IH]; [reflexivity|]. simpl.
    assert (Hk : keep e = negb (is_match_of pet_id
                                  (FaceRecognitionFacts.match_of q e)))
      by reflexivity.
    destruct (FaceEmbedding.is_completed e) eqn:Ec; simpl;
      rewrite Hk; destruct (negb _) eqn:Ek; simpl;
      rewrite ?Ec; simpl; rewrite ?Ek; now rewrite IH. }
  assert (Hnever : forall query_embedding top_k m,
            In m (find_similar_pets (filter keep face_embeddings)
                    query_embedding top_k) ->
            Match.pet m <> Some pet_id).
  { intros q k m Hm.
    destruct (RankingFacts.find_similar_pets_prefix
                (filter keep face_embeddings) q k) as [n Hn].
    rewrite Hn, Hrank in Hm.
    assert (Hm' : In m (filter (fun m => negb (is_match_of pet_id m))
                          (RankingFacts.full_ranking face_embeddings q))).
    { rewrite <- (firstn_skipn n). apply in_or_app. now left. }
    apply filter_In in Hm' as [_ Hneg]. apply negb_true_iff in Hneg.
    intros Hpet. unfold is_match_of in Hneg. rewrite Hpet in Hneg.
    now rewrite N.eqb_refl in Hneg. }
  destruct (filter (is_embedding_of pet) face_embeddings) as [|e0 es] eqn:F.
  - intros [= <- <-].
    assert (Hsame : filter keep face_embeddings = face_embeddings).
    { clear -F Hkeep. induction face_embeddings as [|e l IH];
        [reflexivity|]. simpl in *. rewrite <- Hkeep.
      destruct (is_embedding_of pet e); [discriminate|]. simpl.
      now rewrite IH. }
    split; [exists pet; auto|]. split; [now rewrite Hsame|].
    split; [lia|]. split; [discriminate|].
    intros q. rewrite <- Hsame at 1. split; [apply Hrank|].
    intros k m. rewrite <- Hsame. apply Hnever.
  - intros [= <- <-].
    rewrite (filter_ext _ keep Hkeep).
    split; [exists pet; auto|]. split; [reflexivity|].
    split; [rewrite (Hsplit face_embeddings), F; cbn [length];
            rewrite ?Zpos_P_of_succ_nat; lia|].
    split; [intros count [= <-]; cbn [length];
            rewrite ?Zpos_P_of_succ_nat; lia|].
    intros q. split; [apply Hrank|apply Hnever].
Qed.

Lemma delete_pet_embedding_search_witness :
  let out :=
    delete_pet_embedding [PetsFacts.buddy]
      (FaceRecognitionFacts.sample_template 7%N 1 3 FaceEmbedding.completed ::
       FaceRecognitionFacts.sample_corpus) 1%N 7%N in
  fst out = Deleted 1 /\
  snd out = FaceRecognitionFacts.sample_corpus /\
  forall m, In m (find_similar_pets (snd out) [f1; f0] 3) ->
            Match.pet m <> Some 7%N.
Proof.
  intros out.
  assert (E : delete_pet_embedding [PetsFacts.buddy]
                (FaceRecognitionFacts.sample_template 7%N 1 3
                   FaceEmbedding.completed ::
                 FaceRecognitionFacts.sample_corpus) 1%N 7%N =
              (Deleted 1, snd out)) by reflexivity.
  split; [reflexivity|]. split; [reflexivity|].
  pose proof (delete_pet_embedding_search _ _ _ _ _ _ E)
    as (_ & _ & _ & _ & H).
  apply (H [f1; f0]).
Defined.

End EmbeddingFacts.
